(** * handin240_utils: the configuration-driven check pipeline

    A shallow embedding of [utils.py] (class [Operation], [makeOpArray],
    [doOpArray], [searchCfg], [parseConfig], [checkFs], the report
    helpers) and of [admin.py] ([checkStudent], [checkStudents] and the
    functions that open and close the handin directories), followed by
    the properties of the pipeline.

    Python objects are records, [None] is [option]'s [None], a [set] is a
    [gset], exceptions are the [Raise] case of [result], and the process
    state the code reads and writes (current directory, file system,
    standard output, the commands handed to [subprocess]) is the record
    [World], threaded explicitly. *)

From Stdlib Require Import String Ascii ZArith List Bool Lia.
From stdpp Require Import base gmap sets list strings sorting stringmap pretty.

Set Warnings "-clear-no-such-hyp".

Local Open Scope Z_scope.
Local Open Scope string_scope.

(** ** Strings, as Python's [str] *)

Module Str.

Definition chars (s : string) : list ascii := list_ascii_of_string s.

(** [c in s] for a one-character [c]. *)
Definition contains_char (c : ascii) (s : string) : bool :=
  existsb (Ascii.eqb c) (chars s).

(** [old in s]: substring test. *)
Fixpoint contains (old s : string) : bool :=
  String.prefix old s ||
  match s with
  | EmptyString => false
  | String _ s' => contains old s'
  end.

(** [c * n]. *)
Fixpoint repeat (c : string) (n : nat) : string :=
  match n with
  | O => ""
  | S n' => c +:+ repeat c n'
  end.

(** [s.replace(old, new)] for a non-empty [old]: occurrences are taken
    left to right and do not overlap; [skip] counts the characters of
    the occurrence still to be dropped. *)
Fixpoint replace_from (skip : nat) (old new s : string) : string :=
  match s with
  | EmptyString => ""
  | String c s' =>
      match skip with
      | S k => replace_from k old new s'
      | O =>
          if String.prefix old s
          then new +:+ replace_from (Nat.pred (String.length old)) old new s'
          else String c (replace_from O old new s')
      end
  end.

Definition replace (old new s : string) : string :=
  match old with
  | EmptyString => s
  | _ => replace_from O old new s
  end.

(** The characters [str.strip()] removes. *)
Definition is_space (c : ascii) : bool :=
  let n := nat_of_ascii c in
  (Nat.eqb n 32 || (Nat.leb 9 n && Nat.leb n 13) ||
   (Nat.leb 28 n && Nat.leb n 31))%bool.

Fixpoint lstrip (s : string) : string :=
  match s with
  | String c s' => if is_space c then lstrip s' else s
  | EmptyString => ""
  end.

Fixpoint rstrip (s : string) : string :=
  match s with
  | EmptyString => ""
  | String c s' =>
      match rstrip s' with
      | EmptyString => if is_space c then "" else String c ""
      | r => String c r
      end
  end.

Definition strip (s : string) : string := rstrip (lstrip s).

(** [sep.join(l)]. *)
Definition join (sep : string) (l : list string) : string :=
  String.concat sep l.

(** [str(n)] for an integer. *)
Definition of_Z (n : Z) : string := pretty n.

End Str.

(** ** Constants of [utils.py] *)

Definition ERR_NOEXIST : Z := 201.
Definition ERR_BADINTERF : Z := 204.
Definition ERR_NOCOMPILE : Z := 202.
Definition ERR_FAILTEST : Z := 203.

Module bcolors.
Definition ESC : string := String (ascii_of_nat 27) "".
Definition HEADER := ESC +:+ "[95m".
Definition OKBLUE := ESC +:+ "[94m".
Definition OKGREEN := ESC +:+ "[92m".
Definition WARNING := ESC +:+ "[33m".
Definition FAIL := ESC +:+ "[91m".
Definition ENDC := ESC +:+ "[0m".
Definition BOLD := ESC +:+ "[1m".
Definition UNDERLINE := ESC +:+ "[4m".

Definition stripFormatting (s : string) : string :=
  let contents := s in
  let contents := Str.replace HEADER "" contents in
  let contents := Str.replace OKBLUE "" contents in
  let contents := Str.replace OKGREEN "" contents in
  let contents := Str.replace WARNING "" contents in
  let contents := Str.replace FAIL "" contents in
  let contents := Str.replace ENDC "" contents in
  let contents := Str.replace BOLD "" contents in
  let contents := Str.replace UNDERLINE "" contents in
  contents.
End bcolors.

(** ** Exceptions and results *)

Inductive exn : Type :=
  | KeyError (key : string)
  | TypeError
  | OSError
  | KeyboardInterrupt
  | CalledProcessError (output : string).

Inductive result (A : Type) : Type :=
  | Ok (a : A)
  | Raise (e : exn).
Arguments Ok {A} a.
Arguments Raise {A} e.

(** ** The problem descriptor: class [Operation] *)

Record Operation : Type := mkOperation {
  number : option Z;
  existFiles : option (list string);
  compileFiles : option (list string);
  testFiles : option (list string);
  specificModules : option (list string);
  refFilePath : option string;
  hasErrors : bool;
  err : string;
  useWildcard : bool;
  skipCompile : bool;
  silent : bool
}.

(** [Operation.__init__]. *)
Definition Operation_init (refFilePath : option string) (skipCompile silent : bool)
  : Operation :=
  mkOperation None None None None None refFilePath false "" false skipCompile silent.

Definition set_number (v : option Z) (op : Operation) : Operation :=
  mkOperation v (existFiles op) (compileFiles op) (testFiles op)
    (specificModules op) (refFilePath op) (hasErrors op) (err op)
    (useWildcard op) (skipCompile op) (silent op).

Definition set_existFiles (v : option (list string)) (op : Operation) : Operation :=
  mkOperation (number op) v (compileFiles op) (testFiles op)
    (specificModules op) (refFilePath op) (hasErrors op) (err op)
    (useWildcard op) (skipCompile op) (silent op).

Definition set_compileFiles (v : option (list string)) (op : Operation) : Operation :=
  mkOperation (number op) (existFiles op) v (testFiles op)
    (specificModules op) (refFilePath op) (hasErrors op) (err op)
    (useWildcard op) (skipCompile op) (silent op).

Definition set_testFiles (v : option (list string)) (op : Operation) : Operation :=
  mkOperation (number op) (existFiles op) (compileFiles op) v
    (specificModules op) (refFilePath op) (hasErrors op) (err op)
    (useWildcard op) (skipCompile op) (silent op).

Definition set_specificModules (v : option (list string)) (op : Operation) : Operation :=
  mkOperation (number op) (existFiles op) (compileFiles op) (testFiles op)
    v (refFilePath op) (hasErrors op) (err op)
    (useWildcard op) (skipCompile op) (silent op).

Definition set_hasErrors (v : bool) (op : Operation) : Operation :=
  mkOperation (number op) (existFiles op) (compileFiles op) (testFiles op)
    (specificModules op) (refFilePath op) v (err op)
    (useWildcard op) (skipCompile op) (silent op).

Definition set_err (v : string) (op : Operation) : Operation :=
  mkOperation (number op) (existFiles op) (compileFiles op) (testFiles op)
    (specificModules op) (refFilePath op) (hasErrors op) v
    (useWildcard op) (skipCompile op) (silent op).

Definition set_useWildcard (v : bool) (op : Operation) : Operation :=
  mkOperation (number op) (existFiles op) (compileFiles op) (testFiles op)
    (specificModules op) (refFilePath op) (hasErrors op) (err op)
    v (skipCompile op) (silent op).

(** [Operation.clearErrors]. *)
Definition clearErrors (op : Operation) : Operation :=
  set_err "" (set_hasErrors false op).

(** One record of the parsed JSON configuration, the [dict] that
    [parseProblem] reads.  For each key the outer [option] says whether
    the key is in the dict and the inner one whether its value is [null]. *)
Record Problem : Type := mkProblem {
  p_number : option (option Z);
  p_files : option (option (list string));
  p_compileFiles : option (option (list string));
  p_testFiles : option (option (list string));
  p_specificModules : option (option (list string))
}.

(** [p[key]]: a missing key raises [KeyError]. *)
Definition getitem {A : Type} (key : string) (entry : option A) : result A :=
  match entry with
  | Some v => Ok v
  | None => Raise (KeyError key)
  end.

(** ** Wildcard resolution *)

Section Wildcard.

(** [glob.glob]: the paths matching a pattern, in the directory the
    configuration is loaded from. *)
Variable glob_glob : string -> list string.

(** ["*" in f]. *)
Definition has_wildcard (f : string) : bool := Str.contains_char "*"%char f.

(** [sorted(list(s))]: strings are ordered lexicographically by
    character code, which is [String.le]. *)
Definition sorted_list (s : gset string) : list string :=
  merge_sort String.le (elements s).

(** One turn of the loop over [self.existFiles]: the state is
    [(self.useWildcard, tempExistFiles)]. *)
Definition exist_step (st : bool * gset string) (f : string) : bool * gset string :=
  if has_wildcard f
  then (true, st.2 ∪ list_to_set (glob_glob f))
  else (st.1, st.2 ∪ {[ f ]}).

(** One turn of the loop over [self.compileFiles]. *)
Definition compile_step (tmp : gset string) (f : string) : gset string :=
  if has_wildcard f
  then tmp ∪ list_to_set (glob_glob f)
  else tmp ∪ {[ f ]}.

Definition checkWildcard (op : Operation) : Operation :=
  let op :=
    match existFiles op with
    | Some fs =>
        let st := foldl exist_step (useWildcard op, ∅) fs in
        set_existFiles (Some (sorted_list st.2)) (set_useWildcard st.1 op)
    | None => op
    end in
  match compileFiles op with
  | Some fs =>
      set_compileFiles (Some (sorted_list (foldl compile_step ∅ fs))) op
  | None => op
  end.

(** [Operation.parseProblem]. *)
Definition parseProblem (op : Operation) (p : Problem) : result Operation :=
  match getitem "number" (p_number p) with
  | Raise e => Raise e
  | Ok v =>
  let op := match v with Some n => set_number (Some n) op | None => op end in
  match getitem "files" (p_files p) with
  | Raise e => Raise e
  | Ok v =>
  let op := match v with Some l => set_existFiles (Some l) op | None => op end in
  match getitem "compileFiles" (p_compileFiles p) with
  | Raise e => Raise e
  | Ok v =>
  let op := match v with Some l => set_compileFiles (Some l) op | None => op end in
  match getitem "testFiles" (p_testFiles p) with
  | Raise e => Raise e
  | Ok v =>
  let op := match v with Some l => set_testFiles (Some l) op | None => op end in
  match getitem "specificModules" (p_specificModules p) with
  | Raise e => Raise e
  | Ok v =>
  let op := match v with Some l => set_specificModules (Some l) op | None => op end in
  Ok (checkWildcard op)
  end end end end end.

End Wildcard.

(** ** The process state and the monad of the pipeline *)

Definition nl : string := String (ascii_of_nat 10) "".
Definition tab : string := String (ascii_of_nat 9) "".

(** What the code can observe or change outside its own objects: the
    current directory, the files (path to contents) and directories of
    the file system, what was printed, and the command lines given to
    [subprocess.check_output], oldest first. *)
Record World : Type := mkWorld {
  cwd : string;
  files : gmap string string;
  dirs : gset string;
  stdout : list string;
  calls : list (list string)
}.

Definition set_cwd (v : string) (w : World) : World :=
  mkWorld v (files w) (dirs w) (stdout w) (calls w).
Definition set_files (v : gmap string string) (w : World) : World :=
  mkWorld (cwd w) v (dirs w) (stdout w) (calls w).
Definition set_dirs (v : gset string) (w : World) : World :=
  mkWorld (cwd w) (files w) v (stdout w) (calls w).
Definition set_stdout (v : list string) (w : World) : World :=
  mkWorld (cwd w) (files w) (dirs w) v (calls w).
Definition set_calls (v : list (list string)) (w : World) : World :=
  mkWorld (cwd w) (files w) (dirs w) (stdout w) v.

(** A computation over a state [S] that returns or raises; the state
    reached is kept in both cases. *)
Definition M (S A : Type) : Type := S -> S * result A.

Definition ret {S A} (a : A) : M S A := fun s => (s, Ok a).
Definition raise {S A} (e : exn) : M S A := fun s => (s, Raise e).
Definition bind {S A B} (m : M S A) (k : A -> M S B) : M S B :=
  fun s =>
    match m s with
    | (s', Ok a) => k a s'
    | (s', Raise e) => (s', Raise e)
    end.

Declare Scope meth_scope.
Delimit Scope meth_scope with meth.
Notation "'let*' x ':=' m 'in' k" := (bind m (fun x => k))
  (at level 20, x name, m at level 100, k at level 200) : meth_scope.
Notation "m ';;' k" := (bind m (fun _ => k))
  (at level 100, k at level 200, right associativity) : meth_scope.
Local Open Scope meth_scope.

(** [try: body finally: cleanup]: the cleanup runs on every exit of the
    body; the body's outcome stands unless the cleanup itself raises. *)
Definition try_finally {S A} (body : M S A) (cleanup : M S unit) : M S A :=
  fun s =>
    match body s with
    | (s', r) =>
        match cleanup s' with
        | (s'', Ok _) => (s'', r)
        | (s'', Raise e) => (s'', Raise e)
        end
    end.

(** [try: body except CalledProcessError as e: handler(e)]. *)
Definition try_except_called {S A} (body : M S A) (handler : string -> M S A) : M S A :=
  fun s =>
    match body s with
    | (s', Raise (CalledProcessError out)) => handler out s'
    | other => other
    end.

(** [for x in l] with an accumulator. *)
Fixpoint for_each {S A B} (l : list A) (body : B -> A -> M S B) (acc : B) : M S B :=
  match l with
  | [] => ret acc
  | x :: l' => let* acc' := body acc x in for_each l' body acc'
  end.

Definition when {S} (b : bool) (m : M S unit) : M S unit :=
  if b then m else ret tt.

(** *** The operating system *)

Module os.

(** [os.path.isabs]. *)
Definition isabs (p : string) : bool := String.prefix "/" p.

(** Leading [./] components of a relative path name the directory itself. *)
Fixpoint skip_dot (p : string) : string :=
  match p with
  | String "."%char (String "/"%char r) => skip_dot r
  | _ => p
  end.

(** The absolute path a path names in the directory [d]. *)
Definition resolve (d p : string) : string :=
  if isabs p then p else d +:+ "/" +:+ skip_dot p.

Definition getcwd : M World string := fun w => (w, Ok (cwd w)).

Definition chdir (p : string) : M World unit :=
  fun w => (set_cwd (resolve (cwd w) p) w, Ok tt).

(** [os.path.exists]. *)
Definition exists_in (w : World) (p : string) : bool :=
  let a := resolve (cwd w) p in
  bool_decide (a ∈ dom (files w)) || bool_decide (a ∈ dirs w).

Definition path_exists (p : string) : M World bool :=
  fun w => (w, Ok (exists_in w p)).

(** [os.remove]: deletes a file; anything else is an error. *)
Definition remove (p : string) : M World unit :=
  fun w =>
    let a := resolve (cwd w) p in
    if bool_decide (a ∈ dom (files w))
    then (set_files (delete a (files w)) w, Ok tt)
    else (w, Raise OSError).

(** [fd = open(p, "w"); fd.write(s); fd.close()]. *)
Definition write_file (p s : string) : M World unit :=
  fun w =>
    let a := resolve (cwd w) p in
    if bool_decide (a ∈ dirs w)
    then (w, Raise OSError)
    else (set_files (<[ a := s ]> (files w)) w, Ok tt).

(** [tempfile.mkdtemp]: a directory under a name not in use. *)
Definition mkdtemp_name (w : World) : string :=
  fresh_string_of_set "/tmp/tmp" (dirs w ∪ dom (files w)).

Definition mkdtemp : M World string :=
  fun w =>
    let d := mkdtemp_name w in
    (set_dirs ({[ d ]} ∪ dirs w) w, Ok d).

Definition below (d p : string) : bool := String.prefix (d +:+ "/") p.

(** [shutil.rmtree]: the directory and all that is below it. *)
Definition rmtree (d : string) : M World unit :=
  fun w =>
    let keep (p : string) := negb (below d p) in
    (set_files (filter (fun kv => keep kv.1 = true) (files w))
       (set_dirs ((filter (fun p => keep p = true) (dirs w)) ∖ {[ d ]}) w),
     Ok tt).

(** [print]. *)
Definition print (s : string) : M World unit :=
  fun w => (set_stdout (stdout w ++ [s]) w, Ok tt).

End os.

(** ** The check pipeline *)

(** A method of [Operation]: the state is [self] and the world. *)
Definition Meth (A : Type) : Type := M (Operation * World) A.

(** Read an attribute of [self]. *)
Definition attr {A} (f : Operation -> A) : Meth A :=
  fun s => (s, Ok (f s.1)).

(** Assign to attributes of [self]. *)
Definition update (f : Operation -> Operation) : Meth unit :=
  fun s => ((f s.1, s.2), Ok tt).

(** Run a computation on the world from inside a method. *)
Definition sys {A} (m : M World A) : Meth A :=
  fun s => match m s.2 with (w', r) => ((s.1, w'), r) end.

(** Call a method on an object held by the caller ([op.m()]). *)
Definition call {A} (m : Meth A) (op : Operation) : M World (Operation * A) :=
  fun w =>
    match m (op, w) with
    | ((op', w'), Ok a) => (w', Ok (op', a))
    | ((_, w'), Raise e) => (w', Raise e)
    end.

(** Outcome of a child process. *)
Inductive ProcResult : Type :=
  | Exited0 (output : string)
  | ExitedNonZero (output : string)
  | Interrupted.

(** ["{}".format(x)] for an optional value. *)
Definition format_opt {A} (show : A -> string) (x : option A) : string :=
  match x with
  | Some a => show a
  | None => "None"
  end.

(** [Operation.getOpError]. *)
Definition getOpError (mainFile : string) (errType : Z) : string :=
  let errMessage :=
    if (errType =? ERR_NOEXIST)%Z then "file does not exist"
    else if (errType =? ERR_NOCOMPILE)%Z then "failed to compile"
    else if (errType =? ERR_FAILTEST)%Z then "failed TA testbench"
    else if (errType =? ERR_BADINTERF)%Z then "incorrect interface"
    else "unspecified error" in
  mainFile +:+ ": " +:+ bcolors.FAIL +:+ errMessage +:+ bcolors.ENDC.

(** [Operation.removeOldDir]. *)
Definition removeOldDir (fileList : list string) (oldDir : string) : string :=
  Str.replace (oldDir +:+ "/") "" (Str.join ", " fileList).

(** [x != None]. *)
Definition not_None {A} (x : option A) : bool :=
  match x with
  | Some _ => true
  | None => false
  end.

Definition nonempty (s : string) : bool :=
  match s with
  | EmptyString => false
  | _ => true
  end.

Section Pipeline.

(** The interface comparator [svinterface.checkInterface]: reference
    file, candidate file, module filter; the empty string on a match. *)
Variable sv_checkInterface : string -> string -> option (list string) -> string.

(** What running a command line does: [subprocess.check_output] returns
    the output of a process that exits with 0, raises
    [CalledProcessError] when it exits otherwise, and a Ctrl-C raises
    [KeyboardInterrupt]. *)
Variable run_process : list string -> ProcResult.

(** [str(Path(f).with_suffix(''))]: the path without the suffix of its
    last component.  It is taken as total; [pathlib] raises only for a
    path whose last component is empty. *)
Variable with_suffix_empty : string -> string.

Definition check_output (cmd : list string) : M World string :=
  fun w =>
    let w' := set_calls (calls w ++ [cmd]) w in
    match run_process cmd with
    | Exited0 out => (w', Ok out)
    | ExitedNonZero out => (w', Raise (CalledProcessError out))
    | Interrupted => (w', Raise KeyboardInterrupt)
    end.

(** The body of the loop of [checkExistence]; the accumulator is
    [badFileMsg]. *)
Definition checkExistence_body (badFileMsg f : string) : Meth string :=
  let* ex := sys (os.path_exists ("./" +:+ f)) in
  if negb ex then
    update (set_hasErrors true) ;;
    let error := getOpError f ERR_NOEXIST +:+ nl in
    update (fun self => set_err (err self +:+ error) self) ;;
    ret (badFileMsg +:+ error)
  else
    let* quiet := attr silent in
    if negb quiet then
      let* uw := attr useWildcard in
      (if uw then sys (os.print (tab +:+ f))
       else sys (os.print (f +:+ ": file exists, good"))) ;;
      ret badFileMsg
    else ret badFileMsg.

Definition checkExistence : Meth unit :=
  let* uw := attr useWildcard in
  let* quiet := attr silent in
  when (uw && negb quiet) (sys (os.print "Files that will be handed in:")) ;;
  let* fs := attr existFiles in
  let* badFileMsg :=
    match fs with
    | Some fs => for_each fs checkExistence_body ""
    | None => ret ""
    end in
  when (negb quiet)
    (when uw
       (sys (os.print ("If you do not wish to hand in these files, please " +:+
                       "move them away from your current directory"))) ;;
     when (nonempty badFileMsg) (sys (os.print (Str.strip badFileMsg)))).

(** The reference artifact of a file. *)
Definition refFile_of (ref : option string) (f : string) : string :=
  format_opt id ref +:+ "/" +:+ with_suffix_empty f +:+ "_ref.sv".

(** The body of the loop of [checkInterface]; the accumulator is
    [toPrint]. *)
Definition checkInterface_body (toPrint f : string) : Meth string :=
  let testFile := "./" +:+ f in
  let* ref := attr refFilePath in
  let refFile := refFile_of ref f in
  let* ex := sys (os.path_exists refFile) in
  if negb ex then ret toPrint
  else
    let* mods := attr specificModules in
    let compareResult := sv_checkInterface refFile testFile mods in
    if nonempty compareResult then
      update (set_hasErrors true) ;;
      let error := getOpError f ERR_BADINTERF +:+ nl in
      update (fun self => set_err (err self +:+ error +:+ compareResult +:+ nl) self) ;;
      ret (toPrint +:+ error)
    else ret (toPrint +:+ f +:+ ": interface matches reference, good").

(** [Operation.checkInterface]; it returns [''] when it skips and
    nothing otherwise.  [None < 0] is a [TypeError]. *)
Definition checkInterface : Meth (option string) :=
  let* n := attr number in
  match n with
  | None => raise TypeError
  | Some n =>
      if (n <? 0)%Z then ret (Some "")
      else
        let* fs := attr existFiles in
        let* toPrint :=
          match fs with
          | Some fs => for_each fs checkInterface_body ""
          | None => ret ""
          end in
        let* quiet := attr silent in
        when (nonempty toPrint && negb quiet) (sys (os.print (Str.strip toPrint))) ;;
        ret None
  end.

(** [Operation.compilationErrHandler]; [output] is the decoded output
    of the failed process. *)
Definition compilationErrHandler (fileList : list string) (oldDir output : string)
  : Meth unit :=
  update (set_hasErrors true) ;;
  let files := removeOldDir fileList oldDir in
  let error := getOpError files ERR_NOCOMPILE +:+ nl in
  let* quiet := attr silent in
  when (negb quiet) (sys (os.print (Str.strip error))) ;;
  update (fun self => set_err (err self +:+ error) self) ;;
  update (fun self => set_err (err self +:+ output +:+ nl) self).

Definition vloganCmd (fileList : list string) : list string :=
  ["vlogan"; "-q"; "-sverilog"; "-nc"] ++ fileList.
Definition vcsModuleCmd (module : string) : list string :=
  ["vcs"; "-q"; "-sverilog"; "-nc"; module].
Definition vcsCmd (fileList : list string) : list string :=
  ["vcs"; "-q"; "-sverilog"; "-nc"] ++ fileList.

(** The list of files handed to the tools. *)
Definition compile_fileList (oldDir : string) (fs : list string) : list string :=
  map (fun fileName =>
         if os.isabs fileName then fileName
         else oldDir +:+ "/" +:+ fileName) fs.

(** One turn of the loop over [self.specificModules]. *)
Definition compile_module (fileList : list string) (oldDir : string)
    (_ : unit) (module : string) : Meth unit :=
  try_except_called
    (sys (check_output (vcsModuleCmd module)) ;; ret tt)
    (compilationErrHandler fileList oldDir).

Definition report_compiled (fileList : list string) (oldDir : string) : Meth unit :=
  let* quiet := attr silent in
  let* failed := attr hasErrors in
  when (negb quiet && negb failed)
    (sys (os.print (removeOldDir fileList oldDir +:+ ": file(s) compile, good"))).

(** The body of the [try] of [checkCompilation]. *)
Definition checkCompilation_body (fileList : list string) (oldDir : string)
  : Meth unit :=
  let* mods := attr specificModules in
  match mods with
  | Some mods =>
      let* analysed :=
        try_except_called
          (sys (check_output (vloganCmd fileList)) ;; ret true)
          (fun out => compilationErrHandler fileList oldDir out ;; ret false) in
      if analysed then
        for_each mods (compile_module fileList oldDir) tt ;;
        report_compiled fileList oldDir
      else ret tt
  | None =>
      try_except_called
        (sys (check_output (vcsCmd fileList)) ;; ret tt)
        (compilationErrHandler fileList oldDir) ;;
      report_compiled fileList oldDir
  end.

(** [Operation.checkCompilation]. *)
Definition checkCompilation : Meth unit :=
  let* oldDir := sys os.getcwd in
  let* fs := attr compileFiles in
  match fs with
  | None => raise TypeError
  | Some fs =>
      let fileList := compile_fileList oldDir fs in
      let* tempDir := sys os.mkdtemp in
      sys (os.chdir tempDir) ;;
      try_finally
        (checkCompilation_body fileList oldDir)
        (sys (os.chdir oldDir) ;; sys (os.rmtree tempDir))
  end.

(** One step of [do]:
    [if cond: self.check(); if self.hasErrors: return self.err + "\n"],
    followed by the rest of the method. *)
Definition stage (applies : Operation -> bool) (check : Meth unit)
    (rest : Meth string) : Meth string :=
  let* on := attr applies in
  if on then
    check ;;
    let* failed := attr hasErrors in
    if failed then let* e := attr err in ret (e +:+ nl)
    else rest
  else rest.

(** [Operation.do]. *)
Definition do : Meth string :=
  stage (fun self => not_None (existFiles self)) checkExistence
    (stage (fun self => not_None (refFilePath self)) (checkInterface ;; ret tt)
       (stage (fun self => negb (skipCompile self) && not_None (compileFiles self))
          checkCompilation
          (ret ""))).

End Pipeline.

(** ** Reports *)

(** [writeHeaderLine]: [//] is floor division and a string times a
    negative number is empty. *)
Definition writeHeaderLine (header : string) (filled : bool) : string :=
  let headerLen := 80 in
  let maxLen := headerLen - 2 in
  let header := " " +:+ header +:+ " " in
  let remaining := maxLen - Z.of_nat (String.length header) in
  let firstHalf := remaining / 2 in
  let secondHalf := remaining - firstHalf in
  let filler := if filled then "*" else " " in
  "*" +:+ Str.repeat filler (Z.to_nat firstHalf) +:+ header +:+
  Str.repeat filler (Z.to_nat secondHalf) +:+ "*" +:+ nl.

(** [getOutputHeader]. *)
Definition getOutputHeader (studentID hwNum : string) : string :=
  let headerLine := Str.repeat "*" 80 +:+ nl in
  let outputHeader := headerLine in
  let outputHeader := outputHeader +:+ writeHeaderLine ("18240: " +:+ hwNum) false in
  let outputHeader :=
    outputHeader +:+ writeHeaderLine ("Error log for: " +:+ studentID) false in
  outputHeader +:+ headerLine.

(** The header line of a problem: [writeHeaderLine("Problem {}".format(op.number), True)]. *)
Definition problem_header (op : Operation) : string :=
  writeHeaderLine ("Problem " +:+ format_opt Str.of_Z (number op)) true.

(** [createErrLog]. *)
Definition createErrLog (contents path : string) : M World unit :=
  let toWrite := bcolors.stripFormatting contents in
  os.write_file (path +:+ "/errors.log") toWrite.

Definition files_of (l : option (list string)) : gset string :=
  match l with
  | Some fs => list_to_set fs
  | None => ∅
  end.

Section Runner.

Variable sv_checkInterface : string -> string -> option (list string) -> string.
Variable run_process : list string -> ProcResult.
Variable with_suffix_empty : string -> string.

Abbreviation do_op := (do sv_checkInterface run_process with_suffix_empty).

(** The accumulators of the loop of [doOpArray]: the operations already
    run (they are objects of the caller, changed in place) and
    [filesToSubmit], [hasErrors], [errStringTotal]. *)
Definition doOpArray_body
    (acc : list Operation * (gset string * bool * string)) (op : Operation)
  : M World (list Operation * (gset string * bool * string)) :=
  let '(done, (filesToSubmit, anyErrors, errStringTotal)) := acc in
  let op := clearErrors op in
  let filesToSubmit := filesToSubmit ∪ files_of (existFiles op) in
  let filesToSubmit := filesToSubmit ∪ files_of (compileFiles op) in
  let* r := call do_op op in
  let '(op, errString) := r in
  if hasErrors op then
    ret ((done ++ [op])%list,
         (filesToSubmit, true,
          errStringTotal +:+ problem_header op +:+ errString))
  else ret ((done ++ [op])%list, (filesToSubmit, anyErrors, errStringTotal)).

(** [doOpArray]: the operations after the run and the tuple returned. *)
Definition doOpArray (opArray : list Operation)
  : M World (list Operation * (gset string * bool * string)) :=
  for_each opArray doOpArray_body ([], (∅, false, "")).

(** The accumulators of the loop of [checkStudent]: the operations
    already run, [hasAnyErrors] and [personalOutput]. *)
Definition checkStudent_body
    (acc : list Operation * (bool * string)) (op : Operation)
  : M World (list Operation * (bool * string)) :=
  let '(done, (hasAnyErrors, personalOutput)) := acc in
  let op := clearErrors op in
  let* r := call do_op op in
  let '(op, errString) := r in
  if hasErrors op then
    ret ((done ++ [op])%list, (true, personalOutput +:+ problem_header op +:+ errString))
  else ret ((done ++ [op])%list, (hasAnyErrors, personalOutput)).

(** [admin.checkStudent]: the operations after the run and the pair
    returned. *)
Definition checkStudent (studentDir : string) (opArray : list Operation)
    (hwNum : string) : M World (list Operation * (bool * string)) :=
  let personalOutput := getOutputHeader studentDir hwNum in
  let* oldDir := os.getcwd in
  os.chdir studentDir ;;
  os.print (tab +:+ "Checking compile for " +:+ studentDir) ;;
  let* r := for_each opArray checkStudent_body ([], (false, personalOutput)) in
  let '(ops, (hasAnyErrors, personalOutput)) := r in
  (if hasAnyErrors then createErrLog personalOutput "."
   else
     let* stale := os.path_exists "./errors.log" in
     when stale (os.remove "./errors.log")) ;;
  os.chdir oldDir ;;
  ret (ops, (hasAnyErrors, personalOutput)).

End Runner.

(** ** A directory listing for [glob.glob]

    Python's [glob.glob] for a pattern with no directory part filters the
    names of the current directory with [fnmatch]: [*] matches any run of
    characters, [?] any one character, [[...]] one of the listed
    characters ([[!...]] one not listed); names that start with a dot are
    left out unless the pattern starts with one.  Character ranges are
    not modelled. *)

Module fnmatch.

Inductive token : Type :=
  | Star
  | AnyChar
  | OneOf (negated : bool) (cs : list ascii)
  | Lit (c : ascii).

(** The characters up to the closing bracket and what follows it. *)
Fixpoint until_close (s : list ascii) : option (list ascii * list ascii) :=
  match s with
  | [] => None
  | c :: r =>
      if Ascii.eqb c "]" then Some ([], r)
      else match until_close r with
           | Some (cs, r') => Some (c :: cs, r')
           | None => None
           end
  end.

(** The members of a class: a closing bracket that comes first is a
    member, not the end of the class. *)
Definition members (s : list ascii) : option (list ascii * list ascii) :=
  match s with
  | "]"%char :: r =>
      match until_close r with
      | Some (cs, r') => Some ("]"%char :: cs, r')
      | None => None
      end
  | _ => until_close s
  end.

Definition class_of (s : list ascii) : option (token * list ascii) :=
  match s with
  | "!"%char :: r =>
      match members r with
      | Some (cs, r') => Some (OneOf true cs, r')
      | None => None
      end
  | _ =>
      match members s with
      | Some (cs, r') => Some (OneOf false cs, r')
      | None => None
      end
  end.

(** A bracket that is never closed stands for itself. *)
Fixpoint tokens (fuel : nat) (p : list ascii) : list token :=
  match fuel, p with
  | O, _ | _, [] => []
  | S n, c :: r =>
      if Ascii.eqb c "*" then Star :: tokens n r
      else if Ascii.eqb c "?" then AnyChar :: tokens n r
      else if Ascii.eqb c "[" then
        match class_of r with
        | Some (t, r') => t :: tokens n r'
        | None => Lit c :: tokens n r
        end
      else Lit c :: tokens n r
  end.

Fixpoint matches (ts : list token) (s : list ascii) : bool :=
  match ts with
  | [] => match s with [] => true | _ => false end
  | Star :: ts' =>
      (fix star (s : list ascii) : bool :=
         matches ts' s ||
         match s with
         | [] => false
         | _ :: s' => star s'
         end) s
  | AnyChar :: ts' =>
      match s with
      | _ :: s' => matches ts' s'
      | [] => false
      end
  | OneOf negated cs :: ts' =>
      match s with
      | c :: s' => xorb negated (existsb (Ascii.eqb c) cs) && matches ts' s'
      | [] => false
      end
  | Lit a :: ts' =>
      match s with
      | c :: s' => Ascii.eqb a c && matches ts' s'
      | [] => false
      end
  end.

Definition fnmatch (name pat : string) : bool :=
  let p := Str.chars pat in
  matches (tokens (List.length p) p) (Str.chars name).

Definition hidden (name : string) : bool := String.prefix "." name.

(** [glob.glob(pat)] in a directory whose entries are [names]. *)
Definition glob_in (names : list string) (pat : string) : list string :=
  List.filter (fun name => (hidden pat || negb (hidden name)) && fnmatch name pat) names.

End fnmatch.

Local Open Scope list_scope.

(** ** More of [utils.py]: messages *)

(** [error]. *)
Definition error (message : string) : string :=
  bcolors.FAIL +:+ "ERROR: " +:+ bcolors.ENDC +:+ message.

(** [warning]. *)
Definition warning (message : string) : string :=
  bcolors.WARNING +:+ "WARNING: " +:+ bcolors.ENDC +:+ message.

(** ** [makeOpArray] *)

(** The key of [sorted(config, key=lambda p: p["number"])]. *)
Definition number_key (p : Problem) : result (option Z) :=
  getitem "number" (p_number p).

(** The keys are computed for the whole list, left to right, before
    anything is compared. *)
Fixpoint decorate (config : list Problem) : result (list (option Z * Problem)) :=
  match config with
  | [] => Ok []
  | p :: config' =>
      match number_key p with
      | Raise e => Raise e
      | Ok k =>
          match decorate config' with
          | Raise e => Raise e
          | Ok l => Ok ((k, p) :: l)
          end
      end
  end.

(** An integer key, or [TypeError]: [None] cannot be compared. *)
Fixpoint comparable (l : list (option Z * Problem)) : result (list (Z * Problem)) :=
  match l with
  | [] => Ok []
  | (Some n, p) :: l' =>
      match comparable l' with
      | Raise e => Raise e
      | Ok r => Ok ((n, p) :: r)
      end
  | (None, _) :: _ => Raise TypeError
  end.

(** The place of a record among those already in order: behind the
    records whose key is not larger, so that the sort is stable. *)
Fixpoint insert_by_key (x : Z * Problem) (l : list (Z * Problem)) : list (Z * Problem) :=
  match l with
  | [] => [x]
  | y :: l' => if (x.1 <? y.1)%Z then x :: l else y :: insert_by_key x l'
  end.

Definition sort_by_key (l : list (Z * Problem)) : list (Z * Problem) :=
  foldl (fun acc x => insert_by_key x acc) [] l.

(** [sorted(config, key=lambda p: p["number"])]: a list of fewer than
    two records is not compared at all. *)
Definition sorted_config (config : list Problem) : result (list Problem) :=
  match decorate config with
  | Raise e => Raise e
  | Ok l =>
      match l with
      | [] | [_] => Ok config
      | _ =>
          match comparable l with
          | Raise e => Raise e
          | Ok r => Ok (map snd (sort_by_key r))
          end
      end
  end.

Section MakeOpArray.

Variable glob_glob : string -> list string.

(** The loop of [makeOpArray]: one new operation per record. *)
Fixpoint makeOpArray_loop (config : list Problem)
    (refFilePath : option string) (skipCompile silent : bool)
  : result (list Operation) :=
  match config with
  | [] => Ok []
  | problem :: config' =>
      let op := Operation_init refFilePath skipCompile silent in
      match parseProblem glob_glob op problem with
      | Raise e => Raise e
      | Ok op =>
          match makeOpArray_loop config' refFilePath skipCompile silent with
          | Raise e => Raise e
          | Ok opArray => Ok (op :: opArray)
          end
      end
  end.

(** [makeOpArray]. *)
Definition makeOpArray (config : list Problem)
    (refFilePath : option string) (skipCompile silent : bool)
  : result (list Operation) :=
  match sorted_config config with
  | Raise e => Raise e
  | Ok config => makeOpArray_loop config refFilePath skipCompile silent
  end.

End MakeOpArray.

(** ** More of Python's [str] and [os] *)

Module PyStr.

(** [c.lower()] for one character: the ASCII capital letters. *)
Definition lower_char (c : ascii) : ascii :=
  let n := nat_of_ascii c in
  if (Nat.leb 65 n && Nat.leb n 90)%bool then ascii_of_nat (n + 32) else c.

(** [s.lower()]. *)
Fixpoint lower (s : string) : string :=
  match s with
  | EmptyString => ""
  | String c s' => String (lower_char c) (lower s')
  end.

(** [s.split(sep)] for a one-character separator. *)
Fixpoint split (sep : ascii) (s : string) : list string :=
  match s with
  | EmptyString => [""]
  | String c s' =>
      if Ascii.eqb c sep then "" :: split sep s'
      else match split sep s' with
           | h :: t => String c h :: t
           | [] => [String c ""]
           end
  end.

(** [s.startswith(p)]. *)
Definition startswith (s p : string) : bool := String.prefix p s.

End PyStr.

(** [os.path.dirname] of an absolute path: what is before the last
    slash; it is empty for a path directly below the root. *)
Fixpoint dirname (p : string) : string :=
  match p with
  | EmptyString => ""
  | String c p' =>
      if Str.contains_char "/"%char p' then String c (dirname p') else ""
  end.

(** [os.mkdir]: the path must be free and its parent a directory. *)
Definition os_mkdir (p : string) : M World unit :=
  fun w =>
    let a := os.resolve (cwd w) p in
    let parent := dirname a in
    if os.exists_in w p then (w, Raise OSError)
    else if negb (nonempty parent) || bool_decide (parent ∈ dirs w)
    then (set_dirs ({[ a ]} ∪ dirs w) w, Ok tt)
    else (w, Raise OSError).

(** ** [admin.py]: the permissions of the handin directories *)

Section Admin.

Variable run_process : list string -> ProcResult.

(** [str(e)] for the [CalledProcessError] of a command. *)
Variable failure_text : list string -> string.

(** [subprocess.check_call]: the command is run and logged; its output
    is not captured. *)
Definition check_call (cmd : list string) : M World unit :=
  fun w =>
    let w' := set_calls (calls w ++ [cmd]) w in
    match run_process cmd with
    | Exited0 _ => (w', Ok tt)
    | ExitedNonZero out => (w', Raise (CalledProcessError out))
    | Interrupted => (w', Raise KeyboardInterrupt)
    end.

Definition defaultPerms : list string :=
  ["ee240:ta"; "rlidwka"; "ee240:staff"; "rlidwka"; "ee240"; "rlidwka";
   "system:administrators"; "rlidwk"].

(** The body of each [try] of the two functions below. *)
Definition attempt (verbose dryrun : bool) (fsCmd : list string) : M World unit :=
  when verbose (os.print (Str.join " " fsCmd)) ;;
  when (negb dryrun) (check_call fsCmd).

(** [openStudentPerms]. *)
Definition openStudentPerms (studentID path : string) (dryrun verbose : bool)
  : M World (option string) :=
  let fsCmd := ["fs"; "sa"; path; "-clear"; "-acl"] ++ defaultPerms in
  let retVal : option string := None in
  let* defaults :=
    try_except_called (attempt verbose dryrun fsCmd ;; ret true)
      (fun _ =>
         os.print ("Unable to set default perms for " +:+ path +:+ ": " +:+
                   failure_text fsCmd) ;;
         ret false) in
  if negb defaults then ret retVal
  else
    let fsCmd := ["fs"; "sa"; path; studentID; "write"] in
    let* failedOnce :=
      try_except_called (attempt verbose dryrun fsCmd ;; ret false)
        (fun _ => ret true) in
    let fsCmd := ["fs"; "sa"; path; studentID +:+ "@andrew.cmu.edu"; "write"] in
    try_except_called (attempt verbose dryrun fsCmd ;; ret None)
      (fun _ => ret (if failedOnce then Some studentID else retVal)).

(** [printBadIDs]. *)
Definition printBadIDs (idList : list string) : M World unit :=
  os.print (nl +:+ bcolors.FAIL +:+ "Error:" +:+ bcolors.ENDC +:+
            " unable to set perms for") ;;
  for_each idList (fun _ id => os.print (tab +:+ id)) tt ;;
  os.print "Please check that ID is correct, and that student is in the ECE system.".

(** [createStudentDirs]: the loop, which collects [badIDs]. *)
Definition createStudentDirs_body (basePath : string) (dryrun verbose : bool)
    (badIDs : list string) (student : string) : M World (list string) :=
  let path := basePath +:+ "/" +:+ PyStr.lower student in
  let* present := os.path_exists path in
  (if negb dryrun && negb present
   then os_mkdir (basePath +:+ "/" +:+ PyStr.lower student)
   else when verbose
          (os.print (tab +:+ "Handin dir already exists for " +:+
                     PyStr.lower student +:+ ", skipping"))) ;;
  let* retVal := openStudentPerms student path dryrun false in
  if not_None retVal then ret (badIDs ++ [student]) else ret badIDs.

Definition createStudentDirs (basePath : string) (ids : list string)
    (dryrun verbose : bool) : M World unit :=
  let* badIDs := for_each ids (createStudentDirs_body basePath dryrun verbose) [] in
  when (negb (length badIDs =? 0)%nat) (printBadIDs badIDs).

(** [closeStudentPerms]. *)
Definition closeStudentPerms (studentID path : string) (dryrun : bool)
  : M World (option string) :=
  let retVal : option string := None in
  let fsCmd := ["fs"; "sa"; path; studentID; "read"] in
  let* returned :=
    try_except_called (when (negb dryrun) (check_call fsCmd) ;; ret true)
      (fun _ => ret false) in
  if returned then ret retVal
  else
    let failedOnce := true in
    let fsCmd := ["fs"; "sa"; path; studentID +:+ "@andrew.cmu.edu"; "read"] in
    try_finally
      (try_except_called (when (negb dryrun) (check_call fsCmd) ;; ret None)
         (fun _ =>
            if failedOnce
            then os.print ("Error with trying to remove permissions for " +:+ path) ;;
                 ret (Some studentID)
            else ret None))
      (ret tt).

(** [closeStudentDirs]. *)
Definition closeStudentDirs_body (basePath : string) (dryrun : bool)
    (badIDs : list string) (studentDir : string) : M World (list string) :=
  let path := basePath +:+ "/" +:+ studentDir in
  let* retVal := closeStudentPerms studentDir path dryrun in
  if not_None retVal then ret (badIDs ++ [studentDir]) else ret badIDs.

Definition closeStudentDirs (basePath : string) (dirs : list string) (dryrun : bool)
  : M World unit :=
  let* badIDs := for_each dirs (closeStudentDirs_body basePath dryrun) [] in
  when (negb (length badIDs =? 0)%nat) (printBadIDs badIDs).

End Admin.

(** ** [checkFs] *)

Section CheckFs.

Variable run_process : list string -> ProcResult.

(** The loop of [checkFs]: the first line that, stripped, starts with
    the ID; the empty string when there is none. *)
Fixpoint selfPerm_of (studentID : string) (perms : list string) : string :=
  match perms with
  | [] => ""
  | perm :: perms' =>
      if PyStr.startswith (Str.strip perm) studentID then Str.strip perm
      else selfPerm_of studentID perms'
  end.

(** [checkFs].  Nothing in the loop raises [ValueError], so the handler
    of the source is never entered. *)
Definition checkFs (studentID studentDir : string) : M World bool :=
  let fsCmd := ["fs"; "la"; studentDir] in
  let* out := check_output run_process fsCmd in
  let perms := PyStr.split (ascii_of_nat 10) out in
  let selfPerm := selfPerm_of studentID perms in
  ret (Str.contains "rlidwk" selfPerm).

End CheckFs.

(** ** The exceptions of the configuration search

    [NoConfigError] and [ParseConfigError] are classes of [utils.py];
    [ValueError] and [SystemExit] come from [str.index] and [exit]. *)

Inductive failure : Type :=
  | Builtin (e : exn)
  | NoConfigError
  | ParseConfigError (exp : string)
  | ValueError
  | SystemExit (code : Z).

Inductive outcome (A : Type) : Type :=
  | Returned (a : A)
  | Failed (e : failure).
Arguments Returned {A} a.
Arguments Failed {A} e.

(** A computation that returns or fails with one of these. *)
Definition P (S A : Type) : Type := S -> S * outcome A.

Definition pret {S A} (a : A) : P S A := fun s => (s, Returned a).
Definition praise {S A} (e : failure) : P S A := fun s => (s, Failed e).
Definition pbind {S A B} (m : P S A) (k : A -> P S B) : P S B :=
  fun s =>
    match m s with
    | (s', Returned a) => k a s'
    | (s', Failed e) => (s', Failed e)
    end.

(** A computation of the pipeline, run as it is. *)
Definition lift {S A} (m : M S A) : P S A :=
  fun s =>
    match m s with
    | (s', Ok a) => (s', Returned a)
    | (s', Raise e) => (s', Failed (Builtin e))
    end.

Definition lift_result {S A} (r : result A) : P S A :=
  fun s =>
    match r with
    | Ok a => (s, Returned a)
    | Raise e => (s, Failed (Builtin e))
    end.

Declare Scope py_scope.
Delimit Scope py_scope with py.
Notation "'let*' x ':=' m 'in' k" := (pbind m (fun x => k))
  (at level 20, x name, m at level 100, k at level 200) : py_scope.
Notation "m ';;' k" := (pbind m (fun _ => k))
  (at level 100, k at level 200, right associativity) : py_scope.

Fixpoint pfor_each {S A B} (l : list A) (body : B -> A -> P S B) (acc : B) : P S B :=
  match l with
  | [] => pret acc
  | x :: l' => pbind (body acc x) (fun acc' => pfor_each l' body acc')
  end.

(** ** Reading directories and files *)

(** What is left of [s] behind the prefix [pre]. *)
Fixpoint strip_prefix (pre s : string) : option string :=
  match pre, s with
  | EmptyString, _ => Some s
  | String c pre', String d s' => if Ascii.eqb c d then strip_prefix pre' s' else None
  | String _ _, EmptyString => None
  end.

(** The name of a path directly inside the directory [d]. *)
Definition child_of (d p : string) : option string :=
  match strip_prefix (d +:+ "/") p with
  | Some n => if nonempty n && negb (Str.contains_char "/"%char n) then Some n else None
  | None => None
  end.

(** [os.listdir]: the names inside a directory, in the order of the
    file system. *)
Definition os_listdir (d : string) : M World (list string) :=
  fun w =>
    let a := os.resolve (cwd w) d in
    if bool_decide (a ∈ dirs w)
    then (w, Ok (omap (child_of a) (elements (dom (files w) ∪ dirs w))))
    else (w, Raise OSError).

(** [open(p, "r")] and reading the whole file. *)
Definition read_file (p : string) : M World string :=
  fun w =>
    match files w !! os.resolve (cwd w) p with
    | Some s => (w, Ok s)
    | None => (w, Raise OSError)
    end.

(** ** [searchCfg] and [parseConfig] *)

(** The loop of [searchCfg]: the path returned from inside the loop, if
    any. *)
Fixpoint searchCfg_loop (cfgDir fileName : string) (fileList : list string)
  : option string :=
  match fileList with
  | [] => None
  | f :: fileList' =>
      if String.eqb (PyStr.lower f) (PyStr.lower fileName)
      then Some (cfgDir +:+ "/" +:+ f)
      else searchCfg_loop cfgDir fileName fileList'
  end.

(** [searchCfg]. *)
Definition searchCfg (hwNum cfgDir : string) : P World string :=
  let fileName := hwNum +:+ "_cfg.json" in
  (let* fileList := lift (os_listdir cfgDir) in
   match searchCfg_loop cfgDir fileName fileList with
   | Some path => pret path
   | None => praise NoConfigError
   end)%py.

Section Config.

(** [json.load] on the contents of a file: the text of the exception,
    or the configuration, which is [null] or a list of records. *)
Variable json_load : string -> string + option (list Problem).

(** [parseConfig]. *)
Definition parseConfig (configPath : string) : P World (option (list Problem)) :=
  (let* present := lift (os.path_exists configPath) in
   if negb present then praise NoConfigError
   else
     let* contents := lift (read_file configPath) in
     match json_load contents with
     | inl exp => praise (ParseConfigError exp)
     | inr config => pret config
     end)%py.

End Config.

(** ** [admin.checkStudents] *)

(** [s.rindex(c)] for one character. *)
Fixpoint rindex_char (c : ascii) (s : string) : option nat :=
  match s with
  | EmptyString => None
  | String d s' =>
      match rindex_char c s' with
      | Some i => Some (S i)
      | None => if Ascii.eqb d c then Some O else None
      end
  end.

(** [s.index(sub)] and [s.rindex(c)], which raise [ValueError]. *)
Definition str_index {S} (sub s : string) : P S nat :=
  match String.index 0 sub s with
  | Some i => pret i
  | None => praise ValueError
  end.

Definition str_rindex {S} (c : ascii) (s : string) : P S nat :=
  match rindex_char c s with
  | Some i => pret i
  | None => praise ValueError
  end.

(** [s[a:b]] for indices that are not negative. *)
Definition slice (a b : nat) (s : string) : string := String.substring a (b - a) s.

Section CheckStudents.

Variable glob_glob : string -> list string.
Variable json_load : string -> string + option (list Problem).
Variable sv_checkInterface : string -> string -> option (list string) -> string.
Variable run_process : list string -> ProcResult.
Variable with_suffix_empty : string -> string.

(** One turn of the loop over the students: the operations are shared
    by all turns. *)
Definition checkStudents_body (hwNum : string)
    (acc : list Operation * list string) (student : string)
  : P World (list Operation * list string) :=
  let '(opArray, errorStudents) := acc in
  (let* r := lift (checkStudent sv_checkInterface run_process with_suffix_empty
                     student opArray hwNum) in
   let '(opArray, (hasErrors, errOut)) := r in
   if hasErrors then pret (opArray, errorStudents ++ [errOut])
   else pret (opArray, errorStudents))%py.

(** [checkStudents]. *)
Definition checkStudents (cfgDir handinDir : string) (studentList : list string)
    (hwNum : string) : P World (list string) :=
  (let* cfgPath := searchCfg hwNum cfgDir in
   let* slash := str_rindex "/" cfgPath in
   let* suffix := str_index "_cfg.json" cfgPath in
   let hwNum := slice (slash + 1) suffix cfgPath in
   let* config := parseConfig json_load (cfgDir +:+ "/" +:+ hwNum +:+ "_cfg.json") in
   match config with
   | None => praise (SystemExit 255)
   | Some config =>
       let* opArray := lift_result (makeOpArray glob_glob config None false true) in
       let* oldCwd := lift os.getcwd in
       lift (os.chdir handinDir) ;;
       let* r := pfor_each studentList (checkStudents_body hwNum) (opArray, []) in
       lift (os.chdir oldCwd) ;;
       pret r.2
   end)%py.

End CheckStudents.

(** * Vocabulary of the properties

    Closed forms of what the stages compute, used to state what the
    code does, and a concrete setting for the examples. *)

Local Open Scope list_scope.

(** *** Wildcard resolution *)

Section WildcardSpec.

Variable glob_glob : string -> list string.

(** What the two loops add to the set they build. *)
Definition expansion (f : string) : gset string :=
  if has_wildcard f then list_to_set (glob_glob f) else {[ f ]}.

(** The lists [checkWildcard] leaves in the descriptor. *)
Definition resolved (fs : list string) : list string :=
  sorted_list (⋃ (expansion <$> fs)).

End WildcardSpec.

Definition any_wildcard (l : option (list string)) : bool :=
  match l with
  | Some fs => existsb has_wildcard fs
  | None => false
  end.

(** *** Recording failures *)

(** A stage records a failure by setting [hasErrors] and appending to
    [err]. *)
Definition flag_error (text : string) (op : Operation) : Operation :=
  set_err (err op +:+ text) (set_hasErrors true op).

Definition flag_errors (texts : list string) (op : Operation) : Operation :=
  fold_left (fun op text => flag_error text op) texts op.

(** Lines printed and commands run, added to a world. *)
Definition emit (lines : list string) (w : World) : World :=
  set_stdout (stdout w ++ lines) w.

Definition logged (cmds : list (list string)) (w : World) : World :=
  set_calls (calls w ++ cmds) w.

Definition cat (l : list string) : string := fold_right String.app "" l.

(** The attributes a stage never assigns. *)
Definition same_config (op op' : Operation) : Prop :=
  number op' = number op /\ existFiles op' = existFiles op /\
  compileFiles op' = compileFiles op /\ testFiles op' = testFiles op /\
  specificModules op' = specificModules op /\ refFilePath op' = refFilePath op /\
  useWildcard op' = useWildcard op /\ skipCompile op' = skipCompile op /\
  silent op' = silent op.

(** *** Existence *)

(** The file is missing from the current directory. *)
Definition missing (w : World) (f : string) : bool :=
  negb (os.exists_in w ("./" +:+ f)).

(** The [FileMissing] diagnostics of a list of files, in order. *)
Definition missing_diags (w : World) (fs : list string) : list string :=
  map (fun f => getOpError f ERR_NOEXIST +:+ nl) (List.filter (missing w) fs).

Definition files_or_nil (l : option (list string)) : list string :=
  match l with
  | Some fs => fs
  | None => []
  end.

(** Every file of [existFiles] is in the working directory. *)
Definition existence_passes (op : Operation) (w : World) : bool :=
  forallb (fun f => os.exists_in w ("./" +:+ f)) (files_or_nil (existFiles op)).

(** *** Interface *)

Section InterfaceSpec.

Variable sv_checkInterface : string -> string -> option (list string) -> string.
Variable with_suffix_empty : string -> string.

Abbreviation refFile := (refFile_of with_suffix_empty).

(** A file has a reference artifact. *)
Definition has_reference (ref : option string) (w : World) (f : string) : bool :=
  os.exists_in w (refFile ref f).

(** The comparator's verdict on a file. *)
Definition compared (ref : option string) (mods : option (list string)) (f : string)
  : string :=
  sv_checkInterface (refFile ref f) ("./" +:+ f) mods.

(** A file that has a reference artifact and does not match it. *)
Definition mismatch (ref : option string) (mods : option (list string)) (w : World)
    (f : string) : bool :=
  has_reference ref w f && nonempty (compared ref mods f).

(** The [InterfaceMismatch] diagnostic of a file. *)
Definition mismatch_diag (ref : option string) (mods : option (list string))
    (f : string) : string :=
  (getOpError f ERR_BADINTERF +:+ nl) +:+ compared ref mods f +:+ nl.

Definition mismatch_diags (ref : option string) (mods : option (list string))
    (w : World) (fs : list string) : list string :=
  map (mismatch_diag ref mods) (List.filter (mismatch ref mods w) fs).

(** What the loop adds to [toPrint] for one file. *)
Definition report_line (ref : option string) (mods : option (list string))
    (w : World) (f : string) : string :=
  if has_reference ref w f then
    if nonempty (compared ref mods f)
    then getOpError f ERR_BADINTERF +:+ nl
    else f +:+ ": interface matches reference, good"
  else "".

Definition report (ref : option string) (mods : option (list string))
    (w : World) (fs : list string) : string :=
  cat (map (report_line ref mods w) fs).

(** What [checkInterface] prints. *)
Definition interface_prints (op : Operation) (w : World) : list string :=
  let toPrint :=
    report (refFilePath op) (specificModules op) w (files_or_nil (existFiles op)) in
  if nonempty toPrint && negb (silent op) then [Str.strip toPrint] else [].

End InterfaceSpec.

(** *** Compilation *)

(** The [CompileFailed] diagnostic: the header line and the transcript. *)
Definition compile_diag (fileList : list string) (oldDir output : string) : string :=
  (getOpError (removeOldDir fileList oldDir) ERR_NOCOMPILE +:+ nl) +:+ output +:+ nl.

Definition handler_prints (quiet : bool) (fileList : list string) (oldDir : string)
  : list string :=
  if quiet then []
  else [Str.strip (getOpError (removeOldDir fileList oldDir) ERR_NOCOMPILE +:+ nl)].

Definition outcome_result (stop : bool) : result unit :=
  if stop then Raise KeyboardInterrupt else Ok tt.

Definition exited0 (r : ProcResult) : bool :=
  match r with
  | Exited0 _ => true
  | _ => false
  end.

(** The world [checkCompilation] leaves: the temporary directory and
    what is below it are gone, the lines printed and the commands run
    are added, and the current directory is the one [os.getcwd]
    returned, resolved from the temporary directory. *)
Definition after_compile (w : World) (out : list string) (cmds : list (list string))
  : World :=
  let d := os.mkdtemp_name w in
  let keep (p : string) := negb (os.below d p) in
  mkWorld (os.resolve (os.resolve (cwd w) d) (cwd w))
    (filter (fun kv => keep kv.1 = true) (files w))
    ((filter (fun p => keep p = true) ({[ d ]} ∪ dirs w)) ∖ {[ d ]})
    (stdout w ++ out) (calls w ++ cmds).

Section CompilationSpec.

Variable run_process : list string -> ProcResult.

(** The outcome of the elaboration passes: the diagnostics of the
    modules that fail, the commands run, and whether a pass was
    interrupted (no later pass runs then). *)
Fixpoint modules_outcome (fileList : list string) (oldDir : string)
    (mods : list string) : list string * list (list string) * bool :=
  match mods with
  | [] => ([], [], false)
  | m :: mods' =>
      match run_process (vcsModuleCmd m) with
      | Exited0 _ =>
          let '(texts, cmds, stop) := modules_outcome fileList oldDir mods' in
          (texts, vcsModuleCmd m :: cmds, stop)
      | ExitedNonZero out =>
          let '(texts, cmds, stop) := modules_outcome fileList oldDir mods' in
          (compile_diag fileList oldDir out :: texts, vcsModuleCmd m :: cmds, stop)
      | Interrupted => ([], [vcsModuleCmd m], true)
      end
  end.

(** The outcome of the body of [checkCompilation]. *)
Definition compile_outcome (mods : option (list string)) (fileList : list string)
    (oldDir : string) : list string * list (list string) * bool :=
  match mods with
  | Some mods =>
      match run_process (vloganCmd fileList) with
      | Exited0 _ =>
          let '(texts, cmds, stop) := modules_outcome fileList oldDir mods in
          (texts, vloganCmd fileList :: cmds, stop)
      | ExitedNonZero out =>
          ([compile_diag fileList oldDir out], [vloganCmd fileList], false)
      | Interrupted => ([], [vloganCmd fileList], true)
      end
  | None =>
      match run_process (vcsCmd fileList) with
      | Exited0 _ => ([], [vcsCmd fileList], false)
      | ExitedNonZero out =>
          ([compile_diag fileList oldDir out], [vcsCmd fileList], false)
      | Interrupted => ([], [vcsCmd fileList], true)
      end
  end.

(** The diagnostics of the modules whose elaboration fails, in order. *)
Definition module_diags (fileList : list string) (oldDir : string)
    (mods : list string) : list string :=
  flat_map (fun m =>
              match run_process (vcsModuleCmd m) with
              | ExitedNonZero out => [compile_diag fileList oldDir out]
              | _ => []
              end) mods.

Definition module_fails (m : string) : bool :=
  match run_process (vcsModuleCmd m) with
  | ExitedNonZero _ => true
  | _ => false
  end.

End CompilationSpec.

(** *** The whole of [do] *)

Definition do_result (op' : Operation) (texts : list string) (e : option exn)
  : result string :=
  match e with
  | Some e => Raise e
  | None =>
      match texts with
      | [] => Ok ""
      | _ => Ok (err op' +:+ nl)
      end
  end.

Section DoSpec.

Variable sv_checkInterface : string -> string -> option (list string) -> string.
Variable run_process : list string -> ProcResult.
Variable with_suffix_empty : string -> string.

(** The diagnostics of the interface stage when [do] runs it. *)
Definition interface_diags (op : Operation) (w : World) : list string :=
  match refFilePath op, number op with
  | Some _, Some n =>
      if (n <? 0)%Z then []
      else mismatch_diags sv_checkInterface with_suffix_empty (refFilePath op)
             (specificModules op) w (files_or_nil (existFiles op))
  | _, _ => []
  end.

(** The interface stage cannot compare [None] with [0]. *)
Definition interface_raises (op : Operation) : bool :=
  not_None (refFilePath op) && negb (not_None (number op)).

(** The outcome of the compilation stage when [do] runs it. *)
Definition compilation_outcome (op : Operation) (w : World)
  : list string * list (list string) * bool :=
  match compileFiles op with
  | Some cfs =>
      if skipCompile op then ([], [], false)
      else compile_outcome run_process (specificModules op)
             (compile_fileList (cwd w) cfs) (cwd w)
  | None => ([], [], false)
  end.

(** [do] in closed form: the diagnostics it records, the commands it
    runs and the exception it raises, if any. *)
Definition do_outcome (op : Operation) (w : World)
  : list string * list (list string) * option exn :=
  match missing_diags w (files_or_nil (existFiles op)) with
  | (_ :: _) as E => (E, [], None)
  | [] =>
      if interface_raises op then ([], [], Some TypeError)
      else
        match interface_diags op w with
        | (_ :: _) as I => (I, [], None)
        | [] =>
            let '(texts, cmds, stop) := compilation_outcome op w in
            (texts, cmds, if stop then Some KeyboardInterrupt else None)
        end
  end.

(** The interface stage, when a reference path is configured, can run
    and finds no mismatch. *)
Definition interface_passes (op : Operation) (w : World) : bool :=
  match refFilePath op with
  | None => true
  | Some _ =>
      match number op with
      | None => false
      | Some n =>
          (n <? 0)%Z ||
          negb (existsb (mismatch sv_checkInterface with_suffix_empty (refFilePath op)
                           (specificModules op) w)
                  (files_or_nil (existFiles op)))
      end
  end.

(** Every command of the compilation stage, when the stage runs, exits
    with 0. *)
Definition compilation_passes (op : Operation) (w : World) : bool :=
  match compileFiles op with
  | None => true
  | Some cfs =>
      skipCompile op ||
      let fileList := compile_fileList (cwd w) cfs in
      match specificModules op with
      | Some mods =>
          exited0 (run_process (vloganCmd fileList)) &&
          forallb (fun m => exited0 (run_process (vcsModuleCmd m))) mods
      | None => exited0 (run_process (vcsCmd fileList))
      end
  end.

End DoSpec.

(** *** A concrete setting for the examples *)

(** A directory that holds [a.sv] and [b.sv]. *)
Definition plain_dir : list string := ["a.sv"; "b.sv"].

(** The part of a file name before its extension, for a name with no
    directory part: what [Path(f).with_suffix('')] leaves. *)
Fixpoint cut_extension (s : string) : option string :=
  match s with
  | EmptyString => None
  | String c r =>
      match cut_extension r with
      | Some p => Some (String c p)
      | None => if Ascii.eqb c "." && nonempty r then Some "" else None
      end
  end.

Definition stem (f : string) : string :=
  match f with
  | String "."%char _ => f
  | _ => match cut_extension f with
         | Some p => p
         | None => f
         end
  end.

(** A student directory [/handin/s] that holds [b.sv] and [c.sv], and
    the reference files of [a.sv], [b.sv] and [c.sv] under [/ref]. *)
Definition student_world : World :=
  mkWorld "/handin/s"
    (list_to_map [("/handin/s/b.sv", "module b"); ("/handin/s/c.sv", "module c");
                  ("/ref/a_ref.sv", ""); ("/ref/b_ref.sv", ""); ("/ref/c_ref.sv", "")])
    {[ "/handin"; "/handin/s"; "/ref" ]} [] [].

(** The same with [a.sv] handed in too. *)
Definition full_world : World :=
  set_files (<[ "/handin/s/a.sv" := "module a" ]> (files student_world)) student_world.

(** A student directory with an [errors.log] left by an earlier run,
    seen from the handin directory. *)
Definition handin_world : World :=
  set_cwd "/handin"
    (set_files (<[ "/handin/s/errors.log" := "old report" ]> (files student_world))
       student_world).

(** A comparator that accepts [c.sv] only. *)
Definition picky_compare (ref test : string) (mods : option (list string)) : string :=
  if String.eqb test "./c.sv" then "" else "ports differ".

(** A comparator that accepts everything. *)
Definition lenient_compare (ref test : string) (mods : option (list string)) : string := "".

(** A tool chain in which every command succeeds. *)
Definition tools_ok (cmd : list string) : ProcResult := Exited0 "".

(** A tool chain in which the analysis pass fails. *)
Definition tools_no_analysis (cmd : list string) : ProcResult :=
  match cmd with
  | "vlogan" :: _ => ExitedNonZero "Error-[SE] Syntax error"
  | _ => Exited0 ""
  end.

(** A tool chain in which the analysis passes and the elaboration of
    every module but [top] fails. *)
Definition tools_no_elaboration (cmd : list string) : ProcResult :=
  match cmd with
  | ["vcs"; _; _; _; m] =>
      if String.eqb m "top" then Exited0 ""
      else ExitedNonZero ("Error-[URMI] " +:+ m)
  | _ => Exited0 ""
  end.

(** A tool chain interrupted during the whole-file compilation. *)
Definition tools_interrupted (cmd : list string) : ProcResult :=
  match cmd with
  | "vcs" :: _ => Interrupted
  | _ => Exited0 ""
  end.

Definition problem1 : Operation :=
  mkOperation (Some 1) (Some ["a.sv"; "b.sv"]) (Some ["a.sv"; "b.sv"]) None None
    None false "" false false true.

Definition problem2 : Operation :=
  mkOperation (Some 2) (Some ["b.sv"; "c.sv"]) (Some ["b.sv"; "c.sv"]) None None
    None false "" false false true.

Definition problem3 : Operation :=
  mkOperation (Some 3) (Some ["a.sv"; "b.sv"; "c.sv"]) None None None
    (Some "/ref") false "" false true false.

Definition lab_problem : Operation :=
  mkOperation (Some (-1)) (Some ["a.sv"; "b.sv"; "c.sv"]) None None None
    (Some "/ref") false "" false true false.

Definition modules_problem : Operation :=
  mkOperation (Some 4) (Some ["b.sv"]) (Some ["b.sv"; "c.sv"]) None
    (Some ["alu"; "top"; "regs"]) None false "" false false true.

(** *** The keys of a record *)

(** The first of the five keys, in the order [parseProblem] reads them,
    that a record lacks. *)
Definition absent_key (p : Problem) : option string :=
  match p_number p, p_files p, p_compileFiles p, p_testFiles p,
        p_specificModules p with
  | None, _, _, _, _ => Some "number"
  | _, None, _, _, _ => Some "files"
  | _, _, None, _, _ => Some "compileFiles"
  | _, _, _, None, _ => Some "testFiles"
  | _, _, _, _, None => Some "specificModules"
  | _, _, _, _, _ => None
  end.

(** *** Plain text *)

(** The character every formatting code starts with. *)
Definition ESC_char : ascii := ascii_of_nat 27.

(** A text with no escape character in it. *)
Definition plain (s : string) : Prop :=
  Str.contains_char ESC_char s = false.

(** The eight formatting codes of [bcolors]. *)
Inductive code : Type :=
  | cHEADER | cOKBLUE | cOKGREEN | cWARNING | cFAIL | cENDC | cBOLD | cUNDERLINE.

Definition code_str (k : code) : string :=
  match k with
  | cHEADER => bcolors.HEADER
  | cOKBLUE => bcolors.OKBLUE
  | cOKGREEN => bcolors.OKGREEN
  | cWARNING => bcolors.WARNING
  | cFAIL => bcolors.FAIL
  | cENDC => bcolors.ENDC
  | cBOLD => bcolors.BOLD
  | cUNDERLINE => bcolors.UNDERLINE
  end.

Definition code_eqb (k o : code) : bool :=
  match k, o with
  | cHEADER, cHEADER | cOKBLUE, cOKBLUE | cOKGREEN, cOKGREEN
  | cWARNING, cWARNING | cFAIL, cFAIL | cENDC, cENDC | cBOLD, cBOLD
  | cUNDERLINE, cUNDERLINE => true
  | _, _ => false
  end.

(** A formatted text: pieces of text and formatting codes. *)
Inductive piece : Type :=
  | Text (s : string)
  | Code (k : code).

Fixpoint render (ps : list piece) : string :=
  match ps with
  | [] => ""
  | Text s :: ps' => s +:+ render ps'
  | Code k :: ps' => code_str k +:+ render ps'
  end.

(** The text of the pieces, without the codes. *)
Fixpoint texts (ps : list piece) : string :=
  match ps with
  | [] => ""
  | Text s :: ps' => s +:+ texts ps'
  | Code _ :: ps' => texts ps'
  end.

Definition plain_piece (p : piece) : Prop :=
  match p with
  | Text s => plain s
  | Code _ => True
  end.

(** The pieces without the code [k]. *)
Definition without (k : code) (ps : list piece) : list piece :=
  List.filter (fun p => match p with Text _ => true | Code o => negb (code_eqb k o) end) ps.

(** *** Runs over an array of operations *)

(** What an operation adds to the report of a run. *)
Definition op_report (op : Operation) : string :=
  if hasErrors op then problem_header op +:+ err op +:+ nl else "".

(** The files the operations name. *)
Definition files_named (ops : list Operation) : gset string :=
  ⋃ (map (fun op => files_of (existFiles op) ∪ files_of (compileFiles op)) ops).

(** *** The array of operations *)

(** A record with all five keys. *)
Definition complete (p : Problem) : Prop :=
  is_Some (p_number p) /\ is_Some (p_files p) /\ is_Some (p_compileFiles p) /\
  is_Some (p_testFiles p) /\ is_Some (p_specificModules p).

(** A record whose number is an integer. *)
Definition numbered (p : Problem) : Prop :=
  exists n, p_number p = Some (Some n).

(** Two operations whose numbers are integers in ascending order. *)
Definition number_le (a b : Operation) : Prop :=
  exists x y, number a = Some x /\ number b = Some y /\ (x <= y)%Z.

(** The records of a given number, in the order of the list. *)
Definition records_of (n : Z) (config : list Problem) : list Problem :=
  List.filter (fun p => bool_decide (p_number p = Some (Some n))) config.

(** The operations of a given number, in the order of the list. *)
Definition ops_of (n : Z) (ops : list Operation) : list Operation :=
  List.filter (fun op => bool_decide (number op = Some n)) ops.

(** Three records of a configuration, out of order and two of them
    with the same number. *)
Definition record_b : Problem :=
  mkProblem (Some (Some 2)) (Some (Some ["b.sv"])) (Some (Some ["b.sv"]))
    (Some None) (Some None).

Definition record_a : Problem :=
  mkProblem (Some (Some 1)) (Some (Some ["*.sv"])) (Some None) (Some None) (Some None).

Definition record_c : Problem :=
  mkProblem (Some (Some 2)) (Some (Some ["c.sv"])) (Some None) (Some None) (Some None).

(** A record whose number is [null], and one without a number. *)
Definition record_null : Problem :=
  mkProblem (Some None) (Some (Some ["a.sv"])) (Some None) (Some None) (Some None).

Definition record_unnumbered : Problem :=
  mkProblem None (Some (Some ["a.sv"])) (Some None) (Some None) (Some None).

(** *** The permissions of the handin directories *)

Definition refused (r : ProcResult) : bool :=
  match r with
  | ExitedNonZero _ => true
  | _ => false
  end.

Definition interrupted (r : ProcResult) : bool :=
  match r with
  | Interrupted => true
  | _ => false
  end.

(** The commands of [openStudentPerms] and [closeStudentPerms]. *)
Definition open_default (path : string) : list string :=
  ["fs"; "sa"; path; "-clear"; "-acl"] ++ defaultPerms.
Definition open_id (studentID path : string) : list string :=
  ["fs"; "sa"; path; studentID; "write"].
Definition open_mail (studentID path : string) : list string :=
  ["fs"; "sa"; path; studentID +:+ "@andrew.cmu.edu"; "write"].
Definition close_id (studentID path : string) : list string :=
  ["fs"; "sa"; path; studentID; "read"].
Definition close_mail (studentID path : string) : list string :=
  ["fs"; "sa"; path; studentID +:+ "@andrew.cmu.edu"; "read"].

Section AdminSpec.

Variable run_process : list string -> ProcResult.

(** The default permissions were set and both grants were refused. *)
Definition open_refused (studentID path : string) : bool :=
  exited0 (run_process (open_default path)) &&
  refused (run_process (open_id studentID path)) &&
  refused (run_process (open_mail studentID path)).

(** The commands [openStudentPerms] runs, in order. *)
Definition open_cmds (studentID path : string) : list (list string) :=
  open_default path ::
  (if exited0 (run_process (open_default path))
   then open_id studentID path ::
        (if interrupted (run_process (open_id studentID path)) then []
         else [open_mail studentID path])
   else []).

(** What [openStudentPerms] returns or raises. *)
Definition open_result (studentID path : string) (dryrun : bool)
  : result (option string) :=
  if dryrun then Ok None
  else
    match run_process (open_default path) with
    | Interrupted => Raise KeyboardInterrupt
    | ExitedNonZero _ => Ok None
    | Exited0 _ =>
        if interrupted (run_process (open_id studentID path)) ||
           interrupted (run_process (open_mail studentID path))
        then Raise KeyboardInterrupt
        else Ok (if refused (run_process (open_id studentID path)) &&
                    refused (run_process (open_mail studentID path))
                 then Some studentID else None)
    end.

(** The line printed when the default permissions cannot be set. *)
Definition unable_line (failure_text : list string -> string) (path : string) : string :=
  "Unable to set default perms for " +:+ path +:+ ": " +:+
  failure_text (open_default path).

(** The lines [openStudentPerms] prints. *)
Definition open_lines (failure_text : list string -> string)
    (studentID path : string) (dryrun verbose : bool) : list string :=
  let say (cmd : list string) := if verbose then [Str.join " " cmd] else [] in
  say (open_default path) ++
  (if dryrun then say (open_id studentID path) ++ say (open_mail studentID path)
   else
     match run_process (open_default path) with
     | ExitedNonZero _ => [unable_line failure_text path]
     | Interrupted => []
     | Exited0 _ =>
         say (open_id studentID path) ++
         (if interrupted (run_process (open_id studentID path)) then []
          else say (open_mail studentID path))
     end).

(** Both withdrawals were refused. *)
Definition close_refused (studentID path : string) : bool :=
  refused (run_process (close_id studentID path)) &&
  refused (run_process (close_mail studentID path)).

(** The commands [closeStudentPerms] runs, in order. *)
Definition close_cmds (studentID path : string) : list (list string) :=
  close_id studentID path ::
  (if refused (run_process (close_id studentID path))
   then [close_mail studentID path] else []).

End AdminSpec.

(** The lines of [printBadIDs]. *)
Definition bad_lines (idList : list string) : list string :=
  (nl +:+ bcolors.FAIL +:+ "Error:" +:+ bcolors.ENDC +:+ " unable to set perms for") ::
  map (fun id => tab +:+ id) idList ++
  ["Please check that ID is correct, and that student is in the ECE system."].

(** The report at the end of a run over the students: nothing when no
    student is listed. *)
Definition bad_report (idList : list string) : list string :=
  match idList with
  | [] => []
  | _ => bad_lines idList
  end.

(** A tool in which the grant to the bare ID is refused for every
    student and the grant to the mail form for [bob] only. *)
Definition fs_refuses_bob (cmd : list string) : ProcResult :=
  match cmd with
  | ["fs"; "sa"; _; who; "write"] =>
      if String.eqb who "bob@andrew.cmu.edu" || negb (Str.contains_char "@"%char who)
      then ExitedNonZero "" else Exited0 ""
  | ["fs"; "sa"; _; who; "read"] =>
      if String.prefix "bob" who then ExitedNonZero "" else Exited0 ""
  | _ => Exited0 ""
  end.

Definition no_text (cmd : list string) : string := "".

(** A course directory with the handin directory of [alice]. *)
Definition course_world : World :=
  mkWorld "/course" ∅ {[ "/course"; "/course/handin"; "/course/handin/alice" ]} [] [].

(** The handin directory of a student. *)
Definition student_path (basePath student : string) : string :=
  basePath +:+ "/" +:+ PyStr.lower student.

(** The students [createStudentDirs] could not open the directory for. *)
Definition open_bad (run_process : list string -> ProcResult) (basePath : string)
    (dryrun : bool) (ids : list string) : list string :=
  List.filter
    (fun s => negb dryrun && open_refused run_process s (student_path basePath s)) ids.

(** The directories [closeStudentDirs] could not close. *)
Definition close_bad (run_process : list string -> ProcResult) (basePath : string)
    (dryrun : bool) (dirs : list string) : list string :=
  List.filter
    (fun d => negb dryrun && close_refused run_process d (basePath +:+ "/" +:+ d)) dirs.

Definition already_line (student : string) : string :=
  tab +:+ "Handin dir already exists for " +:+ PyStr.lower student +:+ ", skipping".

Definition close_line (basePath studentDir : string) : string :=
  "Error with trying to remove permissions for " +:+ basePath +:+ "/" +:+ studentDir.

(** The file system after the turn of one student in
    [createStudentDirs]: the handin directory is there. *)
Definition made_dir (basePath : string) (dryrun : bool) (w : World) (student : string)
  : World :=
  if negb dryrun && negb (os.exists_in w (student_path basePath student))
  then set_dirs ({[ os.resolve (cwd w) (student_path basePath student) ]} ∪ dirs w) w
  else w.

(** The lines of the turn of one student in [createStudentDirs], and of
    the whole loop from the world [w]. *)
Definition student_lines (run_process : list string -> ProcResult)
    (failure_text : list string -> string) (basePath : string) (dryrun verbose : bool)
    (w : World) (student : string) : list string :=
  (if negb dryrun && negb (os.exists_in w (student_path basePath student)) then []
   else if verbose then [already_line student] else []) ++
  open_lines run_process failure_text student (student_path basePath student)
    dryrun false.

Fixpoint create_lines (run_process : list string -> ProcResult)
    (failure_text : list string -> string) (basePath : string) (dryrun verbose : bool)
    (w : World) (ids : list string) : list string :=
  match ids with
  | [] => []
  | student :: ids' =>
      student_lines run_process failure_text basePath dryrun verbose w student ++
      create_lines run_process failure_text basePath dryrun verbose
        (made_dir basePath dryrun w student) ids'
  end.

(** A tool that cannot set the default permissions of any directory. *)
Definition fs_no_defaults (cmd : list string) : ProcResult :=
  match cmd with
  | "fs" :: "sa" :: _ :: "-clear" :: _ => ExitedNonZero "fs: no such directory"
  | _ => Exited0 ""
  end.

Definition exit_status_1 (cmd : list string) : string :=
  "Command returned non-zero exit status 1.".

(** *** The permissions of a student *)

(** A line of the listing that names the student. *)
Definition names_student (studentID perm : string) : bool :=
  PyStr.startswith (Str.strip perm) studentID.

(** A tool whose listing gives [bob] write access and [bobby] none, and
    which fails on any directory but [/course/handin/bob]. *)
Definition fs_lists (cmd : list string) : ProcResult :=
  match cmd with
  | ["fs"; "la"; d] =>
      if String.eqb d "/course/handin/bob"
      then Exited0 ("Access list for . is" +:+ nl +:+ "Normal rights:" +:+ nl +:+
                    "  bobby rl" +:+ nl +:+ "  bob rlidwk" +:+ nl)
      else ExitedNonZero "fs: File does not exist"
  | _ => Exited0 ""
  end.

(** *** The configuration search *)

(** The names [os.listdir] gives for a directory. *)
Definition listing (w : World) (d : string) : list string :=
  omap (child_of (os.resolve (cwd w) d)) (elements (dom (files w) ∪ dirs w)).

(** A name that is the configuration file of [hwNum], but for the case
    of its letters. *)
Definition is_cfg (hwNum f : string) : bool :=
  String.eqb (PyStr.lower f) (PyStr.lower (hwNum +:+ "_cfg.json")).

(** What [checkStudent] returned for one student, given the array the
    configuration was parsed into. *)
Definition student_outcome (hwNum : string) (opArray : list Operation)
    (student : string) (out : bool * string) : Prop :=
  exists ops',
    map clearErrors ops' = map clearErrors opArray /\
    out.1 = existsb hasErrors ops' /\
    out.2 = getOutputHeader student hwNum +:+ cat (map op_report ops').

(** The students of a list checked one after the other: each run of
    [checkStudent] starts in the world and with the operations the
    previous one left, and returns its pair. *)
Inductive checked
    (sv_checkInterface : string -> string -> option (list string) -> string)
    (run_process : list string -> ProcResult) (with_suffix_empty : string -> string)
    (hwNum : string)
  : list string -> list Operation -> World -> list (bool * string) -> World -> Prop :=
  | checked_nil (ops : list Operation) (w : World) :
      checked sv_checkInterface run_process with_suffix_empty hwNum [] ops w [] w
  | checked_cons (student : string) (students : list string)
      (ops ops' : list Operation) (w w1 w' : World)
      (out : bool * string) (outs : list (bool * string)) :
      checkStudent sv_checkInterface run_process with_suffix_empty student ops hwNum w =
        (w1, Ok (ops', out)) ->
      checked sv_checkInterface run_process with_suffix_empty hwNum students ops' w1
        outs w' ->
      checked sv_checkInterface run_process with_suffix_empty hwNum (student :: students)
        ops w (out :: outs) w'.

(** A configuration directory whose only file is named in capitals, one
    with a well-named file, and the parser of the examples. *)
Definition capitals_world : World :=
  mkWorld "/course" (list_to_map [("/course/cfg/HW1_CFG.JSON", "[]")])
    {[ "/course"; "/course/cfg"; "/course/handin" ]} [] [].

Definition config_world : World :=
  mkWorld "/course"
    (list_to_map [("/course/cfg/Hw1_cfg.json", "[1, 2]");
                  ("/course/cfg/notes.txt", "");
                  ("/course/handin/s/b.sv", "module b");
                  ("/course/handin/s/c.sv", "module c");
                  ("/course/handin/t/b.sv", "module b")])
    {[ "/course"; "/course/cfg"; "/course/handin"; "/course/handin/s";
       "/course/handin/t" ]} [] [].

Definition example_json (contents : string) : string + option (list Problem) :=
  if String.eqb contents "[1, 2]" then inr (Some [record_b; record_c])
  else if String.eqb contents "null" then inr None
  else inl "Expecting value".

(** * Properties *)

(** ** Strings *)

Lemma str_app_assoc (s1 s2 s3 : string) : (s1 +:+ s2) +:+ s3 = s1 +:+ (s2 +:+ s3).
Proof.
  induction s1 as [|c s1 IH]; [reflexivity|].
  change (String c ((s1 +:+ s2) +:+ s3) = String c (s1 +:+ (s2 +:+ s3))).
  now rewrite IH.
Qed.

Lemma str_app_nil_r (s : string) : s +:+ "" = s.
Proof.
  induction s as [|c s IH]; [reflexivity|].
  change (String c (s +:+ "") = String c s). now rewrite IH.
Qed.

Lemma str_app_nil_l (s : string) : "" +:+ s = s.
Proof. reflexivity. Qed.

(** ** Wildcard resolution *)

Section WildcardFacts.

Variable glob_glob : string -> list string.

Lemma exist_step_fold (fs : list string) (uw : bool) (tmp : gset string) :
  foldl (exist_step glob_glob) (uw, tmp) fs =
  (uw || existsb has_wildcard fs, tmp ∪ ⋃ (expansion glob_glob <$> fs)).
Proof.
  revert uw tmp.
  induction fs as [|f fs IH]; intros uw tmp; simpl.
  - rewrite orb_false_r. apply pair_equal_spec; split; [reflexivity | set_solver].
  - unfold exist_step at 2, expansion at 1. simpl.
    destruct (has_wildcard f) eqn:Hf; rewrite IH; simpl;
      apply pair_equal_spec; split; try set_solver.
    now rewrite orb_true_r.
Qed.

Lemma compile_step_fold (fs : list string) (tmp : gset string) :
  foldl (compile_step glob_glob) tmp fs = tmp ∪ ⋃ (expansion glob_glob <$> fs).
Proof.
  revert tmp.
  induction fs as [|f fs IH]; intros tmp; simpl.
  - set_solver.
  - unfold compile_step at 2, expansion at 1.
    destruct (has_wildcard f); rewrite IH; set_solver.
Qed.

Lemma checkWildcard_existFiles (op : Operation) :
  existFiles (checkWildcard glob_glob op) = resolved glob_glob <$> existFiles op.
Proof.
  unfold checkWildcard.
  destruct (existFiles op) as [fs|] eqn:He; simpl.
  - destruct (compileFiles op); simpl; rewrite exist_step_fold; simpl;
      unfold resolved; do 2 f_equal; set_solver.
  - destruct (compileFiles op); simpl; assumption.
Qed.

Lemma checkWildcard_compileFiles (op : Operation) :
  compileFiles (checkWildcard glob_glob op) = resolved glob_glob <$> compileFiles op.
Proof.
  unfold checkWildcard.
  destruct (existFiles op) as [fs|] eqn:He; simpl;
    destruct (compileFiles op) eqn:Hc; simpl; rewrite ?Hc; try reflexivity;
    rewrite compile_step_fold; unfold resolved; do 2 f_equal; set_solver.
Qed.

Lemma checkWildcard_useWildcard (op : Operation) :
  useWildcard (checkWildcard glob_glob op) =
  useWildcard op ||
  match existFiles op with
  | Some fs => existsb has_wildcard fs
  | None => false
  end.
Proof.
  unfold checkWildcard.
  destruct (existFiles op) as [fs|] eqn:He; simpl;
    destruct (compileFiles op); simpl; rewrite ?exist_step_fold; simpl;
    rewrite ?orb_false_r; reflexivity.
Qed.

(** [checkWildcard] in closed form. *)
Lemma checkWildcard_eq (op : Operation) :
  checkWildcard glob_glob op =
  mkOperation (number op) (resolved glob_glob <$> existFiles op)
    (resolved glob_glob <$> compileFiles op) (testFiles op) (specificModules op)
    (refFilePath op) (hasErrors op) (err op)
    (useWildcard op || any_wildcard (existFiles op))
    (skipCompile op) (silent op).
Proof.
  destruct op as [n ef cf tf sm rf he e uw sc sl].
  unfold checkWildcard, resolved.
  destruct ef as [fs|], cf as [cs|];
    unfold set_existFiles, set_compileFiles, set_useWildcard; simpl;
    rewrite ?exist_step_fold, ?compile_step_fold; simpl;
    rewrite ?(left_id_L ∅ (∪)), ?orb_false_r; reflexivity.
Qed.

Lemma sorted_list_perm (s : gset string) : sorted_list s ≡ₚ elements s.
Proof. apply merge_sort_Permutation. Qed.

Lemma sorted_list_elem (s : gset string) (x : string) : x ∈ sorted_list s <-> x ∈ s.
Proof. rewrite sorted_list_perm. apply elem_of_elements. Qed.

Lemma sorted_list_Sorted (s : gset string) : StronglySorted String.le (sorted_list s).
Proof. apply StronglySorted_merge_sort; apply _. Qed.

Lemma sorted_list_NoDup (s : gset string) : NoDup (sorted_list s).
Proof. rewrite sorted_list_perm. apply NoDup_elements. Qed.

Lemma sorted_list_to_set (s : gset string) : list_to_set (sorted_list s) = s.
Proof. rewrite sorted_list_perm. apply list_to_set_elements_L. Qed.

(** A list of literal names expands to itself. *)
Lemma expansion_literals (l : list string) :
  Forall (fun f => has_wildcard f = false) l ->
  ⋃ (expansion glob_glob <$> l) = list_to_set l.
Proof.
  induction 1 as [|f l Hf _ IH]; [reflexivity|].
  rewrite fmap_cons, union_list_cons, list_to_set_cons, IH.
  unfold expansion. now rewrite Hf.
Qed.

Lemma resolved_literals (s : gset string) :
  Forall (fun f => has_wildcard f = false) (sorted_list s) ->
  resolved glob_glob (sorted_list s) = sorted_list s.
Proof.
  intros H. unfold resolved. rewrite (expansion_literals _ H).
  now rewrite sorted_list_to_set.
Qed.

Section Clean.

(** No file name that [glob.glob] returns contains a [*]. *)
Hypothesis glob_clean :
  forall p x, x ∈ glob_glob p -> has_wildcard x = false.

Lemma resolved_clean (fs : list string) :
  Forall (fun f => has_wildcard f = false) (resolved glob_glob fs).
Proof.
  apply Forall_forall. intros x Hx.
  apply sorted_list_elem, elem_of_union_list in Hx as (X & HX & Hx).
  apply list_elem_of_fmap in HX as (f & -> & _).
  unfold expansion in Hx. destruct (has_wildcard f) eqn:Hf.
  - apply elem_of_list_to_set in Hx. eauto.
  - apply elem_of_singleton in Hx. now subst.
Qed.

Lemma resolved_idempotent (fs : list string) :
  resolved glob_glob (resolved glob_glob fs) = resolved glob_glob fs.
Proof. apply resolved_literals, resolved_clean. Qed.

End Clean.

End WildcardFacts.

(** C5 (as amended).  When no file name returned by [glob.glob] contains
    a [*], running [checkWildcard] on an already resolved descriptor
    changes nothing, and the [existFiles] and [compileFiles] it leaves
    are sorted, free of duplicates and free of wildcards. *)
Theorem checkWildcard_idempotent (glob_glob : string -> list string) (op : Operation) :
  (forall p x, x ∈ glob_glob p -> has_wildcard x = false) ->
  checkWildcard glob_glob (checkWildcard glob_glob op) = checkWildcard glob_glob op /\
  (forall l,
      existFiles (checkWildcard glob_glob op) = Some l \/
      compileFiles (checkWildcard glob_glob op) = Some l ->
      StronglySorted String.le l /\ NoDup l /\
      Forall (fun f => has_wildcard f = false) l).
Proof.
  intros Hclean. split.
  - rewrite !checkWildcard_eq. simpl.
    assert (any_wildcard (resolved glob_glob <$> existFiles op) = false) as ->.
    { destruct (existFiles op) as [fs|]; [|reflexivity]. simpl.
      apply not_true_is_false. intros (x & Hin & Hx)%existsb_exists.
      pose proof (resolved_clean glob_glob Hclean fs) as Hall.
      rewrite Forall_forall in Hall.
      apply list_elem_of_In, Hall in Hin. congruence. }
    rewrite orb_false_r. f_equal.
    + destruct (existFiles op); simpl; [|reflexivity].
      now rewrite resolved_idempotent.
    + destruct (compileFiles op); simpl; [|reflexivity].
      now rewrite resolved_idempotent.
  - intros l Hl.
    rewrite checkWildcard_existFiles, checkWildcard_compileFiles in Hl.
    assert (exists fs, l = resolved glob_glob fs) as [fs ->].
    { destruct Hl as [Hl|Hl];
        [destruct (existFiles op) as [fs|] | destruct (compileFiles op) as [fs|]];
        simpl in Hl; try discriminate; exists fs; congruence. }
    split; [apply sorted_list_Sorted|].
    split; [apply sorted_list_NoDup|].
    now apply resolved_clean.
Qed.

(** C6.  On a descriptor whose flag is still unset, as the constructor
    leaves it, [useWildcard] is true after [checkWildcard] exactly when
    some entry of [existFiles] contains a [*]; whatever [compileFiles]
    holds has no effect on the flag. *)
Theorem checkWildcard_flag (glob_glob : string -> list string) (op : Operation) :
  useWildcard op = false ->
  (useWildcard (checkWildcard glob_glob op) = true <->
   exists fs f, existFiles op = Some fs /\ f ∈ fs /\ has_wildcard f = true) /\
  (forall cf,
      useWildcard (checkWildcard glob_glob (set_compileFiles cf op)) =
      useWildcard (checkWildcard glob_glob op)).
Proof.
  intros Hfresh. split.
  - rewrite checkWildcard_useWildcard, Hfresh. simpl.
    destruct (existFiles op) as [fs|].
    + rewrite existsb_exists. split.
      * intros (f & Hin & Hf). exists fs, f. now rewrite list_elem_of_In.
      * intros (fs' & f & [= <-] & Hin & Hf). exists f. now rewrite <- list_elem_of_In.
    + split; [discriminate|]. intros (fs & f & [=] & _).
  - intros cf. now rewrite !checkWildcard_useWildcard.
Qed.

(** C3 (as amended).  A record that has all five keys is parsed without
    an error into a fresh descriptor, whatever keys hold [null]: each
    field takes the value of its key (the two file lists resolved), so a
    key that holds [null] leaves its field unset.  A record in which one
    of the five keys is absent raises [KeyError], for the first absent
    key in the order [parseProblem] reads them and whatever descriptor
    parses it. *)
Theorem parseProblem_null_fields (glob_glob : string -> list string)
    (ref : option string) (skip quiet : bool) (p : Problem)
    (n : option Z) (f c t m : option (list string)) :
  (p_number p = Some n ->
   p_files p = Some f ->
   p_compileFiles p = Some c ->
   p_testFiles p = Some t ->
   p_specificModules p = Some m ->
   exists op,
     parseProblem glob_glob (Operation_init ref skip quiet) p = Ok op /\
     number op = n /\
     existFiles op = resolved glob_glob <$> f /\
     compileFiles op = resolved glob_glob <$> c /\
     testFiles op = t /\
     specificModules op = m /\
     (n = None -> number op = None) /\
     (f = None -> existFiles op = None) /\
     (c = None -> compileFiles op = None) /\
     (t = None -> testFiles op = None) /\
     (m = None -> specificModules op = None)) /\
  (p_number p = None \/ p_files p = None \/ p_compileFiles p = None \/
   p_testFiles p = None \/ p_specificModules p = None ->
   exists key,
     absent_key p = Some key /\
     forall self : Operation,
       parseProblem glob_glob self p = Raise (KeyError key)).
Proof.
  split.
  - intros Hn Hf Hc Ht Hm. unfold parseProblem.
    rewrite Hn, Hf, Hc, Ht, Hm. simpl.
    eexists. split; [reflexivity|].
    rewrite checkWildcard_existFiles, checkWildcard_compileFiles.
    rewrite !checkWildcard_eq.
    destruct n, f, c, t, m; simpl;
      repeat split; try reflexivity; try discriminate.
  - intros Habsent. unfold absent_key, parseProblem, getitem.
    destruct (p_number p) as [v1|]; [|exists "number"; split; reflexivity].
    destruct (p_files p) as [v2|]; [|exists "files"; split; reflexivity].
    destruct (p_compileFiles p) as [v3|]; [|exists "compileFiles"; split; reflexivity].
    destruct (p_testFiles p) as [v4|]; [|exists "testFiles"; split; reflexivity].
    destruct (p_specificModules p) as [v5|];
      [|exists "specificModules"; split; reflexivity].
    destruct Habsent as [H|[H|[H|[H|H]]]]; discriminate H.
Qed.

Lemma plain_dir_clean (p x : string) :
  x ∈ fnmatch.glob_in plain_dir p -> has_wildcard x = false.
Proof.
  unfold fnmatch.glob_in. rewrite list_elem_of_In, filter_In.
  intros [Hx _]. simpl in Hx.
  destruct Hx as [<-|[<-|[]]]; reflexivity.
Qed.

Lemma checkWildcard_idempotent_witness :
  let g := fnmatch.glob_in plain_dir in
  let op := set_compileFiles (Some ["b.sv"; "*.sv"])
              (set_existFiles (Some ["*.sv"; "a.sv"]) (Operation_init None false false)) in
  (forall p x, x ∈ g p -> has_wildcard x = false) /\
  existFiles (checkWildcard g op) = Some ["a.sv"; "b.sv"] /\
  checkWildcard g (checkWildcard g op) = checkWildcard g op.
Proof.
  intros g op.
  split; [exact plain_dir_clean|].
  split; [vm_compute; reflexivity|].
  exact (proj1 (checkWildcard_idempotent g op plain_dir_clean)).
Defined.

(** A directory that holds a file named [a*] and a file named [ab]: the
    pattern [a[*]] matches the first only, and the name [a*], read as a
    pattern, matches both. *)
Lemma checkWildcard_not_idempotent :
  let g := fnmatch.glob_in ["a*"; "ab"] in
  let op := set_existFiles (Some ["a[*]"]) (Operation_init None false false) in
  existFiles (checkWildcard g op) = Some ["a*"] /\
  existFiles (checkWildcard g (checkWildcard g op)) = Some ["a*"; "ab"] /\
  checkWildcard g (checkWildcard g op) <> checkWildcard g op.
Proof.
  intros g op.
  assert (existFiles (checkWildcard g op) = Some ["a*"]) as H1
    by (vm_compute; reflexivity).
  assert (existFiles (checkWildcard g (checkWildcard g op)) = Some ["a*"; "ab"]) as H2
    by (vm_compute; reflexivity).
  split; [exact H1|]. split; [exact H2|].
  intros Heq. rewrite Heq, H1 in H2. discriminate.
Qed.

Lemma checkWildcard_flag_witness :
  let g := fnmatch.glob_in plain_dir in
  let op := set_compileFiles (Some ["*.sv"])
              (set_existFiles (Some ["a.sv"]) (Operation_init None false false)) in
  useWildcard op = false /\
  (useWildcard (checkWildcard g op) = true <->
   exists fs f, existFiles op = Some fs /\ f ∈ fs /\ has_wildcard f = true) /\
  useWildcard (checkWildcard g op) = false.
Proof.
  intros g op.
  split; [reflexivity|].
  split; [exact (proj1 (checkWildcard_flag g op eq_refl))|].
  vm_compute; reflexivity.
Defined.

Lemma parseProblem_null_fields_witness :
  let p := mkProblem (Some (Some 1)) (Some (Some ["a.sv"])) (Some None)
             (Some None) (Some None) in
  let q := mkProblem (Some (Some 1)) (Some (Some ["a.sv"])) (Some None)
             None None in
  (exists op,
     parseProblem (fnmatch.glob_in plain_dir) (Operation_init None false false) p = Ok op /\
     number op = Some 1 /\
     existFiles op = Some ["a.sv"] /\
     compileFiles op = None /\
     testFiles op = None /\
     specificModules op = None) /\
  (forall self : Operation,
     parseProblem (fnmatch.glob_in plain_dir) self q = Raise (KeyError "testFiles")).
Proof.
  intros p q. split.
  - destruct (proj1 (parseProblem_null_fields (fnmatch.glob_in plain_dir) None false false p
                       (Some 1) (Some ["a.sv"]) None None None)
                eq_refl eq_refl eq_refl eq_refl eq_refl)
      as (op & Hop & Hn & Hf & Hc & Ht & Hm & _).
    exists op. repeat split; assumption.
  - destruct (proj2 (parseProblem_null_fields (fnmatch.glob_in plain_dir) None false false q
                       None None None None None)
                (or_intror (or_intror (or_intror (or_introl eq_refl)))))
      as (key & Hkey & Hraise).
    injection Hkey as <-. exact Hraise.
Defined.

(** A record with no [number] key. *)
Lemma parseProblem_missing_key :
  let p := mkProblem None (Some (Some ["a.sv"])) (Some None) (Some None) (Some None) in
  parseProblem (fnmatch.glob_in plain_dir) (Operation_init None false false) p =
  Raise (KeyError "number").
Proof. reflexivity. Qed.

(** ** The stages of the pipeline *)

Lemma emit_nil (w : World) : emit [] w = w.
Proof. destruct w. unfold emit, set_stdout. simpl. now rewrite app_nil_r. Qed.

Lemma emit_emit (l1 l2 : list string) (w : World) :
  emit l2 (emit l1 w) = emit (l1 ++ l2) w.
Proof. unfold emit, set_stdout. simpl. now rewrite app_assoc. Qed.

Lemma logged_nil (w : World) : logged [] w = w.
Proof. destruct w. unfold logged, set_calls. simpl. now rewrite app_nil_r. Qed.

Lemma logged_logged (c1 c2 : list (list string)) (w : World) :
  logged c2 (logged c1 w) = logged (c1 ++ c2) w.
Proof. unfold logged, set_calls. simpl. now rewrite app_assoc. Qed.

Lemma logged_emit (c : list (list string)) (l : list string) (w : World) :
  logged c (emit l w) = emit l (logged c w).
Proof. reflexivity. Qed.

Lemma flag_errors_config (texts : list string) (op : Operation) :
  same_config op (flag_errors texts op).
Proof.
  revert op. induction texts as [|t ts IH]; intros op; simpl.
  - repeat split.
  - specialize (IH (flag_error t op)). unfold same_config in *. simpl in IH. exact IH.
Qed.

Lemma flag_errors_hasErrors (texts : list string) (op : Operation) :
  hasErrors (flag_errors texts op) =
  hasErrors op || match texts with [] => false | _ => true end.
Proof.
  destruct texts as [|t ts]; simpl; [now rewrite orb_false_r|].
  rewrite orb_true_r.
  assert (hasErrors (flag_error t op) = true) as Ho by reflexivity.
  revert Ho. generalize (flag_error t op).
  induction ts as [|t' ts IH]; intros o Ho; simpl; [exact Ho|].
  apply IH. reflexivity.
Qed.

Lemma flag_errors_nonempty (t : string) (ts : list string) (op : Operation) :
  hasErrors (flag_errors (t :: ts) op) = true.
Proof. rewrite flag_errors_hasErrors. apply orb_true_r. Qed.

Lemma flag_errors_err (texts : list string) (op : Operation) :
  err (flag_errors texts op) = err op +:+ cat texts.
Proof.
  revert op. induction texts as [|t ts IH]; intros op; simpl.
  - now rewrite str_app_nil_r.
  - rewrite IH. simpl. apply str_app_assoc.
Qed.

#[local] Arguments getOpError : simpl never.
#[local] Arguments os.exists_in : simpl never.
#[local] Arguments Str.strip : simpl never.
#[local] Arguments removeOldDir : simpl never.
#[local] Arguments os.mkdtemp_name : simpl never.
#[local] Arguments os.resolve : simpl never.

(** Unfold the monad down to the state function it denotes. *)
Ltac run_meth :=
  unfold bind, ret, raise, attr, update, sys, when, try_except_called,
    try_finally, os.path_exists, os.print, os.getcwd, os.chdir; simpl.

(** *** Existence *)

Lemma missing_diags_emit (l : list string) (w : World) (fs : list string) :
  missing_diags (emit l w) fs = missing_diags w fs.
Proof. reflexivity. Qed.

Lemma missing_diags_nil (w : World) (fs : list string) :
  missing_diags w fs = [] <-> forallb (fun f => os.exists_in w ("./" +:+ f)) fs = true.
Proof.
  unfold missing_diags, missing.
  induction fs as [|f fs IH]; simpl; [tauto|].
  destruct (os.exists_in w ("./" +:+ f)); simpl; [exact IH|].
  split; discriminate.
Qed.

Lemma checkExistence_loop (fs : list string) :
  forall (bad : string) (op : Operation) (w : World),
  exists out,
    for_each fs checkExistence_body bad (op, w) =
    ((flag_errors (missing_diags w fs) op, emit out w),
     Ok (bad +:+ cat (missing_diags w fs))).
Proof.
  induction fs as [|f fs IH]; intros bad op w; simpl.
  - exists []. unfold ret. now rewrite emit_nil, str_app_nil_r.
  - unfold bind at 1. unfold checkExistence_body at 1.
    unfold missing_diags, missing. simpl. run_meth.
    destruct (os.exists_in w ("./" +:+ f)) eqn:Hex; simpl.
    + destruct (silent op) eqn:Hq; simpl.
      * apply IH.
      * destruct (useWildcard op); simpl.
        -- destruct (IH bad op (emit [tab +:+ f] w)) as [out Hout].
           exists ([tab +:+ f] ++ out). rewrite <- emit_emit. exact Hout.
        -- destruct (IH bad op (emit [f +:+ ": file exists, good"] w)) as [out Hout].
           exists ([f +:+ ": file exists, good"] ++ out). rewrite <- emit_emit. exact Hout.
    + destruct (IH (bad +:+ getOpError f ERR_NOEXIST +:+ nl)
                  (flag_error (getOpError f ERR_NOEXIST +:+ nl) op) w) as [out Hout].
      exists out. unfold cat. simpl.
      rewrite <- (str_app_assoc bad (getOpError f ERR_NOEXIST +:+ nl)). exact Hout.
Qed.

Lemma checkExistence_spec (op : Operation) (w : World) :
  exists out,
    checkExistence (op, w) =
    ((flag_errors (missing_diags w (files_or_nil (existFiles op))) op, emit out w),
     Ok tt).
Proof.
  assert (forall (pre : list string),
    exists out,
      (let* fs := attr existFiles in
       let* badFileMsg :=
         match fs with
         | Some fs => for_each fs checkExistence_body ""
         | None => ret ""
         end in
       when (negb (silent op))
         (when (useWildcard op)
            (sys (os.print ("If you do not wish to hand in these files, please " +:+
                            "move them away from your current directory"))) ;;
          when (nonempty badFileMsg) (sys (os.print (Str.strip badFileMsg)))))
        (op, emit pre w) =
      ((flag_errors (missing_diags w (files_or_nil (existFiles op))) op, emit out w),
       Ok tt)) as Hrest.
  { intros pre. unfold bind at 1. unfold attr at 1. simpl.
    destruct (existFiles op) as [fs|]; simpl.
    - unfold bind at 1.
      destruct (checkExistence_loop fs "" op (emit pre w)) as [out Hout].
      rewrite Hout, missing_diags_emit, emit_emit.
      destruct (silent op), (useWildcard op),
        (nonempty ("" +:+ cat (missing_diags w fs)));
        run_meth; eexists; unfold emit, set_stdout; simpl;
        rewrite <- ?app_assoc; reflexivity.
    - destruct (silent op), (useWildcard op); run_meth;
        eexists; unfold emit, set_stdout; simpl;
        rewrite <- ?app_assoc; reflexivity. }
  unfold checkExistence. unfold bind at 1, attr at 1. simpl.
  unfold bind at 1, attr at 1. simpl.
  unfold bind at 1.
  destruct (useWildcard op && negb (silent op)); simpl.
  - unfold sys at 1, os.print at 1. simpl.
    apply (Hrest ["Files that will be handed in:"]).
  - unfold ret at 1. specialize (Hrest []). rewrite emit_nil in Hrest. exact Hrest.
Qed.

(** *** Interface *)

Section InterfaceFacts.

Variable sv_checkInterface : string -> string -> option (list string) -> string.
Variable with_suffix_empty : string -> string.

Abbreviation refFile := (refFile_of with_suffix_empty).

Lemma checkInterface_loop (fs : list string) :
  forall (toPrint : string) (op : Operation) (w : World),
    for_each fs (checkInterface_body sv_checkInterface with_suffix_empty) toPrint (op, w) =
    ((flag_errors
        (mismatch_diags sv_checkInterface with_suffix_empty (refFilePath op)
           (specificModules op) w fs) op, w),
     Ok (toPrint +:+
         report sv_checkInterface with_suffix_empty (refFilePath op)
           (specificModules op) w fs)).
Proof.
  induction fs as [|f fs IH]; intros toPrint op w; simpl.
  - unfold ret, report. simpl. now rewrite str_app_nil_r.
  - unfold bind at 1. unfold checkInterface_body at 1.
    unfold mismatch_diags, report, report_line, mismatch, has_reference, compared.
    simpl. run_meth.
    destruct (os.exists_in w (refFile (refFilePath op) f)) eqn:Hex; simpl.
    + destruct (nonempty (sv_checkInterface (refFile (refFilePath op) f)
                            ("./" +:+ f) (specificModules op))) eqn:Hne; simpl.
      * rewrite IH. simpl.
        rewrite <- (str_app_assoc toPrint (getOpError f ERR_BADINTERF +:+ nl)).
        reflexivity.
      * rewrite IH.
        rewrite <- (str_app_assoc toPrint (f +:+ ": interface matches reference, good")).
        reflexivity.
    + rewrite IH. reflexivity.
Qed.

Lemma checkInterface_spec (op : Operation) (w : World) :
  checkInterface sv_checkInterface with_suffix_empty (op, w) =
  match number op with
  | None => ((op, w), Raise TypeError)
  | Some n =>
      if (n <? 0)%Z then ((op, w), Ok (Some ""))
      else
        ((flag_errors
            (mismatch_diags sv_checkInterface with_suffix_empty (refFilePath op)
               (specificModules op) w (files_or_nil (existFiles op))) op,
          emit (interface_prints sv_checkInterface with_suffix_empty op w) w),
         Ok None)
  end.
Proof.
  unfold checkInterface, interface_prints. unfold bind at 1, attr at 1. simpl.
  destruct (number op) as [n|]; [|reflexivity].
  destruct (n <? 0)%Z; [reflexivity|].
  unfold bind at 1, attr at 1. simpl. unfold bind at 1.
  destruct (existFiles op) as [fs|]; simpl.
  - rewrite checkInterface_loop. simpl.
    pose proof (flag_errors_config
                  (mismatch_diags sv_checkInterface with_suffix_empty
                     (refFilePath op) (specificModules op) w fs) op)
      as (_ & _ & _ & _ & _ & _ & _ & _ & Hs).
    run_meth. rewrite Hs, !str_app_nil_l.
    destruct (nonempty (report sv_checkInterface with_suffix_empty (refFilePath op)
                          (specificModules op) w fs)
              && negb (silent op)); simpl; [reflexivity|].
    now rewrite emit_nil.
  - run_meth. destruct (silent op); simpl; now rewrite emit_nil.
Qed.

End InterfaceFacts.

(** *** Compilation *)

Section CompilationFacts.

Variable run_process : list string -> ProcResult.

Lemma compilationErrHandler_spec (fileList : list string) (oldDir output : string)
    (op : Operation) (w : World) :
  compilationErrHandler fileList oldDir output (op, w) =
  ((flag_error (compile_diag fileList oldDir output) op,
    emit (handler_prints (silent op) fileList oldDir) w),
   Ok tt).
Proof.
  unfold compilationErrHandler, handler_prints, compile_diag. run_meth.
  unfold flag_error, set_err, set_hasErrors. simpl.
  destruct (silent op); simpl; rewrite (str_app_assoc (err op));
    [now rewrite emit_nil | reflexivity].
Qed.

Lemma compile_modules_loop (fileList : list string) (oldDir : string)
    (mods : list string) :
  forall (op : Operation) (w : World),
  exists out,
    for_each mods (compile_module run_process fileList oldDir) tt (op, w) =
    let '(texts, cmds, stop) := modules_outcome run_process fileList oldDir mods in
    ((flag_errors texts op, emit out (logged cmds w)), outcome_result stop).
Proof.
  induction mods as [|m mods IH]; intros op w; simpl.
  - exists []. unfold ret. now rewrite logged_nil, emit_nil.
  - unfold bind at 1. unfold compile_module at 1.
    unfold try_except_called, bind, sys, check_output. simpl.
    destruct (run_process (vcsModuleCmd m)) as [o|o|]; simpl.
    + destruct (IH op (logged [vcsModuleCmd m] w)) as [out Hout].
      fold (logged [vcsModuleCmd m] w). rewrite Hout.
      destruct (modules_outcome run_process fileList oldDir mods) as [[texts cmds] stop].
      exists out. now rewrite logged_logged.
    + fold (logged [vcsModuleCmd m] w).
      rewrite compilationErrHandler_spec.
      destruct (IH (flag_error (compile_diag fileList oldDir o) op)
                  (emit (handler_prints (silent op) fileList oldDir)
                     (logged [vcsModuleCmd m] w))) as [out Hout].
      rewrite Hout.
      destruct (modules_outcome run_process fileList oldDir mods) as [[texts cmds] stop].
      exists (handler_prints (silent op) fileList oldDir ++ out). simpl.
      now rewrite logged_emit, logged_logged, emit_emit.
    + fold (logged [vcsModuleCmd m] w). exists []. now rewrite emit_nil.
Qed.

Lemma report_compiled_spec (fileList : list string) (oldDir : string)
    (op : Operation) (w : World) :
  exists out, report_compiled fileList oldDir (op, w) = ((op, emit out w), Ok tt).
Proof.
  unfold report_compiled. run_meth.
  destruct (negb (silent op) && negb (hasErrors op)); simpl.
  - eexists. reflexivity.
  - exists []. now rewrite emit_nil.
Qed.

Lemma checkCompilation_body_spec (fileList : list string) (oldDir : string)
    (op : Operation) (w : World) :
  exists out,
    checkCompilation_body run_process fileList oldDir (op, w) =
    let '(texts, cmds, stop) :=
      compile_outcome run_process (specificModules op) fileList oldDir in
    ((flag_errors texts op, emit out (logged cmds w)), outcome_result stop).
Proof.
  unfold checkCompilation_body, compile_outcome.
  unfold bind at 1, attr at 1. simpl.
  destruct (specificModules op) as [mods|].
  - unfold bind at 1. unfold try_except_called, bind, sys, check_output. simpl.
    fold (logged [vloganCmd fileList] w).
    destruct (run_process (vloganCmd fileList)) as [o|o|]; simpl.
    + destruct (compile_modules_loop fileList oldDir mods op
                  (logged [vloganCmd fileList] w)) as [out Hout].
      rewrite Hout.
      destruct (modules_outcome run_process fileList oldDir mods) as [[texts cmds] stop].
      rewrite logged_logged. simpl.
      destruct stop; simpl.
      * exists out. reflexivity.
      * destruct (report_compiled_spec fileList oldDir (flag_errors texts op)
                    (emit out (logged (vloganCmd fileList :: cmds) w)))
          as [out' Hout'].
        rewrite Hout'. exists (out ++ out'). now rewrite emit_emit.
    + rewrite compilationErrHandler_spec. simpl.
      eexists. reflexivity.
    + exists []. now rewrite emit_nil.
  - unfold bind at 1. unfold try_except_called, bind, sys, check_output. simpl.
    fold (logged [vcsCmd fileList] w).
    destruct (run_process (vcsCmd fileList)) as [o|o|]; simpl.
    + destruct (report_compiled_spec fileList oldDir op (logged [vcsCmd fileList] w))
        as [out Hout].
      rewrite Hout. exists out. reflexivity.
    + rewrite compilationErrHandler_spec.
      destruct (report_compiled_spec fileList oldDir
                  (flag_error (compile_diag fileList oldDir o) op)
                  (emit (handler_prints (silent op) fileList oldDir)
                     (logged [vcsCmd fileList] w))) as [out Hout].
      rewrite Hout. eexists. now rewrite emit_emit.
    + exists []. now rewrite emit_nil.
Qed.

End CompilationFacts.

Section CheckCompilationFacts.

Variable run_process : list string -> ProcResult.

Lemma checkCompilation_spec (op : Operation) (w : World) (fs : list string) :
  compileFiles op = Some fs ->
  exists out,
    checkCompilation run_process (op, w) =
    let '(texts, cmds, stop) :=
      compile_outcome run_process (specificModules op)
        (compile_fileList (cwd w) fs) (cwd w) in
    ((flag_errors texts op, after_compile w out cmds), outcome_result stop).
Proof.
  intros Hfs. unfold checkCompilation.
  unfold bind at 1, sys at 1, os.getcwd at 1. simpl.
  unfold bind at 1, attr at 1. simpl. rewrite Hfs.
  unfold bind at 1, sys at 1, os.mkdtemp at 1. simpl.
  unfold bind at 1, sys at 1, os.chdir at 1. simpl.
  unfold try_finally.
  match goal with
  | |- context [checkCompilation_body _ ?fl ?od (?o, ?w0)] =>
      destruct (checkCompilation_body_spec run_process fl od o w0) as [out Hout];
      rewrite Hout
  end.
  destruct (compile_outcome run_process (specificModules op)
              (compile_fileList (cwd w) fs) (cwd w)) as [[texts cmds] stop].
  exists out. unfold bind, sys, os.chdir, os.rmtree. simpl. reflexivity.
Qed.

End CheckCompilationFacts.

Lemma resolve_abs (d p : string) : os.isabs p = true -> os.resolve d p = p.
Proof. intros H. unfold os.resolve. now rewrite H. Qed.

Lemma after_compile_cwd (w : World) (out : list string) (cmds : list (list string)) :
  os.isabs (cwd w) = true -> cwd (after_compile w out cmds) = cwd w.
Proof. intros H. simpl. now apply resolve_abs. Qed.

Lemma after_compile_tempdir (w : World) (out : list string) (cmds : list (list string)) :
  (os.mkdtemp_name w ∉ dirs (after_compile w out cmds)) /\
  (dirs (after_compile w out cmds) ⊆ dirs w).
Proof.
  simpl. split; [set_solver|].
  intros p [Hp Hne]%elem_of_difference.
  apply elem_of_filter in Hp as [_ Hp]. set_solver.
Qed.

Lemma mkdtemp_name_fresh (w : World) : os.mkdtemp_name w ∉ dirs w.
Proof.
  unfold os.mkdtemp_name.
  pose proof (fresh_string_of_set_fresh (dirs w ∪ dom (files w)) "/tmp/tmp").
  set_solver.
Qed.

(** *** The whole of [do] *)

Lemma stage_spec (applies : Operation -> bool) (check : Meth unit) (rest : Meth string)
    (op : Operation) (w w1 : World) (texts : list string) (r : result unit) :
  check (op, w) = ((flag_errors texts op, w1), r) ->
  hasErrors op = false ->
  stage applies check rest (op, w) =
  if applies op then
    match r with
    | Raise e => ((flag_errors texts op, w1), Raise e)
    | Ok _ =>
        match texts with
        | [] => rest (op, w1)
        | _ => ((flag_errors texts op, w1), Ok (err (flag_errors texts op) +:+ nl))
        end
    end
  else rest (op, w).
Proof.
  intros Hcheck Hclear. unfold stage, bind, attr. simpl.
  destruct (applies op); [|reflexivity].
  rewrite Hcheck. destruct r as [[]|e]; [|reflexivity]. simpl.
  rewrite flag_errors_hasErrors, Hclear. simpl.
  destruct texts; reflexivity.
Qed.

Section DoFacts.

Variable sv_checkInterface : string -> string -> option (list string) -> string.
Variable run_process : list string -> ProcResult.
Variable with_suffix_empty : string -> string.

Abbreviation do' := (do sv_checkInterface run_process with_suffix_empty).

Lemma do_compile_stage (op : Operation) (w : World) :
  hasErrors op = false ->
  exists w',
    stage (fun self => negb (skipCompile self) && not_None (compileFiles self))
      (checkCompilation run_process) (ret "") (op, w) =
    (let '(texts, cmds, stop) := compilation_outcome run_process op w in
     ((flag_errors texts op, w'),
      do_result (flag_errors texts op) texts
        (if stop then Some KeyboardInterrupt else None))) /\
    calls w' = calls w ++ (compilation_outcome run_process op w).1.2 /\
    (os.isabs (cwd w) = true -> cwd w' = cwd w).
Proof.
  intros Hclear. unfold compilation_outcome.
  destruct (compileFiles op) as [cfs|] eqn:Hcf.
  - destruct (checkCompilation_spec run_process op w cfs Hcf) as [out Hout].
    destruct (compile_outcome run_process (specificModules op)
                (compile_fileList (cwd w) cfs) (cwd w)) as [[texts cmds] stop] eqn:Ho.
    rewrite (stage_spec _ _ _ _ _ _ _ _ Hout Hclear), Hcf.
    destruct (skipCompile op); simpl.
    + exists w. rewrite app_nil_r. auto.
    + exists (after_compile w out cmds).
      split; [|split; [reflexivity | apply after_compile_cwd]].
      destruct stop; simpl; [reflexivity|]. destruct texts; reflexivity.
  - exists w. unfold stage, bind, attr. simpl. rewrite Hcf, andb_false_r. simpl.
    rewrite app_nil_r. auto.
Qed.

Lemma do_spec (op : Operation) (w : World) :
  hasErrors op = false ->
  exists w',
    do' (op, w) =
    (let '(texts, cmds, e) := do_outcome sv_checkInterface run_process with_suffix_empty op w in
     ((flag_errors texts op, w'), do_result (flag_errors texts op) texts e)) /\
    calls w' = calls w ++ (do_outcome sv_checkInterface run_process with_suffix_empty op w).1.2 /\
    (os.isabs (cwd w) = true -> cwd w' = cwd w).
Proof.
  intros Hclear. unfold do, do_outcome.
  (* existence *)
  destruct (checkExistence_spec op w) as [out1 H1].
  rewrite (stage_spec _ _ _ _ _ _ _ _ H1 Hclear).
  assert (forall out,
    exists w',
      stage (fun self => not_None (refFilePath self))
        (checkInterface sv_checkInterface with_suffix_empty;; ret ())
        (stage (fun self => negb (skipCompile self) && not_None (compileFiles self))
           (checkCompilation run_process) (ret "")) (op, emit out w) =
      (let '(texts, cmds, e) :=
         if interface_raises op then ([], [], Some TypeError)
         else
           match interface_diags sv_checkInterface with_suffix_empty op w with
           | (_ :: _) as I => (I, [], None)
           | [] =>
               let '(texts, cmds, stop) := compilation_outcome run_process op w in
               (texts, cmds, if stop then Some KeyboardInterrupt else None)
           end in
       ((flag_errors texts op, w'), do_result (flag_errors texts op) texts e)) /\
      calls w' = calls w ++
        (if interface_raises op then ([], [], Some TypeError)
         else
           match interface_diags sv_checkInterface with_suffix_empty op w with
           | (_ :: _) as I => (I, [], None)
           | [] =>
               let '(texts, cmds, stop) := compilation_outcome run_process op w in
               (texts, cmds, if stop then Some KeyboardInterrupt else None)
           end).1.2 /\
      (os.isabs (cwd w) = true -> cwd w' = cwd w)) as Hrest.
  { intros out.
    assert (exists texts w1 r,
      (checkInterface sv_checkInterface with_suffix_empty;; ret ()) (op, emit out w) =
      ((flag_errors texts op, w1), r) /\
      calls w1 = calls w /\ cwd w1 = cwd w /\
      (not_None (refFilePath op) = true ->
       match number op with
       | None => r = Raise TypeError /\ texts = []
       | Some _ => r = Ok tt /\ texts = interface_diags sv_checkInterface with_suffix_empty op w /\
                   exists out', w1 = emit out' w
       end)) as (texts & w1 & r & Hi & Hcalls & Hcwd & Hr).
    { unfold bind. rewrite checkInterface_spec. unfold interface_diags.
      destruct (number op) as [n|].
      - destruct (n <? 0)%Z.
        + exists [], (emit out w), (Ok tt).
          split; [reflexivity|]. split; [reflexivity|]. split; [reflexivity|].
          intros Href. split; [reflexivity|]. split.
          * destruct (refFilePath op); reflexivity.
          * eexists; reflexivity.
        + eexists _, _, (Ok tt).
          split; [reflexivity|]. split; [reflexivity|]. split; [reflexivity|].
          intros Href. split; [reflexivity|]. split.
          * destruct (refFilePath op); [reflexivity | discriminate].
          * rewrite emit_emit. eexists; reflexivity.
      - exists [], (emit out w), (Raise TypeError).
        split; [reflexivity|]. split; [reflexivity|]. split; [reflexivity|].
        intros _. split; reflexivity. }
    rewrite (stage_spec _ _ _ _ _ _ _ _ Hi Hclear).
    unfold interface_raises.
    destruct (not_None (refFilePath op)) eqn:Href; simpl.
    - specialize (Hr eq_refl).
      destruct (number op) as [n|]; simpl.
      + destruct Hr as (-> & -> & out' & ->).
        destruct (interface_diags sv_checkInterface with_suffix_empty op w) as [|i I] eqn:HI.
        * simpl. destruct (do_compile_stage op (emit out' w) Hclear)
            as (w' & Hw' & Hc' & Hcwd').
          change (compilation_outcome run_process op (emit out' w))
            with (compilation_outcome run_process op w) in *.
          destruct (compilation_outcome run_process op w) as [[T C] stop].
          exists w'. split; [exact Hw' | split; [exact Hc' | exact Hcwd']].
        * exists (emit out' w). simpl. rewrite app_nil_r. auto.
      + destruct Hr as (-> & ->). exists w1. simpl.
        rewrite app_nil_r. auto.
    - assert (interface_diags sv_checkInterface with_suffix_empty op w = []) as ->.
      { unfold interface_diags. destruct (refFilePath op); [discriminate|reflexivity]. }
      destruct (do_compile_stage op (emit out w) Hclear) as (w' & Hw' & Hc' & Hcwd').
      change (compilation_outcome run_process op (emit out w))
        with (compilation_outcome run_process op w) in *.
      destruct (compilation_outcome run_process op w) as [[T C] stop].
      exists w'. split; [exact Hw' | split; [exact Hc' | exact Hcwd']]. }
  destruct (missing_diags w (files_or_nil (existFiles op))) as [|e1 E] eqn:HE.
  - destruct (existFiles op); simpl.
    + apply Hrest.
    + specialize (Hrest []). rewrite emit_nil in Hrest. exact Hrest.
  - destruct (existFiles op) as [fs|]; simpl.
    + exists (emit out1 w). simpl. rewrite app_nil_r. auto.
    + discriminate.
Qed.

End DoFacts.

(** ** The claims about the existence and interface stages *)

Lemma stage_fails (applies : Operation -> bool) (check : Meth unit) (rest : Meth string)
    (op : Operation) (w w1 : World) (t : string) (ts : list string) :
  check (op, w) = ((flag_errors (t :: ts) op, w1), Ok tt) ->
  applies op = true ->
  stage applies check rest (op, w) =
  ((flag_errors (t :: ts) op, w1), Ok (err (flag_errors (t :: ts) op) +:+ nl)).
Proof.
  intros Hcheck Hon. unfold stage, bind, attr. cbn [fst snd]. rewrite Hon, Hcheck.
  cbn [fst snd]. now rewrite flag_errors_nonempty.
Qed.

(** C2.  When a file of [existFiles] is missing from the working
    directory, [do] stops where the existence stage stops: it returns
    [err] followed by a newline, [err] has gained the [FileMissing]
    diagnostic of every missing file, and no command was run. *)
Theorem do_missing_file_returns_early
    (sv_checkInterface : string -> string -> option (list string) -> string)
    (run_process : list string -> ProcResult) (with_suffix_empty : string -> string)
    (op : Operation) (w : World) (fs : list string) (f : string) :
  existFiles op = Some fs ->
  f ∈ fs ->
  os.exists_in w ("./" +:+ f) = false ->
  exists op' w',
    do sv_checkInterface run_process with_suffix_empty (op, w) =
      ((op', w'), Ok (err op' +:+ nl)) /\
    checkExistence (op, w) = ((op', w'), Ok tt) /\
    hasErrors op' = true /\
    err op' = err op +:+ cat (missing_diags w fs) /\
    (forall g, g ∈ fs -> os.exists_in w ("./" +:+ g) = false ->
               (g +:+ ": " +:+ bcolors.FAIL +:+ "file does not exist" +:+ bcolors.ENDC)
                 +:+ nl ∈ missing_diags w fs) /\
    calls w' = calls w.
Proof.
  intros Hfs Hin Hmiss.
  assert (forall g, g ∈ fs -> os.exists_in w ("./" +:+ g) = false ->
                    getOpError g ERR_NOEXIST +:+ nl ∈ missing_diags w fs) as Hdiag.
  { intros g Hg Hgm. unfold missing_diags.
    apply list_elem_of_In.
    apply (in_map (fun f => getOpError f ERR_NOEXIST +:+ nl)).
    apply filter_In. split; [now apply list_elem_of_In|].
    unfold missing. now rewrite Hgm. }
  destruct (checkExistence_spec op w) as [out Hout]. rewrite Hfs in Hout. simpl in Hout.
  destruct (missing_diags w fs) as [|t ts] eqn:HE.
  { specialize (Hdiag f Hin Hmiss). inversion Hdiag. }
  exists (flag_errors (t :: ts) op), (emit out w).
  split; [|split; [exact Hout|split; [apply flag_errors_nonempty|split]]].
  - unfold do. apply stage_fails; [exact Hout|]. now rewrite Hfs.
  - apply flag_errors_err.
  - split; [exact Hdiag | reflexivity].
Qed.

(** C8.  For a problem with a negative number [checkInterface] returns
    at once: the descriptor, [hasErrors] and [err] included, and the
    world are as they were, whatever reference files exist. *)
Theorem checkInterface_skips_negative
    (sv_checkInterface : string -> string -> option (list string) -> string)
    (with_suffix_empty : string -> string)
    (op : Operation) (w : World) (n : Z) :
  number op = Some n ->
  (n < 0)%Z ->
  checkInterface sv_checkInterface with_suffix_empty (op, w) = ((op, w), Ok (Some "")).
Proof.
  intros Hn Hneg. rewrite checkInterface_spec, Hn.
  apply Z.ltb_lt in Hneg. now rewrite Hneg.
Qed.

Section InterfaceClaims.

Variable sv_checkInterface : string -> string -> option (list string) -> string.
Variable with_suffix_empty : string -> string.

Lemma mismatch_diags_referenced (ref : option string) (mods : option (list string))
    (w : World) (fs : list string) :
  mismatch_diags sv_checkInterface with_suffix_empty ref mods w
    (List.filter (has_reference with_suffix_empty ref w) fs) =
  mismatch_diags sv_checkInterface with_suffix_empty ref mods w fs.
Proof.
  unfold mismatch_diags. f_equal.
  induction fs as [|f fs IH]; simpl; [reflexivity|].
  unfold mismatch at 2.
  destruct (has_reference with_suffix_empty ref w f) eqn:Hr; simpl.
  - unfold mismatch at 1. rewrite Hr. simpl.
    destruct (nonempty _); now rewrite IH.
  - exact IH.
Qed.

Lemma report_referenced (ref : option string) (mods : option (list string))
    (w : World) (fs : list string) :
  report sv_checkInterface with_suffix_empty ref mods w
    (List.filter (has_reference with_suffix_empty ref w) fs) =
  report sv_checkInterface with_suffix_empty ref mods w fs.
Proof.
  unfold report.
  induction fs as [|f fs IH]; simpl; [reflexivity|].
  destruct (has_reference with_suffix_empty ref w f) eqn:Hr; simpl.
  - now rewrite IH.
  - unfold report_line at 2. rewrite Hr. exact IH.
Qed.

Lemma mismatch_diags_nil (ref : option string) (mods : option (list string))
    (w : World) (fs : list string) :
  mismatch_diags sv_checkInterface with_suffix_empty ref mods w fs = [] <->
  existsb (mismatch sv_checkInterface with_suffix_empty ref mods w) fs = false.
Proof.
  unfold mismatch_diags.
  induction fs as [|f fs IH]; simpl; [tauto|].
  destruct (mismatch sv_checkInterface with_suffix_empty ref mods w f); simpl;
    [split; discriminate | exact IH].
Qed.

End InterfaceClaims.

(** C4 (as amended).  For a problem whose number is not negative the
    interface check compares every file of [existFiles] that has a
    reference artifact, in order and to the end of the list: each
    mismatch sets [hasErrors] and appends its diagnostic and the
    comparator's text to [err], each match is reported, and what is
    printed covers all of them.  Files with no reference artifact are
    skipped: the outcome is the outcome for the list without them. *)
Theorem checkInterface_accumulates
    (sv_checkInterface : string -> string -> option (list string) -> string)
    (with_suffix_empty : string -> string)
    (op : Operation) (w : World) (n : Z) :
  number op = Some n ->
  (0 <= n)%Z ->
  let ref := refFilePath op in
  let mods := specificModules op in
  let fs := files_or_nil (existFiles op) in
  let diags := mismatch_diags sv_checkInterface with_suffix_empty ref mods w fs in
  exists op',
    checkInterface sv_checkInterface with_suffix_empty (op, w) =
      ((op', emit (interface_prints sv_checkInterface with_suffix_empty op w) w),
       Ok None) /\
    same_config op op' /\
    hasErrors op' =
      hasErrors op || existsb (mismatch sv_checkInterface with_suffix_empty ref mods w) fs /\
    err op' = err op +:+ cat diags /\
    diags =
      map (mismatch_diag sv_checkInterface with_suffix_empty ref mods)
        (List.filter (mismatch sv_checkInterface with_suffix_empty ref mods w) fs) /\
    diags =
      mismatch_diags sv_checkInterface with_suffix_empty ref mods w
        (List.filter (has_reference with_suffix_empty ref w) fs) /\
    report sv_checkInterface with_suffix_empty ref mods w fs =
      report sv_checkInterface with_suffix_empty ref mods w
        (List.filter (has_reference with_suffix_empty ref w) fs).
Proof.
  intros Hn Hpos ref mods fs diags.
  exists (flag_errors diags op).
  split; [|split; [apply flag_errors_config|split; [|split; [apply flag_errors_err|]]]].
  - rewrite checkInterface_spec, Hn.
    assert ((n <? 0)%Z = false) as -> by now apply Z.ltb_ge.
    reflexivity.
  - rewrite flag_errors_hasErrors. f_equal.
    destruct diags eqn:Hd.
    + symmetry. now apply mismatch_diags_nil.
    + destruct (existsb (mismatch sv_checkInterface with_suffix_empty ref mods w) fs)
        eqn:He; [reflexivity|].
      apply mismatch_diags_nil in He. subst diags. congruence.
  - split; [reflexivity|]. split.
    + symmetry. apply mismatch_diags_referenced.
    + symmetry. apply report_referenced.
Qed.

Lemma do_missing_file_returns_early_witness :
  existFiles problem1 = Some ["a.sv"; "b.sv"] /\
  os.exists_in student_world ("./" +:+ "a.sv") = false /\
  exists op' w',
    do lenient_compare tools_ok stem (problem1, student_world) =
      ((op', w'), Ok (err op' +:+ nl)) /\
    hasErrors op' = true /\
    err op' = getOpError "a.sv" ERR_NOEXIST +:+ nl /\
    calls w' = [].
Proof.
  assert ("a.sv" ∈ ["a.sv"; "b.sv"]) as Hin by constructor.
  assert (os.exists_in student_world ("./" +:+ "a.sv") = false) as Hmiss
    by (vm_compute; reflexivity).
  split; [reflexivity|]. split; [exact Hmiss|].
  destruct (do_missing_file_returns_early lenient_compare tools_ok stem
              problem1 student_world ["a.sv"; "b.sv"] "a.sv" eq_refl Hin Hmiss)
    as (op' & w' & Hdo & _ & Herr & Htext & _ & Hcalls).
  exists op', w'. repeat split; assumption.
Defined.

Lemma checkInterface_skips_negative_witness :
  number lab_problem = Some (-1)%Z /\
  checkInterface picky_compare stem (lab_problem, full_world) =
  ((lab_problem, full_world), Ok (Some "")).
Proof.
  split; [reflexivity|].
  apply (checkInterface_skips_negative picky_compare stem lab_problem full_world (-1)%Z).
  - reflexivity.
  - lia.
Defined.

Lemma checkInterface_accumulates_witness :
  exists op',
    (checkInterface picky_compare stem (problem3, full_world)).1.1 = op' /\
    hasErrors op' = true /\
    err op' =
      (getOpError "a.sv" ERR_BADINTERF +:+ nl +:+ "ports differ" +:+ nl) +:+
      (getOpError "b.sv" ERR_BADINTERF +:+ nl +:+ "ports differ" +:+ nl).
Proof.
  assert (0 <= 3)%Z as Hpos by lia.
  destruct (checkInterface_accumulates picky_compare stem problem3 full_world 3
              eq_refl Hpos) as (op' & Hrun & _ & Hflag & Herr & _).
  exists op'. rewrite Hrun. split; [reflexivity|]. split.
  - rewrite Hflag. vm_compute; reflexivity.
  - rewrite Herr. vm_compute; reflexivity.
Defined.

(** With mismatches in [a.sv] and [b.sv] the check does not stop at
    [a.sv]: the diagnostic of [b.sv] is recorded too and the match of
    [c.sv] is reported. *)
Lemma checkInterface_continues_after_mismatch :
  let '((op', w'), r) := checkInterface picky_compare stem (problem3, full_world) in
  r = Ok None /\
  err op' =
    (getOpError "a.sv" ERR_BADINTERF +:+ nl +:+ "ports differ" +:+ nl) +:+
    (getOpError "b.sv" ERR_BADINTERF +:+ nl +:+ "ports differ" +:+ nl) /\
  stdout w' =
    [getOpError "a.sv" ERR_BADINTERF +:+ nl +:+
     getOpError "b.sv" ERR_BADINTERF +:+ nl +:+
     "c.sv: interface matches reference, good"] /\
  (checkInterface picky_compare stem (problem3, full_world)).1.1 <>
  (checkInterface picky_compare stem
     (set_existFiles (Some ["a.sv"]) problem3, full_world)).1.1.
Proof.
  vm_compute. repeat split; try reflexivity. discriminate.
Qed.

(** ** The claims about the compilation stage *)

Section CompilationClaims.

Variable run_process : list string -> ProcResult.

Lemma modules_outcome_complete (fileList : list string) (oldDir : string)
    (mods : list string) :
  Forall (fun m => run_process (vcsModuleCmd m) <> Interrupted) mods ->
  modules_outcome run_process fileList oldDir mods =
  (module_diags run_process fileList oldDir mods, map vcsModuleCmd mods, false).
Proof.
  induction 1 as [|m mods Hm _ IH]; simpl; [reflexivity|].
  rewrite IH. destruct (run_process (vcsModuleCmd m)); [reflexivity..|congruence].
Qed.

Lemma module_diags_nil (fileList : list string) (oldDir : string) (mods : list string) :
  module_diags run_process fileList oldDir mods = [] <->
  existsb (module_fails run_process) mods = false.
Proof.
  unfold module_diags, module_fails.
  induction mods as [|m mods IH]; simpl; [tauto|].
  destruct (run_process (vcsModuleCmd m)); simpl; try exact IH.
  split; discriminate.
Qed.

Lemma modules_outcome_interrupted (fileList : list string) (oldDir : string)
    (mods : list string) :
  (modules_outcome run_process fileList oldDir mods).2 = true <->
  exists cmd, cmd ∈ (modules_outcome run_process fileList oldDir mods).1.2 /\
              run_process cmd = Interrupted.
Proof.
  induction mods as [|m mods IH]; simpl.
  - split; [discriminate|]. intros (cmd & Hin & _). inversion Hin.
  - destruct (run_process (vcsModuleCmd m)) eqn:Hm;
      try destruct (modules_outcome run_process fileList oldDir mods)
        as [[texts cmds] stop]; simpl in *.
    + rewrite IH. split.
      * intros (cmd & Hin & Hc). exists cmd. split; [now right | exact Hc].
      * intros (cmd & Hin & Hc). apply elem_of_cons in Hin as [->|Hin]; [congruence|].
        now exists cmd.
    + rewrite IH. split.
      * intros (cmd & Hin & Hc). exists cmd. split; [now right | exact Hc].
      * intros (cmd & Hin & Hc). apply elem_of_cons in Hin as [->|Hin]; [congruence|].
        now exists cmd.
    + split; [|reflexivity]. intros _. exists (vcsModuleCmd m).
      split; [constructor | exact Hm].
Qed.

Lemma compile_outcome_interrupted (mods : option (list string))
    (fileList : list string) (oldDir : string) :
  (compile_outcome run_process mods fileList oldDir).2 = true <->
  exists cmd, cmd ∈ (compile_outcome run_process mods fileList oldDir).1.2 /\
              run_process cmd = Interrupted.
Proof.
  unfold compile_outcome. destruct mods as [mods|].
  - destruct (run_process (vloganCmd fileList)) eqn:Hv.
    + pose proof (modules_outcome_interrupted fileList oldDir mods) as IH.
      destruct (modules_outcome run_process fileList oldDir mods)
        as [[texts cmds] stop]; simpl in *.
      rewrite IH. split.
      * intros (cmd & Hin & Hc). exists cmd. split; [now right | exact Hc].
      * intros (cmd & Hin & Hc). apply elem_of_cons in Hin as [->|Hin]; [congruence|].
        now exists cmd.
    + simpl. split; [discriminate|].
      intros (cmd & Hin & Hc). apply list_elem_of_singleton in Hin as ->. congruence.
    + simpl. split; [|reflexivity]. intros _. exists (vloganCmd fileList).
      split; [constructor | exact Hv].
  - destruct (run_process (vcsCmd fileList)) eqn:Hv; simpl.
    + split; [discriminate|].
      intros (cmd & Hin & Hc). apply list_elem_of_singleton in Hin as ->. congruence.
    + split; [discriminate|].
      intros (cmd & Hin & Hc). apply list_elem_of_singleton in Hin as ->. congruence.
    + split; [|reflexivity]. intros _. exists (vcsCmd fileList).
      split; [constructor | exact Hv].
Qed.

End CompilationClaims.

(** C7.  In per-module mode, when the analysis pass over the compile
    files fails, [checkCompilation] records one [CompileFailed]
    diagnostic with the transcript and returns having run the analysis
    command only.  When the analysis succeeds (and no pass is
    interrupted), one elaboration command is run for each named module,
    in order, and [err] gains the diagnostic of every module that fails. *)
Theorem checkCompilation_per_module (run_process : list string -> ProcResult)
    (op : Operation) (w : World) (fs mods : list string) :
  compileFiles op = Some fs ->
  specificModules op = Some mods ->
  let fileList := compile_fileList (cwd w) fs in
  match run_process (vloganCmd fileList) with
  | ExitedNonZero out =>
      exists op' w',
        checkCompilation run_process (op, w) = ((op', w'), Ok tt) /\
        hasErrors op' = true /\
        err op' = err op +:+ compile_diag fileList (cwd w) out /\
        calls w' = calls w ++ [vloganCmd fileList]
  | Exited0 _ =>
      Forall (fun m => run_process (vcsModuleCmd m) <> Interrupted) mods ->
      exists op' w',
        checkCompilation run_process (op, w) = ((op', w'), Ok tt) /\
        calls w' = calls w ++ vloganCmd fileList :: map vcsModuleCmd mods /\
        hasErrors op' = hasErrors op || existsb (module_fails run_process) mods /\
        err op' = err op +:+ cat (module_diags run_process fileList (cwd w) mods)
  | Interrupted =>
      exists op' w',
        checkCompilation run_process (op, w) = ((op', w'), Raise KeyboardInterrupt) /\
        calls w' = calls w ++ [vloganCmd fileList]
  end.
Proof.
  intros Hfs Hmods fileList.
  destruct (checkCompilation_spec run_process op w fs Hfs) as [out Hout].
  rewrite Hmods in Hout. unfold compile_outcome in Hout. fold fileList in Hout.
  destruct (run_process (vloganCmd fileList)) as [o|o|].
  - intros Hall.
    rewrite (modules_outcome_complete run_process fileList (cwd w) mods Hall) in Hout.
    eexists _, _. split; [exact Hout|]. split; [reflexivity|]. split.
    + rewrite flag_errors_hasErrors. f_equal.
      destruct (module_diags run_process fileList (cwd w) mods) eqn:Hd.
      * symmetry. now apply (module_diags_nil run_process fileList (cwd w)).
      * destruct (existsb (module_fails run_process) mods) eqn:He; [reflexivity|].
        apply (module_diags_nil run_process fileList (cwd w)) in He. congruence.
    + apply flag_errors_err.
  - eexists _, _. split; [exact Hout|]. repeat split.
  - eexists _, _. split; [exact Hout|]. reflexivity.
Qed.

(** C10.  [checkCompilation] leaves the current directory as it found
    it and the temporary directory it made removed, however it ends:
    returning after a success or a compile failure, or raising.  It
    raises [KeyboardInterrupt] exactly when one of the commands it ran
    was interrupted. *)
Theorem checkCompilation_cleans_up (run_process : list string -> ProcResult)
    (op : Operation) (w : World) :
  os.isabs (cwd w) = true ->
  exists op' w' r cmds,
    checkCompilation run_process (op, w) = ((op', w'), r) /\
    cwd w' = cwd w /\
    (os.mkdtemp_name w ∉ dirs w') /\
    (dirs w' ⊆ dirs w) /\
    calls w' = calls w ++ cmds /\
    (r = Raise KeyboardInterrupt <->
     exists cmd, cmd ∈ cmds /\ run_process cmd = Interrupted) /\
    (r = Ok tt \/ r = Raise KeyboardInterrupt \/
     (compileFiles op = None /\ r = Raise TypeError)).
Proof.
  intros Habs.
  destruct (compileFiles op) as [fs|] eqn:Hfs.
  - destruct (checkCompilation_spec run_process op w fs Hfs) as [out Hout].
    pose proof (compile_outcome_interrupted run_process (specificModules op)
                  (compile_fileList (cwd w) fs) (cwd w)) as Hint.
    destruct (compile_outcome run_process (specificModules op)
                (compile_fileList (cwd w) fs) (cwd w)) as [[texts cmds] stop].
    simpl in Hint.
    eexists _, _, _, cmds. split; [exact Hout|].
    split; [now apply after_compile_cwd|].
    split; [apply after_compile_tempdir|].
    split; [apply after_compile_tempdir|].
    split; [reflexivity|]. split.
    + rewrite <- Hint. destruct stop; simpl; split; congruence.
    + destruct stop; simpl; auto.
  - exists op, w, (Raise TypeError), [].
    split.
    { unfold checkCompilation, bind, sys, attr, os.getcwd. simpl. now rewrite Hfs. }
    split; [reflexivity|]. split; [apply mkdtemp_name_fresh|].
    split; [reflexivity|]. split; [now rewrite app_nil_r|]. split.
    + split; [discriminate|]. intros (cmd & Hin & _). inversion Hin.
    + auto.
Qed.

Lemma checkCompilation_per_module_witness :
  (exists op' w',
      checkCompilation tools_no_elaboration (modules_problem, student_world) =
        ((op', w'), Ok tt) /\
      calls w' =
        [["vlogan"; "-q"; "-sverilog"; "-nc"; "/handin/s/b.sv"; "/handin/s/c.sv"];
         ["vcs"; "-q"; "-sverilog"; "-nc"; "alu"];
         ["vcs"; "-q"; "-sverilog"; "-nc"; "top"];
         ["vcs"; "-q"; "-sverilog"; "-nc"; "regs"]] /\
      hasErrors op' = true /\
      err op' =
        (getOpError "b.sv, c.sv" ERR_NOCOMPILE +:+ nl +:+ "Error-[URMI] alu" +:+ nl) +:+
        (getOpError "b.sv, c.sv" ERR_NOCOMPILE +:+ nl +:+ "Error-[URMI] regs" +:+ nl)) /\
  (exists op' w',
      checkCompilation tools_no_analysis (modules_problem, student_world) =
        ((op', w'), Ok tt) /\
      hasErrors op' = true /\
      err op' =
        getOpError "b.sv, c.sv" ERR_NOCOMPILE +:+ nl +:+ "Error-[SE] Syntax error" +:+ nl /\
      calls w' =
        [["vlogan"; "-q"; "-sverilog"; "-nc"; "/handin/s/b.sv"; "/handin/s/c.sv"]]).
Proof.
  split.
  - assert (Forall (fun m => tools_no_elaboration (vcsModuleCmd m) <> Interrupted)
              ["alu"; "top"; "regs"]) as Hall
      by (repeat constructor; discriminate).
    destruct (checkCompilation_per_module tools_no_elaboration modules_problem
                student_world ["b.sv"; "c.sv"] ["alu"; "top"; "regs"]
                eq_refl eq_refl Hall) as (op' & w' & Hrun & Hcalls & Hflag & Herr).
    exists op', w'. split; [exact Hrun|]. split; [exact Hcalls|].
    split; [exact Hflag|]. rewrite Herr. vm_compute; reflexivity.
  - destruct (checkCompilation_per_module tools_no_analysis modules_problem
                student_world ["b.sv"; "c.sv"] ["alu"; "top"; "regs"]
                eq_refl eq_refl) as (op' & w' & Hrun & Hflag & Herr & Hcalls).
    exists op', w'. split; [exact Hrun|]. split; [exact Hflag|].
    split; [|exact Hcalls]. rewrite Herr. vm_compute; reflexivity.
Defined.

Lemma checkCompilation_cleans_up_witness :
  os.isabs (cwd student_world) = true /\
  exists op' w',
    checkCompilation tools_interrupted (problem2, student_world) =
      ((op', w'), Raise KeyboardInterrupt) /\
    cwd w' = "/handin/s" /\
    dirs w' = dirs student_world.
Proof.
  split; [reflexivity|].
  destruct (checkCompilation_cleans_up tools_interrupted problem2 student_world eq_refl)
    as (op' & w' & r & cmds & Hrun & Hcwd & Htmp & Hsub & Hcalls & Hint & Hr).
  exists op', w'. rewrite Hrun.
  assert (checkCompilation tools_interrupted (problem2, student_world) =
          ((problem2, after_compile student_world [] [vcsCmd ["/handin/s/b.sv"; "/handin/s/c.sv"]]),
           Raise KeyboardInterrupt)) as Hc by (vm_compute; reflexivity).
  rewrite Hc in Hrun. injection Hrun as <- <- <-.
  split; [reflexivity|]. split; [exact Hcwd|].
  vm_compute; reflexivity.
Defined.

(** ** The batch runner *)

Lemma isabs_resolve (d p : string) : os.isabs d = true -> os.isabs (os.resolve d p) = true.
Proof.
  intros Hd. unfold os.resolve. destruct (os.isabs p) eqn:Hp; [exact Hp|].
  destruct d as [|c d]; [discriminate|].
  unfold os.isabs in *.
  apply String.prefix_correct in Hd. injection Hd as ->.
  change (String "/" d +:+ "/" +:+ os.skip_dot p)
    with (String "/" (d +:+ "/" +:+ os.skip_dot p)).
  now destruct (d +:+ "/" +:+ os.skip_dot p).
Qed.

Section RunnerFacts.

Variable sv_checkInterface : string -> string -> option (list string) -> string.
Variable run_process : list string -> ProcResult.
Variable with_suffix_empty : string -> string.

Lemma checkStudent_loop (ops : list Operation) :
  forall (acc : list Operation * (bool * string)) (w w' : World)
         (res : list Operation * (bool * string)),
    os.isabs (cwd w) = true ->
    for_each ops (checkStudent_body sv_checkInterface run_process with_suffix_empty)
      acc w = (w', Ok res) ->
    cwd w' = cwd w /\
    exists ops',
      res.1 = acc.1 ++ ops' /\
      res.2.1 = acc.2.1 || existsb hasErrors ops'.
Proof.
  induction ops as [|op ops IH]; intros acc w w' res Habs Hrun; simpl in Hrun.
  - unfold ret in Hrun. injection Hrun as <- <-.
    split; [reflexivity|]. exists []. now rewrite app_nil_r, orb_false_r.
  - unfold bind at 1 in Hrun.
    destruct acc as [done [any out]].
    unfold checkStudent_body at 1 in Hrun. unfold bind at 1, call in Hrun.
    destruct (do_spec sv_checkInterface run_process with_suffix_empty
                (clearErrors op) w eq_refl) as (w1 & Hdo & _ & Hcwd).
    rewrite Hdo in Hrun.
    destruct (do_outcome sv_checkInterface run_process with_suffix_empty
                (clearErrors op) w) as [[texts cmds] e].
    unfold do_result in Hrun.
    destruct e as [e|]; [discriminate|].
    assert (exists any' out',
      for_each ops (checkStudent_body sv_checkInterface run_process with_suffix_empty)
        (done ++ [flag_errors texts (clearErrors op)], (any', out')) w1 = (w', Ok res) /\
      any' = any || hasErrors (flag_errors texts (clearErrors op)))
      as (any' & out' & Hrest & ->).
    { destruct texts as [|t ts].
      - simpl in Hrun. eexists _, _. split; [exact Hrun|].
        now rewrite orb_false_r.
      - cbn [fst snd] in Hrun. rewrite flag_errors_nonempty in Hrun.
        eexists _, _. split; [exact Hrun|].
        now rewrite flag_errors_nonempty, orb_true_r. }
    specialize (Hcwd Habs).
    apply IH in Hrest as (Hcwd' & ops' & Hops & Hany); [|congruence].
    split; [congruence|].
    exists (flag_errors texts (clearErrors op) :: ops'). simpl in *.
    rewrite Hops, Hany, <- app_assoc, orb_assoc. auto.
Qed.

End RunnerFacts.

(** C9.  When [checkStudent] has run every operation for a student and
    returns, [errors.log] in the student's directory holds the report,
    stripped of its formatting, if some operation ended with
    [hasErrors] set, and does not exist otherwise, whether or not one
    was there before. *)
Theorem checkStudent_errors_log
    (sv_checkInterface : string -> string -> option (list string) -> string)
    (run_process : list string -> ProcResult) (with_suffix_empty : string -> string)
    (studentDir hwNum : string) (opArray ops' : list Operation)
    (w w' : World) (hasAnyErrors : bool) (personalOutput : string) :
  os.isabs (cwd w) = true ->
  checkStudent sv_checkInterface run_process with_suffix_empty
    studentDir opArray hwNum w = (w', Ok (ops', (hasAnyErrors, personalOutput))) ->
  let log := os.resolve (os.resolve (cwd w) studentDir) "./errors.log" in
  (hasAnyErrors = true <-> exists op', op' ∈ ops' /\ hasErrors op' = true) /\
  (hasAnyErrors = true ->
   files w' !! log = Some (bcolors.stripFormatting personalOutput)) /\
  (hasAnyErrors = false -> files w' !! log = None) /\
  cwd w' = cwd w.
Proof.
  intros Habs Hrun log. unfold checkStudent in Hrun.
  unfold bind at 1, os.getcwd at 1 in Hrun.
  unfold bind at 1, os.chdir at 1 in Hrun.
  unfold bind at 1, os.print at 1 in Hrun.
  unfold bind at 1 in Hrun.
  match type of Hrun with
  | context [for_each opArray ?body ?acc ?w0] =>
      destruct (for_each opArray body acc w0) as [w1 [[ops1 [any1 out1]]|e]] eqn:Hloop;
      [|discriminate]
  end.
  apply checkStudent_loop in Hloop as (Hcwd1 & opsx & Hops & Hany);
    [|simpl; now apply isabs_resolve].
  simpl in Hcwd1, Hops, Hany. subst ops1 any1.
  assert (hasAnyErrors = existsb hasErrors opsx /\ ops' = opsx /\
          personalOutput = out1 /\
          exists w2,
            (if existsb hasErrors opsx then createErrLog out1 "."
             else
               let* stale := os.path_exists "./errors.log" in
               when stale (os.remove "./errors.log")) w1 = (w2, Ok tt) /\
            w' = set_cwd (os.resolve (cwd w2) (cwd w)) w2)
    as (-> & -> & -> & w2 & Hlog & ->).
  { unfold bind at 1 in Hrun.
    destruct ((if existsb hasErrors opsx then createErrLog out1 "."
               else
                 let* stale := os.path_exists "./errors.log" in
                 when stale (os.remove "./errors.log")) w1) as [w2 [[]|e]] eqn:Hlog;
      [|discriminate].
    unfold bind, os.chdir, ret in Hrun. simpl in Hrun.
    injection Hrun as <- <- <- <-. repeat split. exists w2. auto. }
  subst log. rewrite <- Hcwd1.
  split.
  { rewrite existsb_exists. split.
    - intros (op' & Hin & Hop). exists op'. now rewrite list_elem_of_In.
    - intros (op' & Hin & Hop). exists op'. now rewrite <- list_elem_of_In. }
  assert (cwd w2 = cwd w1 -> os.resolve (cwd w2) (cwd w) = cwd w) as Hback
    by (intros _; apply resolve_abs, Habs).
  destruct (existsb hasErrors opsx).
  - unfold createErrLog, os.write_file in Hlog.
    change ("." +:+ "/errors.log") with "./errors.log" in Hlog.
    cbv zeta in Hlog.
    set (log := os.resolve (cwd w1) "./errors.log") in *.
    destruct (bool_decide (log ∈ dirs w1)); [discriminate|].
    injection Hlog as <-. simpl.
    split; [intros _; apply lookup_insert_eq|].
    split; [discriminate|]. now apply Hback.
  - unfold bind, os.path_exists, os.exists_in, when, os.remove in Hlog.
    cbv beta zeta iota in Hlog.
    set (log := os.resolve (cwd w1) "./errors.log") in *.
    split; [discriminate|].
    destruct (bool_decide (log ∈ dom (files w1))) eqn:Hf; simpl in Hlog.
    + fold log in Hlog. rewrite Hf in Hlog. injection Hlog as <-. simpl.
      split; [intros _; apply lookup_delete_eq|]. now apply Hback.
    + apply bool_decide_eq_false in Hf. apply not_elem_of_dom in Hf.
      destruct (bool_decide (log ∈ dirs w1)); simpl in Hlog.
      { fold log in Hlog. rewrite bool_decide_eq_false_2 in Hlog; [discriminate|].
        now apply not_elem_of_dom. }
      unfold ret in Hlog. injection Hlog as <-.
      split; [intros _; exact Hf|]. now apply Hback.
Qed.

Lemma checkStudent_errors_log_witness :
  os.isabs (cwd handin_world) = true /\
  (exists w' ops' out,
      checkStudent lenient_compare tools_ok stem "s" [problem2] "hw1" handin_world =
        (w', Ok (ops', (false, out))) /\
      files handin_world !! "/handin/s/errors.log" = Some "old report" /\
      files w' !! "/handin/s/errors.log" = None /\
      cwd w' = "/handin") /\
  (exists w' ops' out,
      checkStudent lenient_compare tools_ok stem "s" [problem1; problem2] "hw1"
        handin_world = (w', Ok (ops', (true, out))) /\
      files w' !! "/handin/s/errors.log" = Some (bcolors.stripFormatting out)).
Proof.
  split; [reflexivity|]. split.
  - assert (exists w' ops' out,
      checkStudent lenient_compare tools_ok stem "s" [problem2] "hw1" handin_world =
        (w', Ok (ops', (false, out)))) as (w' & ops' & out & Hrun)
      by (eexists _, _, _; vm_compute; reflexivity).
    exists w', ops', out. split; [exact Hrun|]. split; [vm_compute; reflexivity|].
    destruct (checkStudent_errors_log lenient_compare tools_ok stem "s" "hw1"
                [problem2] ops' handin_world w' false out eq_refl Hrun)
      as (_ & _ & Hnone & Hcwd).
    split; [exact (Hnone eq_refl) | exact Hcwd].
  - assert (exists w' ops' out,
      checkStudent lenient_compare tools_ok stem "s" [problem1; problem2] "hw1"
        handin_world = (w', Ok (ops', (true, out)))) as (w' & ops' & out & Hrun)
      by (eexists _, _, _; vm_compute; reflexivity).
    exists w', ops', out. split; [exact Hrun|].
    destruct (checkStudent_errors_log lenient_compare tools_ok stem "s" "hw1"
                [problem1; problem2] ops' handin_world w' true out eq_refl Hrun)
      as (_ & Hsome & _ & _).
    exact (Hsome eq_refl).
Defined.

(** ** The contract of [do] *)

Section Passes.

Variable sv_checkInterface : string -> string -> option (list string) -> string.
Variable run_process : list string -> ProcResult.
Variable with_suffix_empty : string -> string.

Lemma modules_outcome_passes (fileList : list string) (oldDir : string)
    (mods : list string) :
  ((modules_outcome run_process fileList oldDir mods).1.1 = [] /\
   (modules_outcome run_process fileList oldDir mods).2 = false) <->
  forallb (fun m => exited0 (run_process (vcsModuleCmd m))) mods = true.
Proof.
  induction mods as [|m mods IH]; simpl; [tauto|].
  destruct (run_process (vcsModuleCmd m));
    destruct (modules_outcome run_process fileList oldDir mods) as [[texts cmds] stop];
    simpl in *; try exact IH.
  - split; [intros [[=] _] | discriminate].
  - split; [intros [_ [=]] | discriminate].
Qed.

Lemma compilation_outcome_passes (op : Operation) (w : World) :
  ((compilation_outcome run_process op w).1.1 = [] /\
   (compilation_outcome run_process op w).2 = false) <->
  compilation_passes run_process op w = true.
Proof.
  unfold compilation_outcome, compilation_passes, compile_outcome.
  destruct (compileFiles op) as [cfs|]; [|simpl; tauto].
  destruct (skipCompile op); [simpl; tauto|]. simpl.
  destruct (specificModules op) as [mods|].
  - pose proof (modules_outcome_passes (compile_fileList (cwd w) cfs) (cwd w) mods) as H.
    destruct (run_process (vloganCmd (compile_fileList (cwd w) cfs))); simpl.
    + destruct (modules_outcome run_process (compile_fileList (cwd w) cfs)
                  (cwd w) mods) as [[texts cmds] stop]. exact H.
    + split; [intros [[=] _] | discriminate].
    + split; [intros [_ [=]] | discriminate].
  - destruct (run_process (vcsCmd (compile_fileList (cwd w) cfs))); simpl.
    + tauto.
    + split; [intros [[=] _] | discriminate].
    + split; [intros [_ [=]] | discriminate].
Qed.

Lemma do_outcome_passes (op : Operation) (w : World) :
  ((do_outcome sv_checkInterface run_process with_suffix_empty op w).1.1 = [] /\
   (do_outcome sv_checkInterface run_process with_suffix_empty op w).2 = None) <->
  (existence_passes op w = true /\
   interface_passes sv_checkInterface with_suffix_empty op w = true /\
   compilation_passes run_process op w = true).
Proof.
  unfold do_outcome, existence_passes.
  rewrite <- missing_diags_nil.
  destruct (missing_diags w (files_or_nil (existFiles op))) as [|e1 E].
  2:{ simpl. split; [intros [[=] _] | intros [[=] _]]. }
  unfold interface_raises, interface_diags, interface_passes.
  destruct (refFilePath op) as [ref|]; simpl.
  - destruct (number op) as [n|]; simpl.
    2:{ split; [intros [_ [=]] | intros [_ [[=] _]]]. }
    destruct (n <? 0)%Z; simpl.
    + rewrite <- compilation_outcome_passes.
      destruct (compilation_outcome run_process op w) as [[texts cmds] stop]; simpl.
      destruct stop; intuition congruence.
    + pose proof (mismatch_diags_nil sv_checkInterface with_suffix_empty (Some ref)
                    (specificModules op) w (files_or_nil (existFiles op))) as Hm.
      destruct (mismatch_diags sv_checkInterface with_suffix_empty (Some ref)
                  (specificModules op) w (files_or_nil (existFiles op))) as [|i I].
      * rewrite (proj1 Hm eq_refl). simpl.
        rewrite <- compilation_outcome_passes.
        destruct (compilation_outcome run_process op w) as [[texts cmds] stop]; simpl.
        destruct stop; intuition congruence.
      * simpl. split; [intros [[=] _]|].
        intros (_ & Hi & _). apply negb_true_iff, Hm in Hi. discriminate.
  - rewrite <- compilation_outcome_passes.
    destruct (compilation_outcome run_process op w) as [[texts cmds] stop]; simpl.
    destruct stop; intuition congruence.
Qed.

End Passes.

Lemma app_nl_nonempty (s : string) : s +:+ nl <> "".
Proof. destruct s; discriminate. Qed.

(** C1 (as amended).  Started with [hasErrors] cleared, [do] returns the
    empty string exactly when the existence, interface and compilation
    checks all pass, and then leaves the descriptor as it was; any other
    string it returns is [err], which has gained the diagnostics of the
    stage that failed, followed by a newline, with [hasErrors] set.
    [do] adds no header: [doOpArray] puts the line that names the
    problem number in front of what [do] returned when it builds its own
    result. *)
Theorem do_contract
    (sv_checkInterface : string -> string -> option (list string) -> string)
    (run_process : list string -> ProcResult) (with_suffix_empty : string -> string)
    (op : Operation) (w : World) :
  hasErrors op = false ->
  (exists op' w' r,
      do sv_checkInterface run_process with_suffix_empty (op, w) = ((op', w'), r) /\
      (r = Ok "" <->
       existence_passes op w = true /\
       interface_passes sv_checkInterface with_suffix_empty op w = true /\
       compilation_passes run_process op w = true) /\
      (r = Ok "" -> op' = op) /\
      (forall s, r = Ok s -> s <> "" ->
                 hasErrors op' = true /\ s = err op' +:+ nl /\
                 err op' =
                   err op +:+
                   cat (do_outcome sv_checkInterface run_process with_suffix_empty op w).1.1)) /\
  (forall op' w' s,
      do sv_checkInterface run_process with_suffix_empty (clearErrors op, w) =
        ((op', w'), Ok s) ->
      doOpArray sv_checkInterface run_process with_suffix_empty [op] w =
        (w', Ok ([op'],
                 (∅ ∪ files_of (existFiles op) ∪ files_of (compileFiles op),
                  hasErrors op',
                  if hasErrors op' then problem_header op' +:+ s else "")))).
Proof.
  intros Hclear. split.
  - destruct (do_spec sv_checkInterface run_process with_suffix_empty op w Hclear)
      as (w' & Hdo & _).
    pose proof (do_outcome_passes sv_checkInterface run_process with_suffix_empty op w)
      as Hpass.
    destruct (do_outcome sv_checkInterface run_process with_suffix_empty op w)
      as [[texts cmds] e]. simpl in Hpass. cbn [fst snd].
    eexists _, _, _. split; [exact Hdo|].
    rewrite <- Hpass. unfold do_result.
    destruct e as [e|].
    + split; [|split].
      * split; [discriminate | intros [_ [=]]].
      * discriminate.
      * discriminate.
    + destruct texts as [|t ts].
      * split; [tauto|]. split; [reflexivity|]. intros s [= <-] Hs. congruence.
      * split; [|split].
        -- split; [|intros [[=] _]]. intros [= H]. now apply app_nl_nonempty in H.
        -- intros [= H]. now apply app_nl_nonempty in H.
        -- intros s [= <-] _. split; [apply flag_errors_nonempty|].
           split; [reflexivity | apply flag_errors_err].
  - intros op' w' s Hdo. unfold doOpArray. simpl.
    unfold bind at 1. unfold doOpArray_body, bind, call. rewrite Hdo.
    destruct (hasErrors op'); reflexivity.
Qed.

Lemma do_contract_witness :
  hasErrors problem2 = false /\
  (exists w',
      do lenient_compare tools_ok stem (problem2, student_world) =
        ((problem2, w'), Ok "")) /\
  (exists op' w',
      doOpArray lenient_compare tools_ok stem [problem1] student_world =
        (w', Ok ([op'],
                 ({[ "a.sv"; "b.sv" ]}, true,
                  problem_header problem1 +:+ getOpError "a.sv" ERR_NOEXIST +:+ nl +:+ nl)))).
Proof.
  split; [reflexivity|]. split.
  - destruct (do_contract lenient_compare tools_ok stem problem2 student_world eq_refl)
      as [(op' & w' & r & Hdo & Hiff & Hsame & _) _].
    assert (r = Ok "") as Hr by (apply Hiff; vm_compute; auto).
    exists w'. rewrite Hdo, (Hsame Hr), Hr. reflexivity.
  - assert (exists op' w',
      do lenient_compare tools_ok stem (clearErrors problem1, student_world) =
        ((op', w'), Ok (getOpError "a.sv" ERR_NOEXIST +:+ nl +:+ nl)) /\
      hasErrors op' = true /\ number op' = Some 1%Z) as (op' & w' & Hdo & Hflag & Hn)
      by (eexists _, _; vm_compute; auto).
    destruct (do_contract lenient_compare tools_ok stem problem1 student_world eq_refl)
      as [_ Harr].
    exists op', w'. rewrite (Harr _ _ _ Hdo), Hflag.
    unfold problem_header. rewrite Hn. reflexivity.
Defined.

(** With [a.sv] missing, what [do] returns is the diagnostic and a
    newline: the line naming problem 1 is nowhere in it. *)
Lemma do_returns_no_header :
  let '((op', w'), r) := do lenient_compare tools_ok stem (problem1, student_world) in
  hasErrors op' = true /\
  r = Ok (getOpError "a.sv" ERR_NOEXIST +:+ nl +:+ nl) /\
  (forall s, r = Ok s ->
             Str.contains (problem_header op') s = false /\
             Str.contains "Problem" s = false).
Proof.
  vm_compute. split; [reflexivity|]. split; [reflexivity|].
  intros s [= <-]. vm_compute. auto.
Qed.

(** ** Reports *)

Lemma str_length_app (s t : string) :
  String.length (s +:+ t) = (String.length s + String.length t)%nat.
Proof.
  induction s as [|c s IH]; [reflexivity|].
  change (S (String.length (s +:+ t)) = S (String.length s + String.length t)).
  now rewrite IH.
Qed.

Lemma str_length_repeat (c : string) (n : nat) :
  String.length (Str.repeat c n) = (n * String.length c)%nat.
Proof.
  induction n as [|n IH]; [reflexivity|].
  simpl. now rewrite str_length_app, IH.
Qed.

(** X1.  A header line is 80 columns and a newline as long as the text
    has at most 76 characters; a longer text gets no filler and makes
    the line longer than 80 columns. *)
Theorem writeHeaderLine_length (header : string) (filled : bool) :
  Z.of_nat (String.length (writeHeaderLine header filled)) =
  Z.max 81 (Z.of_nat (String.length header) + 5).
Proof.
  unfold writeHeaderLine.
  rewrite !str_length_app, !str_length_repeat.
  assert (String.length (if filled then "*" else " ") = 1%nat) as ->
    by (destruct filled; reflexivity).
  change (String.length "*") with 1%nat.
  change (String.length " ") with 1%nat.
  change (String.length nl) with 1%nat.
  set (n := String.length header).
  set (r := 80 - 2 - Z.of_nat (1 + (n + 1))).
  pose proof (Z.div_mod r 2 ltac:(lia)) as Hdiv.
  pose proof (Z.mod_pos_bound r 2 ltac:(lia)) as Hmod.
  assert (r = 76 - Z.of_nat n) as Hr by (subst r; lia).
  clearbody r.
  destruct (Z.le_gt_cases 0 r) as [H0|H0]; lia.
Qed.

Lemma str_app_cons (c : ascii) (s t : string) :
  String c s +:+ t = String c (s +:+ t).
Proof. reflexivity. Qed.

Lemma plain_cons (c : ascii) (s : string) :
  plain (String c s) <-> c <> ESC_char /\ plain s.
Proof.
  unfold plain, Str.contains_char.
  change (Str.chars (String c s)) with (c :: Str.chars s).
  change (existsb ?f (c :: ?l)) with (f c || existsb f l)%bool.
  rewrite orb_false_iff, Ascii.eqb_neq.
  split; intros [Hc Hs]; split; congruence.
Qed.

Lemma plain_app (s t : string) : plain s -> plain t -> plain (s +:+ t).
Proof.
  induction s as [|c s IH]; intros Hs Ht; [exact Ht|].
  rewrite str_app_cons. apply plain_cons in Hs as [Hc Hs].
  apply plain_cons. auto.
Qed.

Lemma prefix_code_plain (t : string) (c : ascii) (s : string) :
  c <> ESC_char -> String.prefix (String ESC_char t) (String c s) = false.
Proof.
  intros Hc.
  change (String.prefix (String ESC_char t) (String c s))
    with (if ascii_dec ESC_char c then String.prefix t s else false).
  destruct (ascii_dec ESC_char c); [congruence|reflexivity].
Qed.

Lemma replace_from_app_plain (t new a b : string) :
  plain a ->
  Str.replace_from 0 (String ESC_char t) new (a +:+ b) =
  a +:+ Str.replace_from 0 (String ESC_char t) new b.
Proof.
  induction a as [|c a IH]; intros Ha; [reflexivity|].
  apply plain_cons in Ha as [Hc Ha].
  rewrite !str_app_cons.
  change (Str.replace_from 0 ?o new (String c ?s))
    with (if String.prefix o (String c s)
          then new +:+ Str.replace_from (Nat.pred (String.length o)) o new s
          else String c (Str.replace_from 0 o new s)).
  rewrite prefix_code_plain by assumption. now rewrite IH.
Qed.

Lemma replace_from_skip (old new t b : string) :
  Str.replace_from (String.length t) old new (t +:+ b) =
  Str.replace_from 0 old new b.
Proof. induction t as [|c t IH]; [reflexivity|]. exact IH. Qed.

Lemma prefix_app (s t : string) : String.prefix s (s +:+ t) = true.
Proof.
  induction s as [|c s IH]; [destruct t; reflexivity|].
  rewrite str_app_cons.
  change (String.prefix (String c s) (String c (s +:+ t)))
    with (if ascii_dec c c then String.prefix s (s +:+ t) else false).
  destruct (ascii_dec c c); [exact IH|congruence].
Qed.

(** An occurrence of the code at the front is removed. *)
Lemma replace_from_self (t b : string) :
  Str.replace_from 0 (String ESC_char t) "" (String ESC_char t +:+ b) =
  Str.replace_from 0 (String ESC_char t) "" b.
Proof.
  rewrite str_app_cons.
  change (Str.replace_from 0 ?o "" (String ?c ?s))
    with (if String.prefix o (String c s)
          then "" +:+ Str.replace_from (Nat.pred (String.length o)) o "" s
          else String c (Str.replace_from 0 o "" s)).
  rewrite <- str_app_cons, prefix_app, str_app_nil_l.
  apply replace_from_skip.
Qed.

(** Another code at the front is kept. *)
Lemma replace_from_other (t t' new b : string) :
  String.prefix (String ESC_char t) (String ESC_char t' +:+ b) = false ->
  plain t' ->
  Str.replace_from 0 (String ESC_char t) new (String ESC_char t' +:+ b) =
  String ESC_char t' +:+ Str.replace_from 0 (String ESC_char t) new b.
Proof.
  intros Hp Ht'. rewrite str_app_cons in *.
  change (Str.replace_from 0 ?o new (String ?c ?s))
    with (if String.prefix o (String c s)
          then new +:+ Str.replace_from (Nat.pred (String.length o)) o new s
          else String c (Str.replace_from 0 o new s)).
  rewrite Hp. now rewrite replace_from_app_plain.
Qed.

Lemma code_str_shape (k : code) :
  exists t, code_str k = String ESC_char t /\ plain t.
Proof. destruct k; eexists; split; reflexivity. Qed.

Lemma code_str_differ (k o : code) (b : string) :
  code_eqb k o = false -> String.prefix (code_str k) (code_str o +:+ b) = false.
Proof. destruct k, o; intros H; try discriminate H; reflexivity. Qed.

Lemma code_eqb_eq (k o : code) : code_eqb k o = true -> k = o.
Proof. destruct k, o; intros H; try discriminate H; reflexivity. Qed.

Lemma replace_from_code (k : code) (t : string) (ps : list piece) :
  code_str k = String ESC_char t ->
  Forall plain_piece ps ->
  Str.replace_from 0 (String ESC_char t) "" (render ps) = render (without k ps).
Proof.
  intros Hk. induction 1 as [|p ps Hp Hps IH]; [reflexivity|].
  destruct p as [s|o]; simpl.
  - rewrite replace_from_app_plain by exact Hp. now rewrite IH.
  - destruct (code_eqb k o) eqn:E; simpl.
    + apply code_eqb_eq in E as <-.
      rewrite Hk, replace_from_self. exact IH.
    + destruct (code_str_shape o) as (t' & Ho & Ht').
      pose proof (code_str_differ k o (render ps) E) as Hd.
      rewrite Hk, Ho in Hd. rewrite Ho.
      rewrite replace_from_other by assumption. now rewrite IH.
Qed.

(** One pass of [stripFormatting] removes one code from a formatted text. *)
Lemma replace_code (k : code) (ps : list piece) :
  Forall plain_piece ps ->
  Str.replace (code_str k) "" (render ps) = render (without k ps).
Proof.
  destruct (code_str_shape k) as (t & Hk & Ht).
  rewrite Hk. apply replace_from_code, Hk.
Qed.

Lemma without_plain (k : code) (ps : list piece) :
  Forall plain_piece ps -> Forall plain_piece (without k ps).
Proof.
  intros H. apply Forall_forall. intros p Hp.
  apply list_elem_of_In, filter_In in Hp as [Hp _].
  rewrite Forall_forall in H. apply H, list_elem_of_In, Hp.
Qed.

Lemma without_all (ps : list piece) :
  render (without cUNDERLINE (without cBOLD (without cENDC (without cFAIL
    (without cWARNING (without cOKGREEN (without cOKBLUE
      (without cHEADER ps)))))))) = texts ps.
Proof.
  induction ps as [|[s|[]] ps IH]; simpl; try exact IH; try reflexivity.
  now rewrite <- IH.
Qed.

(** The eight passes of [stripFormatting] on a formatted text. *)
Lemma stripFormatting_pieces (ps : list piece) :
  Forall plain_piece ps ->
  bcolors.stripFormatting (render ps) = texts ps.
Proof.
  intros H. unfold bcolors.stripFormatting. cbv zeta.
  rewrite (replace_code cHEADER) by assumption.
  rewrite (replace_code cOKBLUE) by auto using without_plain.
  rewrite (replace_code cOKGREEN) by auto using without_plain.
  rewrite (replace_code cWARNING) by auto using without_plain.
  rewrite (replace_code cFAIL) by auto using without_plain.
  rewrite (replace_code cENDC) by auto 7 using without_plain.
  rewrite (replace_code cBOLD) by auto 8 using without_plain.
  rewrite (replace_code cUNDERLINE) by auto 9 using without_plain.
  apply without_all.
Qed.

(** X2.  [stripFormatting] removes every formatting code from a text
    made of the eight codes and of pieces of text without an escape
    character, and leaves the text of the pieces. *)
Theorem stripFormatting_render (ps : list piece) :
  Forall plain_piece ps ->
  bcolors.stripFormatting (render ps) = texts ps.
Proof.
  intros H. unfold bcolors.stripFormatting. cbv zeta.
  rewrite (replace_code cHEADER) by assumption.
  rewrite (replace_code cOKBLUE) by auto using without_plain.
  rewrite (replace_code cOKGREEN) by auto using without_plain.
  rewrite (replace_code cWARNING) by auto using without_plain.
  rewrite (replace_code cFAIL) by auto using without_plain.
  rewrite (replace_code cENDC) by auto 7 using without_plain.
  rewrite (replace_code cBOLD) by auto 8 using without_plain.
  rewrite (replace_code cUNDERLINE) by auto 9 using without_plain.
  apply without_all.
Qed.

Lemma stripFormatting_render_witness :
  Forall plain_piece [Text "a.sv: "; Code cFAIL; Text "failed"; Code cENDC] /\
  bcolors.stripFormatting
    (render [Text "a.sv: "; Code cFAIL; Text "failed"; Code cENDC]) =
  texts [Text "a.sv: "; Code cFAIL; Text "failed"; Code cENDC].
Proof.
  assert (Forall plain_piece [Text "a.sv: "; Code cFAIL; Text "failed"; Code cENDC])
    as H by (repeat constructor).
  split; [exact H|]. exact (stripFormatting_render _ H).
Defined.

(** X3.  Text without an escape character passes through
    [stripFormatting] unchanged. *)
Theorem stripFormatting_plain (s : string) :
  plain s -> bcolors.stripFormatting s = s.
Proof.
  intros H.
  assert (Forall plain_piece [Text s]) as Hps by (repeat constructor; exact H).
  pose proof (stripFormatting_pieces _ Hps) as E. simpl in E.
  now rewrite !str_app_nil_r in E.
Qed.

Lemma stripFormatting_plain_witness :
  plain "hw3: 2 files" /\ bcolors.stripFormatting "hw3: 2 files" = "hw3: 2 files".
Proof.
  assert (plain "hw3: 2 files") as H by reflexivity.
  split; [exact H|]. exact (stripFormatting_plain _ H).
Defined.

(** X4.  The diagnostic of [getOpError] is the file name, a colon and a
    message between the codes FAIL and ENDC; for a name without an escape
    character, [stripFormatting] leaves the name, the colon and the message. *)
Theorem getOpError_stripped (mainFile : string) (errType : Z) :
  plain mainFile ->
  exists message,
    plain message /\
    getOpError mainFile errType =
      mainFile +:+ ": " +:+ bcolors.FAIL +:+ message +:+ bcolors.ENDC /\
    bcolors.stripFormatting (getOpError mainFile errType) =
      mainFile +:+ ": " +:+ message.
Proof.
  intros Hf. unfold getOpError.
  set (m := if (errType =? ERR_NOEXIST)%Z then _ else _).
  assert (plain m) as Hm
    by (subst m; repeat (destruct (_ =? _)%Z; [reflexivity|]); reflexivity).
  exists m. split; [exact Hm|]. split; [reflexivity|].
  assert (Forall plain_piece
            [Text mainFile; Text ": "; Code cFAIL; Text m; Code cENDC]) as Hps
    by (repeat constructor; assumption).
  pose proof (stripFormatting_pieces _ Hps) as E. simpl in E.
  rewrite !str_app_nil_r in E. exact E.
Qed.

Lemma getOpError_stripped_witness :
  plain "adder.sv" /\
  exists message,
    plain message /\
    getOpError "adder.sv" ERR_NOCOMPILE =
      "adder.sv" +:+ ": " +:+ bcolors.FAIL +:+ message +:+ bcolors.ENDC /\
    bcolors.stripFormatting (getOpError "adder.sv" ERR_NOCOMPILE) =
      "adder.sv" +:+ ": " +:+ message.
Proof.
  assert (plain "adder.sv") as H by reflexivity.
  split; [exact H|]. exact (getOpError_stripped _ ERR_NOCOMPILE H).
Defined.

(** X5.  [error] and [warning] put a coloured label before the message;
    stripped of the formatting, a message without an escape character
    reads [ERROR: message] and [WARNING: message]. *)
Theorem error_warning_stripped (message : string) :
  plain message ->
  bcolors.stripFormatting (error message) = "ERROR: " +:+ message /\
  bcolors.stripFormatting (warning message) = "WARNING: " +:+ message.
Proof.
  intros Hm. split.
  - assert (Forall plain_piece
              [Code cFAIL; Text "ERROR: "; Code cENDC; Text message]) as Hps
      by (repeat constructor; assumption).
    pose proof (stripFormatting_pieces _ Hps) as E. simpl in E.
    rewrite !str_app_nil_r in E. exact E.
  - assert (Forall plain_piece
              [Code cWARNING; Text "WARNING: "; Code cENDC; Text message]) as Hps
      by (repeat constructor; assumption).
    pose proof (stripFormatting_pieces _ Hps) as E. simpl in E.
    rewrite !str_app_nil_r in E. exact E.
Qed.

Lemma error_warning_stripped_witness :
  plain "no such file" /\
  bcolors.stripFormatting (error "no such file") = "ERROR: " +:+ "no such file" /\
  bcolors.stripFormatting (warning "no such file") = "WARNING: " +:+ "no such file".
Proof.
  assert (plain "no such file") as H by reflexivity.
  split; [exact H|]. exact (error_warning_stripped _ H).
Defined.

(** ** Runs over an array of operations *)

Lemma clearErrors_flag_errors (texts : list string) (op : Operation) :
  clearErrors (flag_errors texts op) = clearErrors op.
Proof.
  revert op. induction texts as [|t ts IH]; intros op; [reflexivity|].
  simpl. rewrite IH. now destruct op.
Qed.

Lemma clearErrors_idem (op : Operation) : clearErrors (clearErrors op) = clearErrors op.
Proof. now destruct op. Qed.

(** What a call of [do] on a cleared operation hands back. *)
Lemma call_do_cleared
    (sv_checkInterface : string -> string -> option (list string) -> string)
    (run_process : list string -> ProcResult) (with_suffix_empty : string -> string)
    (op op' : Operation) (w w1 : World) (s : string) :
  call (do sv_checkInterface run_process with_suffix_empty) (clearErrors op) w =
    (w1, Ok (op', s)) ->
  clearErrors op' = clearErrors op /\
  s = (if hasErrors op' then err op' +:+ nl else "").
Proof.
  intros Hrun. unfold call in Hrun.
  destruct (do_spec sv_checkInterface run_process with_suffix_empty
              (clearErrors op) w eq_refl) as (w2 & Hdo & _).
  rewrite Hdo in Hrun.
  destruct (do_outcome sv_checkInterface run_process with_suffix_empty
              (clearErrors op) w) as [[texts cmds] e].
  unfold do_result in Hrun.
  destruct e as [e|]; [discriminate Hrun|].
  destruct texts as [|t ts]; injection Hrun as <- <- <-.
  - split; [apply clearErrors_idem|reflexivity].
  - change (flag_errors ts (flag_error t (clearErrors op)))
      with (flag_errors (t :: ts) (clearErrors op)).
    rewrite (clearErrors_flag_errors (t :: ts)), clearErrors_idem, flag_errors_nonempty.
    split; reflexivity.
Qed.

Lemma cat_app (l1 l2 : list string) : cat (l1 ++ l2) = cat l1 +:+ cat l2.
Proof.
  induction l1 as [|s l1 IH]; simpl; [now rewrite str_app_nil_l|].
  now rewrite IH, str_app_assoc.
Qed.

Lemma doOpArray_loop
    (sv_checkInterface : string -> string -> option (list string) -> string)
    (run_process : list string -> ProcResult) (with_suffix_empty : string -> string)
    (ops : list Operation) :
  forall (acc : list Operation * (gset string * bool * string)) (w w' : World)
         (res : list Operation * (gset string * bool * string)),
    for_each ops (doOpArray_body sv_checkInterface run_process with_suffix_empty)
      acc w = (w', Ok res) ->
    exists ops',
      res.1 = acc.1 ++ ops' /\
      map clearErrors ops' = map clearErrors ops /\
      res.2.1.1 = acc.2.1.1 ∪ files_named ops /\
      res.2.1.2 = acc.2.1.2 || existsb hasErrors ops' /\
      res.2.2 = acc.2.2 +:+ cat (map op_report ops').
Proof.
  induction ops as [|op ops IH]; intros acc w w' res Hrun; simpl in Hrun.
  - unfold ret in Hrun. injection Hrun as <- <-. exists [].
    rewrite app_nil_r, orb_false_r, str_app_nil_r.
    repeat split. unfold files_named. simpl. set_solver.
  - unfold bind at 1 in Hrun.
    destruct acc as [done [[files any] out]].
    unfold doOpArray_body at 1 in Hrun. unfold bind at 1 in Hrun.
    destruct (call _ (clearErrors op) w) as [w1 [[op' s]|e]] eqn:Hcall;
      [|discriminate Hrun].
    apply call_do_cleared in Hcall as [Hclear Hs].
    assert (files_of (existFiles (clearErrors op)) = files_of (existFiles op))
      as Hex by now destruct op.
    assert (files_of (compileFiles (clearErrors op)) = files_of (compileFiles op))
      as Hco by now destruct op.
    rewrite Hex, Hco in Hrun.
    destruct (hasErrors op') eqn:Herr; unfold ret in Hrun;
      apply IH in Hrun as (ops' & H1 & H2 & H3 & H4 & H5);
      exists (op' :: ops'); cbn [fst snd] in *;
      (split; [now rewrite H1, <- app_assoc|]);
      (split; [simpl; now rewrite Hclear, H2|]);
      (split; [rewrite H3; unfold files_named; simpl; set_solver|]);
      (split; [rewrite H4; simpl; rewrite Herr; now destruct any|]);
      rewrite H5; simpl; unfold op_report at 2; rewrite Herr.
    + subst s. now rewrite !str_app_assoc.
    + now rewrite str_app_nil_l.
Qed.

(** X6.  When [doOpArray] returns, it hands back one operation per
    operation given, with the same configuration; the files to submit are
    the [existFiles] and [compileFiles] of all of them, the flag says
    whether some operation ended with an error, and the text is made of
    the header and the error text of each operation that did, in order. *)
Theorem doOpArray_summary
    (sv_checkInterface : string -> string -> option (list string) -> string)
    (run_process : list string -> ProcResult) (with_suffix_empty : string -> string)
    (ops ops' : list Operation) (w w' : World)
    (filesToSubmit : gset string) (anyErrors : bool) (errStringTotal : string) :
  doOpArray sv_checkInterface run_process with_suffix_empty ops w =
    (w', Ok (ops', (filesToSubmit, anyErrors, errStringTotal))) ->
  map clearErrors ops' = map clearErrors ops /\
  filesToSubmit = files_named ops /\
  anyErrors = existsb hasErrors ops' /\
  errStringTotal = cat (map op_report ops').
Proof.
  intros Hrun. apply doOpArray_loop in Hrun as (l & H1 & H2 & H3 & H4 & H5).
  cbn [fst snd] in *. simpl in H1. subst l.
  split; [exact H2|]. split; [rewrite H3; set_solver|].
  split; [exact H4|]. now rewrite H5, str_app_nil_l.
Qed.

Lemma doOpArray_summary_witness :
  exists w' ops' filesToSubmit anyErrors errStringTotal,
    doOpArray lenient_compare tools_ok stem [problem1; problem2] student_world =
      (w', Ok (ops', (filesToSubmit, anyErrors, errStringTotal))) /\
    map clearErrors ops' = map clearErrors [problem1; problem2] /\
    filesToSubmit = files_named [problem1; problem2] /\
    anyErrors = existsb hasErrors ops' /\
    errStringTotal = cat (map op_report ops').
Proof.
  assert (exists w' ops' filesToSubmit anyErrors errStringTotal,
    doOpArray lenient_compare tools_ok stem [problem1; problem2] student_world =
      (w', Ok (ops', (filesToSubmit, anyErrors, errStringTotal))))
    as (w' & ops' & fs & any & errs & Hrun)
    by (eexists _, _, _, _, _; vm_compute; reflexivity).
  exists w', ops', fs, any, errs. split; [exact Hrun|].
  exact (doOpArray_summary lenient_compare tools_ok stem _ _ _ _ _ _ _ Hrun).
Defined.

Lemma checkStudent_report_loop
    (sv_checkInterface : string -> string -> option (list string) -> string)
    (run_process : list string -> ProcResult) (with_suffix_empty : string -> string)
    (ops : list Operation) :
  forall (acc : list Operation * (bool * string)) (w w' : World)
         (res : list Operation * (bool * string)),
    for_each ops (checkStudent_body sv_checkInterface run_process with_suffix_empty)
      acc w = (w', Ok res) ->
    exists ops',
      res.1 = acc.1 ++ ops' /\
      map clearErrors ops' = map clearErrors ops /\
      res.2.1 = acc.2.1 || existsb hasErrors ops' /\
      res.2.2 = acc.2.2 +:+ cat (map op_report ops').
Proof.
  induction ops as [|op ops IH]; intros acc w w' res Hrun; simpl in Hrun.
  - unfold ret in Hrun. injection Hrun as <- <-. exists [].
    rewrite app_nil_r, orb_false_r, str_app_nil_r. repeat split.
  - unfold bind at 1 in Hrun.
    destruct acc as [done [any out]].
    unfold checkStudent_body at 1 in Hrun. unfold bind at 1 in Hrun.
    destruct (call _ (clearErrors op) w) as [w1 [[op' s]|e]] eqn:Hcall;
      [|discriminate Hrun].
    apply call_do_cleared in Hcall as [Hclear Hs].
    destruct (hasErrors op') eqn:Herr; unfold ret in Hrun;
      apply IH in Hrun as (ops' & H1 & H2 & H3 & H4);
      exists (op' :: ops'); cbn [fst snd] in *;
      (split; [now rewrite H1, <- app_assoc|]);
      (split; [simpl; now rewrite Hclear, H2|]);
      (split; [rewrite H3; simpl; rewrite Herr; now destruct any|]);
      rewrite H4; simpl; unfold op_report at 2; rewrite Herr.
    + subst s. now rewrite !str_app_assoc.
    + now rewrite str_app_nil_l.
Qed.

(** A run of [checkStudent] that returns, taken apart. *)
Lemma checkStudent_returns
    (sv_checkInterface : string -> string -> option (list string) -> string)
    (run_process : list string -> ProcResult) (with_suffix_empty : string -> string)
    (studentDir hwNum : string) (ops ops' : list Operation) (w w' : World)
    (hasAnyErrors : bool) (personalOutput : string) :
  checkStudent sv_checkInterface run_process with_suffix_empty studentDir ops hwNum w =
    (w', Ok (ops', (hasAnyErrors, personalOutput))) ->
  exists w0 w1,
    for_each ops (checkStudent_body sv_checkInterface run_process with_suffix_empty)
      ([], (false, getOutputHeader studentDir hwNum)) w0 =
      (w1, Ok (ops', (hasAnyErrors, personalOutput))).
Proof.
  intros Hrun. unfold checkStudent in Hrun.
  unfold bind at 1, os.getcwd at 1 in Hrun.
  unfold bind at 1, os.chdir at 1 in Hrun.
  unfold bind at 1, os.print at 1 in Hrun.
  unfold bind at 1 in Hrun.
  match type of Hrun with
  | context [for_each ops ?body ?acc ?w0] =>
      exists w0;
      destruct (for_each ops body acc w0) as [w1 [[ops1 [any1 out1]]|e]] eqn:Hloop;
      [|discriminate]
  end.
  exists w1. unfold bind at 1 in Hrun.
  match type of Hrun with
  | context [match ?m w1 with _ => _ end] =>
      destruct (m w1) as [w2 [[]|e]]; [|discriminate]
  end.
  unfold bind, os.chdir, ret in Hrun. simpl in Hrun.
  now injection Hrun as <- <- <- <-.
Qed.

(** X7.  When [checkStudent] returns, the operations keep their
    configuration, the flag says whether some operation ended with an
    error, and the report is the header of the student followed, for each
    operation that ended with an error and in order, by the header of the
    problem and its error text. *)
Theorem checkStudent_report
    (sv_checkInterface : string -> string -> option (list string) -> string)
    (run_process : list string -> ProcResult) (with_suffix_empty : string -> string)
    (studentDir hwNum : string) (ops ops' : list Operation) (w w' : World)
    (hasAnyErrors : bool) (personalOutput : string) :
  checkStudent sv_checkInterface run_process with_suffix_empty studentDir ops hwNum w =
    (w', Ok (ops', (hasAnyErrors, personalOutput))) ->
  map clearErrors ops' = map clearErrors ops /\
  hasAnyErrors = existsb hasErrors ops' /\
  personalOutput = getOutputHeader studentDir hwNum +:+ cat (map op_report ops').
Proof.
  intros Hrun. apply checkStudent_returns in Hrun as (w0 & w1 & Hloop).
  apply checkStudent_report_loop in Hloop as (l & H1 & H2 & H3 & H4).
  cbn [fst snd] in *. simpl in H1. subst l. auto.
Qed.

Lemma checkStudent_report_witness :
  exists w' ops' hasAnyErrors personalOutput,
    checkStudent lenient_compare tools_ok stem "s" [problem1; problem2] "hw1"
      handin_world = (w', Ok (ops', (hasAnyErrors, personalOutput))) /\
    map clearErrors ops' = map clearErrors [problem1; problem2] /\
    hasAnyErrors = existsb hasErrors ops' /\
    personalOutput = getOutputHeader "s" "hw1" +:+ cat (map op_report ops').
Proof.
  assert (exists w' ops' hasAnyErrors personalOutput,
    checkStudent lenient_compare tools_ok stem "s" [problem1; problem2] "hw1"
      handin_world = (w', Ok (ops', (hasAnyErrors, personalOutput))))
    as (w' & ops' & any & out & Hrun)
    by (eexists _, _, _, _; vm_compute; reflexivity).
  exists w', ops', any, out. split; [exact Hrun|].
  exact (checkStudent_report lenient_compare tools_ok stem _ _ _ _ _ _ _ _ Hrun).
Defined.

Lemma for_each_cleared {B : Type}
    (body : B -> Operation -> M World B) (ops1 : list Operation) :
  (forall acc op, body acc op = body acc (clearErrors op)) ->
  forall (ops2 : list Operation) (acc : B) (w : World),
    map clearErrors ops1 = map clearErrors ops2 ->
    for_each ops1 body acc w = for_each ops2 body acc w.
Proof.
  intros Hbody. induction ops1 as [|o1 ops1 IH]; intros [|o2 ops2] acc w Heq;
    try discriminate Heq; [reflexivity|].
  pose proof (f_equal (fun l => match l with x :: _ => x | [] => clearErrors o1 end) Heq)
    as Ho.
  pose proof (f_equal (@tail _) Heq) as Hrest.
  cbn [map tail] in Ho, Hrest. simpl. unfold bind.
  rewrite (Hbody acc o1), (Hbody acc o2), Ho.
  destruct (body acc (clearErrors o2) w) as [w1 [acc1|e]]; [|reflexivity].
  now apply IH.
Qed.

(** X8.  The error state a run leaves on the operations does not reach
    the next run: [checkStudent] and [doOpArray] behave on the operations
    a run of [checkStudent] hands back as on the operations it was given. *)
Theorem checkStudent_reuse
    (sv_checkInterface : string -> string -> option (list string) -> string)
    (run_process : list string -> ProcResult) (with_suffix_empty : string -> string)
    (studentDir hwNum : string) (ops ops' : list Operation) (w w' : World)
    (hasAnyErrors : bool) (personalOutput : string) :
  checkStudent sv_checkInterface run_process with_suffix_empty studentDir ops hwNum w =
    (w', Ok (ops', (hasAnyErrors, personalOutput))) ->
  forall (nextDir nextHw : string) (w2 : World),
    checkStudent sv_checkInterface run_process with_suffix_empty nextDir ops' nextHw w2 =
    checkStudent sv_checkInterface run_process with_suffix_empty nextDir ops nextHw w2 /\
    doOpArray sv_checkInterface run_process with_suffix_empty ops' w2 =
    doOpArray sv_checkInterface run_process with_suffix_empty ops w2.
Proof.
  intros Hrun nextDir nextHw w2.
  apply checkStudent_returns in Hrun as (w0 & w1 & Hloop).
  apply checkStudent_report_loop in Hloop as (l & H1 & H2 & _).
  cbn [fst snd] in *. simpl in H1. subst l.
  split.
  - assert (forall acc op,
              checkStudent_body sv_checkInterface run_process with_suffix_empty acc op =
              checkStudent_body sv_checkInterface run_process with_suffix_empty acc
                (clearErrors op)) as Hbody
      by (intros [? [? ?]] op; unfold checkStudent_body; now rewrite clearErrors_idem).
    unfold checkStudent, bind, os.getcwd, os.chdir, os.print.
    now rewrite (for_each_cleared _ ops' Hbody ops _ _ H2).
  - unfold doOpArray.
    apply for_each_cleared; [|exact H2].
    intros [? [[? ?] ?]] op. unfold doOpArray_body.
    rewrite clearErrors_idem. now destruct op.
Qed.

Lemma checkStudent_reuse_witness :
  exists w' ops' hasAnyErrors personalOutput,
    checkStudent lenient_compare tools_ok stem "s" [problem1; problem2] "hw1"
      handin_world = (w', Ok (ops', (hasAnyErrors, personalOutput))) /\
    ops' <> [problem1; problem2] /\
    checkStudent lenient_compare tools_ok stem "s" ops' "hw1" w' =
    checkStudent lenient_compare tools_ok stem "s" [problem1; problem2] "hw1" w' /\
    doOpArray lenient_compare tools_ok stem ops' w' =
    doOpArray lenient_compare tools_ok stem [problem1; problem2] w'.
Proof.
  assert (exists w' ops' hasAnyErrors personalOutput,
    checkStudent lenient_compare tools_ok stem "s" [problem1; problem2] "hw1"
      handin_world = (w', Ok (ops', (hasAnyErrors, personalOutput))) /\
    ops' <> [problem1; problem2])
    as (w' & ops' & any & out & Hrun & Hne)
    by (eexists _, _, _, _; split; [vm_compute; reflexivity|discriminate]).
  exists w', ops', any, out. split; [exact Hrun|]. split; [exact Hne|].
  exact (checkStudent_reuse lenient_compare tools_ok stem _ _ _ _ _ _ _ _ Hrun
           "s" "hw1" w').
Defined.

(** ** The array of operations *)

Lemma decorate_Ok (config : list Problem) (l : list (option Z * Problem)) :
  decorate config = Ok l ->
  map snd l = config /\ Forall (fun kp => p_number kp.2 = Some kp.1) l.
Proof.
  revert l. induction config as [|p config IH]; intros l H; simpl in H.
  - injection H as <-. split; [reflexivity|constructor].
  - unfold number_key, getitem in H.
    destruct (p_number p) as [k|] eqn:Hk; [|discriminate H].
    destruct (decorate config) as [l'|e]; [|discriminate H].
    injection H as <-. destruct (IH l' eq_refl) as [IH1 IH2].
    split; [simpl; now rewrite IH1|]. constructor; assumption.
Qed.

Lemma comparable_Ok (l : list (option Z * Problem)) (r : list (Z * Problem)) :
  comparable l = Ok r -> l = map (fun x => (Some x.1, x.2)) r.
Proof.
  revert r. induction l as [|[[n|] p] l IH]; intros r H; simpl in H.
  - now injection H as <-.
  - destruct (comparable l) as [r'|e]; [|discriminate H].
    injection H as <-. simpl. now rewrite (IH r' eq_refl).
  - discriminate H.
Qed.

Lemma insert_by_key_perm (x : Z * Problem) (l : list (Z * Problem)) :
  insert_by_key x l ≡ₚ x :: l.
Proof.
  induction l as [|y l IH]; simpl; [reflexivity|].
  destruct (x.1 <? y.1)%Z; [reflexivity|].
  rewrite IH. apply Permutation_swap.
Qed.

Lemma foldl_insert_perm (l acc : list (Z * Problem)) :
  foldl (fun acc x => insert_by_key x acc) acc l ≡ₚ acc ++ l.
Proof.
  revert acc. induction l as [|x l IH]; intros acc; simpl.
  - now rewrite app_nil_r.
  - rewrite IH, insert_by_key_perm. simpl. apply Permutation_middle.
Qed.

Lemma sort_by_key_perm (l : list (Z * Problem)) : sort_by_key l ≡ₚ l.
Proof. unfold sort_by_key. now rewrite foldl_insert_perm. Qed.

Lemma insert_by_key_sorted (x : Z * Problem) (l : list (Z * Problem)) :
  StronglySorted (fun a b => (a.1 <= b.1)%Z) l ->
  StronglySorted (fun a b => (a.1 <= b.1)%Z) (insert_by_key x l).
Proof.
  induction 1 as [|y l Hs IH Hy]; simpl; [repeat constructor|].
  destruct (x.1 <? y.1)%Z eqn:E.
  - apply Z.ltb_lt in E. constructor; [now constructor|].
    constructor; [lia|]. eapply Forall_impl; [exact Hy|]. simpl. intros; lia.
  - apply Z.ltb_ge in E. constructor; [exact IH|].
    rewrite insert_by_key_perm. constructor; assumption.
Qed.

Lemma foldl_insert_sorted (l acc : list (Z * Problem)) :
  StronglySorted (fun a b => (a.1 <= b.1)%Z) acc ->
  StronglySorted (fun a b => (a.1 <= b.1)%Z)
    (foldl (fun acc x => insert_by_key x acc) acc l).
Proof.
  revert acc. induction l as [|x l IH]; intros acc H; simpl; [exact H|].
  apply IH, insert_by_key_sorted, H.
Qed.

Lemma filter_key_above (n m : Z) (l : list (Z * Problem)) :
  (n < m)%Z -> Forall (fun b => (m <= b.1)%Z) l ->
  List.filter (fun y => (y.1 =? n)%Z) l = [].
Proof.
  intros Hn. induction 1 as [|z l Hz Hl IH]; [reflexivity|]. cbn [List.filter].
  assert ((z.1 =? n)%Z = false) as -> by (apply Z.eqb_neq; lia). exact IH.
Qed.

(** The sort is stable: the records of one key keep their order. *)
Lemma insert_by_key_stable (n : Z) (x : Z * Problem) (l : list (Z * Problem)) :
  StronglySorted (fun a b => (a.1 <= b.1)%Z) l ->
  List.filter (fun y => (y.1 =? n)%Z) (insert_by_key x l) =
  List.filter (fun y => (y.1 =? n)%Z) l ++ List.filter (fun y => (y.1 =? n)%Z) [x].
Proof.
  induction 1 as [|y l Hs IH Hy]; [reflexivity|].
  cbn [insert_by_key]. destruct (x.1 <? y.1)%Z eqn:E.
  - apply Z.ltb_lt in E. cbn [List.filter].
    destruct (x.1 =? n)%Z eqn:Ex; [|now rewrite app_nil_r].
    apply Z.eqb_eq in Ex.
    assert ((y.1 =? n)%Z = false) as -> by (apply Z.eqb_neq; lia).
    rewrite (filter_key_above n (y.1)); [reflexivity|lia|exact Hy].
  - cbn [List.filter]. rewrite IH. now destruct (y.1 =? n)%Z.
Qed.

Lemma foldl_insert_stable (n : Z) (l acc : list (Z * Problem)) :
  StronglySorted (fun a b => (a.1 <= b.1)%Z) acc ->
  List.filter (fun y => (y.1 =? n)%Z) (foldl (fun acc x => insert_by_key x acc) acc l) =
  List.filter (fun y => (y.1 =? n)%Z) acc ++ List.filter (fun y => (y.1 =? n)%Z) l.
Proof.
  revert acc. induction l as [|x l IH]; intros acc H; simpl.
  - now rewrite app_nil_r.
  - rewrite IH by now apply insert_by_key_sorted.
    rewrite insert_by_key_stable by exact H.
    rewrite <- app_assoc. cbn [List.filter]. now destruct (x.1 =? n)%Z.
Qed.

Lemma sort_by_key_sorted (l : list (Z * Problem)) :
  StronglySorted (fun a b => (a.1 <= b.1)%Z) (sort_by_key l).
Proof. apply foldl_insert_sorted. constructor. Qed.

Lemma sort_by_key_stable (n : Z) (l : list (Z * Problem)) :
  List.filter (fun y => (y.1 =? n)%Z) (sort_by_key l) =
  List.filter (fun y => (y.1 =? n)%Z) l.
Proof. unfold sort_by_key. rewrite foldl_insert_stable; [reflexivity|constructor]. Qed.

Lemma checkWildcard_number (glob_glob : string -> list string) (op : Operation) :
  number (checkWildcard glob_glob op) = number op.
Proof.
  unfold checkWildcard.
  destruct op as [n ex co te sp rf he er uw sk si].
  destruct ex as [ex|], co as [co|]; reflexivity.
Qed.

(** The number of a parsed record is the number of the operation. *)
Lemma parseProblem_number (glob_glob : string -> list string)
    (refFilePath : option string) (skipCompile silent : bool)
    (p : Problem) (op : Operation) :
  parseProblem glob_glob (Operation_init refFilePath skipCompile silent) p = Ok op ->
  exists k, p_number p = Some k /\ number op = k.
Proof.
  unfold parseProblem, getitem. intros H.
  destruct (p_number p) as [k|]; [|discriminate H]. exists k. split; [reflexivity|].
  destruct (p_files p) as [v1|]; [|discriminate H].
  destruct (p_compileFiles p) as [v2|]; [|discriminate H].
  destruct (p_testFiles p) as [v3|]; [|discriminate H].
  destruct (p_specificModules p) as [v4|]; [|discriminate H].
  injection H as <-. rewrite checkWildcard_number.
  destruct k, v1, v2, v3, v4; reflexivity.
Qed.

Lemma makeOpArray_loop_Forall2 (glob_glob : string -> list string)
    (refFilePath : option string) (skipCompile silent : bool)
    (config : list Problem) (ops : list Operation) :
  makeOpArray_loop glob_glob config refFilePath skipCompile silent = Ok ops ->
  Forall2 (fun p op =>
    parseProblem glob_glob (Operation_init refFilePath skipCompile silent) p = Ok op)
    config ops.
Proof.
  revert ops. induction config as [|p config IH]; intros ops H; simpl in H.
  - injection H as <-. constructor.
  - destruct (parseProblem _ _ p) as [op|e] eqn:Hp; [|discriminate H].
    destruct (makeOpArray_loop _ config _ _ _) as [ops'|e]; [|discriminate H].
    injection H as <-. constructor; [exact Hp|]. now apply IH.
Qed.

Lemma Forall2_filter {A B : Type} (R : A -> B -> Prop) (f : A -> bool) (g : B -> bool)
    (l : list A) (k : list B) :
  (forall a b, R a b -> f a = g b) ->
  Forall2 R l k -> Forall2 R (List.filter f l) (List.filter g k).
Proof.
  intros Hfg. induction 1 as [|a b l k Hab Hlk IH]; [constructor|].
  cbn [List.filter]. rewrite (Hfg a b Hab). destruct (g b); [constructor|]; assumption.
Qed.

Lemma Forall2_sorted {A B : Type} (R : A -> B -> Prop)
    (P : A -> A -> Prop) (Q : B -> B -> Prop) (l : list A) (k : list B) :
  (forall a a' b b', R a b -> R a' b' -> P a a' -> Q b b') ->
  Forall2 R l k -> StronglySorted P l -> StronglySorted Q k.
Proof.
  intros HPQ. induction 1 as [|a b l k Hab Hlk IH]; intros Hs; [constructor|].
  inversion Hs as [|? ? Hs' Ha]; subst. constructor; [now apply IH|].
  clear IH Hs Hs'. induction Hlk as [|a' b' l k Hab' Hlk IH]; [constructor|].
  inversion Ha; subst. constructor; [eapply HPQ; eassumption|now apply IH].
Qed.

Lemma Forall2_with {A B : Type} (P : A -> Prop) (R : A -> B -> Prop)
    (l : list A) (k : list B) :
  Forall P l -> Forall2 R l k -> Forall2 (fun a b => P a /\ R a b) l k.
Proof.
  intros HP H. induction H as [|a b l k Hab Hlk IH]; [constructor|].
  inversion HP; subst. constructor; auto.
Qed.

Lemma records_of_keys (n : Z) (s : list (Z * Problem)) :
  Forall (fun kp => p_number kp.2 = Some (Some kp.1)) s ->
  records_of n (map snd s) = map snd (List.filter (fun y => (y.1 =? n)%Z) s).
Proof.
  unfold records_of. induction 1 as [|[k p] s Hk Hs IH]; [reflexivity|].
  cbn [map List.filter snd fst] in *. rewrite Hk, IH.
  destruct (Z.eqb_spec k n) as [->|Hne].
  - now rewrite bool_decide_eq_true_2.
  - rewrite bool_decide_eq_false_2; [reflexivity|]. intros [= ->]. now apply Hne.
Qed.

Lemma parsed_same_number (glob_glob : string -> list string)
    (refFilePath : option string) (skipCompile silent : bool) (n : Z)
    (p : Problem) (op : Operation) :
  parseProblem glob_glob (Operation_init refFilePath skipCompile silent) p = Ok op ->
  bool_decide (p_number p = Some (Some n)) = bool_decide (number op = Some n).
Proof.
  intros H. apply parseProblem_number in H as (k & Hp & Ho).
  apply bool_decide_ext. rewrite Hp, Ho. split; congruence.
Qed.

(** X9.  The array [makeOpArray] returns holds one operation per record
    of the configuration, each the parse of its record by a new
    operation; the operations are in ascending order of problem number,
    and operations of the same number keep the order of their records. *)
Theorem makeOpArray_sorted (glob_glob : string -> list string)
    (refFilePath : option string) (skipCompile silent : bool)
    (config : list Problem) (ops : list Operation) :
  makeOpArray glob_glob config refFilePath skipCompile silent = Ok ops ->
  let parsed p op :=
    parseProblem glob_glob (Operation_init refFilePath skipCompile silent) p = Ok op in
  StronglySorted number_le ops /\
  (exists config', config' ≡ₚ config /\ Forall2 parsed config' ops) /\
  forall n, Forall2 parsed (records_of n config) (ops_of n ops).
Proof.
  intros Hrun parsed. unfold makeOpArray, sorted_config in Hrun.
  destruct (decorate config) as [l|e] eqn:Hd; [|discriminate Hrun].
  apply decorate_Ok in Hd as [Hmap Hkeys].
  assert (forall c, makeOpArray_loop glob_glob c refFilePath skipCompile silent = Ok ops ->
            Forall2 parsed c ops) as Hloop
    by (intros c Hc; exact (makeOpArray_loop_Forall2 _ _ _ _ _ _ Hc)).
  assert (forall n c, Forall2 parsed c ops ->
            Forall2 parsed (records_of n c) (ops_of n ops)) as Hsame.
  { intros n c Hc. apply Forall2_filter; [|exact Hc].
    intros p op Hp. eapply parsed_same_number, Hp. }
  assert (length l <= 1 \/ exists x y l', l = x :: y :: l')%nat as [Hshort|Hlong].
  { destruct l as [|x [|y l']]; simpl; [left; lia|left; lia|right; eauto]. }
  - assert (Forall2 parsed config ops) as Hall
      by (apply Hloop; destruct l as [|x [|y l']]; simpl in Hshort; [exact Hrun..|lia]).
    split; [|split; [exists config; split; [reflexivity|exact Hall]|]].
    + assert (length ops <= 1)%nat as Hlen.
      { rewrite <- (Forall2_length _ _ _ Hall), <- Hmap, length_map. exact Hshort. }
      destruct ops as [|o [|o' ops]]; simpl in Hlen; [constructor| |lia].
      constructor; constructor.
    + intros n. now apply Hsame.
  - destruct Hlong as (x & y & l' & Hl).
    rewrite Hl in Hrun. rewrite <- Hl in Hrun.
    destruct (comparable l) as [r|e] eqn:Hc; [|discriminate Hrun].
    apply comparable_Ok in Hc.
    assert (config = map snd r) as Hcfg.
    { rewrite <- Hmap, Hc, map_map. reflexivity. }
    assert (Forall (fun kp => p_number kp.2 = Some (Some kp.1)) r) as Hr.
    { rewrite Hc in Hkeys. apply Forall_map in Hkeys. exact Hkeys. }
    assert (Forall (fun kp => p_number kp.2 = Some (Some kp.1)) (sort_by_key r)) as Hs
      by now rewrite sort_by_key_perm.
    apply Hloop in Hrun.
    split; [|split].
    + apply Forall2_fmap_l in Hrun.
      pose proof (Forall2_with _ _ _ _ Hs Hrun) as Hboth.
      eapply Forall2_sorted; [|exact Hboth|apply sort_by_key_sorted].
      intros a a' b b' [Ha Hab] [Ha' Hab'] Hle. simpl in *.
      apply parseProblem_number in Hab as (k & Hk & Hb).
      apply parseProblem_number in Hab' as (k' & Hk' & Hb').
      exists a.1, a'.1. split; [congruence|]. split; [congruence|exact Hle].
    + exists (map snd (sort_by_key r)). split; [|exact Hrun].
      rewrite Hcfg. apply Permutation_map, sort_by_key_perm.
    + intros n. rewrite Hcfg, (records_of_keys n r Hr).
      rewrite <- sort_by_key_stable, <- (records_of_keys n _ Hs).
      now apply Hsame.
Qed.

Lemma makeOpArray_sorted_witness :
  exists ops,
    makeOpArray (fnmatch.glob_in plain_dir) [record_b; record_a; record_c]
      None false true = Ok ops /\
    map number ops = [Some 1; Some 2; Some 2] /\
    map existFiles ops = [Some ["a.sv"; "b.sv"]; Some ["b.sv"]; Some ["c.sv"]] /\
    StronglySorted number_le ops.
Proof.
  assert (exists ops,
    makeOpArray (fnmatch.glob_in plain_dir) [record_b; record_a; record_c]
      None false true = Ok ops /\
    map number ops = [Some 1; Some 2; Some 2] /\
    map existFiles ops = [Some ["a.sv"; "b.sv"]; Some ["b.sv"]; Some ["c.sv"]])
    as (ops & Hrun & Hn & Hf)
    by (eexists; split; [vm_compute; reflexivity|split; reflexivity]).
  exists ops. split; [exact Hrun|]. split; [exact Hn|]. split; [exact Hf|].
  exact (proj1 (makeOpArray_sorted _ _ _ _ _ _ Hrun)).
Defined.

Lemma decorate_numbered (config : list Problem) :
  Forall numbered config ->
  exists r, decorate config = Ok (map (fun x => (Some x.1, x.2)) r) /\
            map snd r = config.
Proof.
  induction 1 as [|p config [n Hn] Hc (r & Hr & Hm)]; [exists []; split; reflexivity|].
  exists ((n, p) :: r). simpl. unfold number_key, getitem. rewrite Hn, Hr.
  split; [reflexivity|now rewrite Hm].
Qed.

Lemma comparable_keys (r : list (Z * Problem)) :
  comparable (map (fun x => (Some x.1, x.2)) r) = Ok r.
Proof.
  induction r as [|[n p] r IH]; [reflexivity|]. simpl. now rewrite IH.
Qed.

Lemma makeOpArray_loop_complete (glob_glob : string -> list string)
    (refFilePath : option string) (skipCompile silent : bool) (config : list Problem) :
  Forall complete config ->
  exists ops,
    makeOpArray_loop glob_glob config refFilePath skipCompile silent = Ok ops /\
    length ops = length config.
Proof.
  induction 1 as [|p config Hp Hc (ops & Hops & Hlen)]; [exists []; split; reflexivity|].
  destruct Hp as ([k Hk] & [v1 H1] & [v2 H2] & [v3 H3] & [v4 H4]).
  simpl. unfold parseProblem, getitem. rewrite Hk, H1, H2, H3, H4, Hops.
  eexists. split; [reflexivity|]. simpl. now rewrite Hlen.
Qed.

(** X10.  On a configuration whose records all have the five keys and
    an integer number, [makeOpArray] returns, with as many operations as
    there are records. *)
Theorem makeOpArray_total (glob_glob : string -> list string)
    (refFilePath : option string) (skipCompile silent : bool) (config : list Problem) :
  Forall complete config ->
  Forall numbered config ->
  exists ops,
    makeOpArray glob_glob config refFilePath skipCompile silent = Ok ops /\
    length ops = length config.
Proof.
  intros Hc Hn. unfold makeOpArray, sorted_config.
  destruct (decorate_numbered config Hn) as (r & -> & Hm).
  assert (forall c, c ≡ₚ config ->
    exists ops,
      makeOpArray_loop glob_glob c refFilePath skipCompile silent = Ok ops /\
      length ops = length config) as Hloop.
  { intros c Hperm.
    destruct (makeOpArray_loop_complete glob_glob refFilePath skipCompile silent c)
      as (ops & Hops & Hlen); [now rewrite Hperm|].
    exists ops. split; [exact Hops|]. now rewrite Hlen, Hperm. }
  destruct r as [|x [|y r]]; [now apply Hloop..|].
  change (map _ (x :: y :: r)) with
    ((Some x.1, x.2) :: (Some y.1, y.2) :: map (fun x => (Some x.1, x.2)) r).
  cbv beta iota.
  change ((Some x.1, x.2) :: (Some y.1, y.2) :: map (fun x => (Some x.1, x.2)) r)
    with (map (fun x : Z * Problem => (Some x.1, x.2)) (x :: y :: r)).
  rewrite comparable_keys. apply Hloop.
  rewrite <- Hm. apply Permutation_map, sort_by_key_perm.
Qed.

Lemma makeOpArray_total_witness :
  Forall complete [record_b; record_a; record_c] /\
  Forall numbered [record_b; record_a; record_c] /\
  exists ops,
    makeOpArray (fnmatch.glob_in plain_dir) [record_b; record_a; record_c]
      (Some "/ref") true false = Ok ops /\
    length ops = length [record_b; record_a; record_c].
Proof.
  assert (Forall complete [record_b; record_a; record_c]) as Hc
    by (repeat constructor; eexists; reflexivity).
  assert (Forall numbered [record_b; record_a; record_c]) as Hn
    by (repeat constructor; eexists; reflexivity).
  split; [exact Hc|]. split; [exact Hn|].
  exact (makeOpArray_total _ (Some "/ref") true false _ Hc Hn).
Defined.

(** X11.  A record without the key [number] makes [makeOpArray] raise
    [KeyError] for that key, wherever the record stands and whatever the
    other records hold. *)
Theorem makeOpArray_missing_number (glob_glob : string -> list string)
    (refFilePath : option string) (skipCompile silent : bool)
    (config : list Problem) (p : Problem) :
  p ∈ config ->
  p_number p = None ->
  makeOpArray glob_glob config refFilePath skipCompile silent = Raise (KeyError "number").
Proof.
  intros Hin Hp. unfold makeOpArray, sorted_config.
  assert (decorate config = Raise (KeyError "number")) as ->; [|reflexivity].
  induction Hin as [p config|p q config Hin IH]; simpl; unfold number_key, getitem.
  - now rewrite Hp.
  - destruct (p_number q); [|reflexivity]. now rewrite IH.
Qed.

Lemma makeOpArray_missing_number_witness :
  record_unnumbered ∈ [record_a; record_unnumbered; record_b] /\
  p_number record_unnumbered = None /\
  makeOpArray (fnmatch.glob_in plain_dir) [record_a; record_unnumbered; record_b]
    None false true = Raise (KeyError "number").
Proof.
  assert (record_unnumbered ∈ [record_a; record_unnumbered; record_b]) as Hin
    by (apply list_elem_of_further, list_elem_of_here).
  split; [exact Hin|]. split; [reflexivity|].
  exact (makeOpArray_missing_number _ None false true _ _ Hin eq_refl).
Defined.

Lemma comparable_null (l : list (option Z * Problem)) (kp : option Z * Problem) :
  kp ∈ l -> kp.1 = None -> comparable l = Raise TypeError.
Proof.
  intros Hin Hk. induction Hin as [[k p] l|[k p] [[n|] q] l Hin IH]; simpl in *.
  - now rewrite Hk.
  - now rewrite IH.
  - reflexivity.
Qed.

(** X12.  In a configuration of two records or more that all have the
    key [number], a record whose number is [null] makes [makeOpArray]
    raise [TypeError]: the sort cannot compare it. *)
Theorem makeOpArray_null_number (glob_glob : string -> list string)
    (refFilePath : option string) (skipCompile silent : bool)
    (config : list Problem) (p : Problem) :
  Forall (fun q => is_Some (p_number q)) config ->
  (2 <= length config)%nat ->
  p ∈ config ->
  p_number p = Some None ->
  makeOpArray glob_glob config refFilePath skipCompile silent = Raise TypeError.
Proof.
  intros Hkeys Hlen Hin Hp. unfold makeOpArray, sorted_config.
  assert (exists l, decorate config = Ok l /\ map snd l = config /\
                    Forall (fun kp => p_number kp.2 = Some kp.1) l)
    as (l & -> & Hm & Hl).
  { clear Hlen Hin. induction Hkeys as [|q config [k Hk] Hc (l & Hd & Hm & Hl)].
    - exists []. repeat split. constructor.
    - exists ((k, q) :: l). simpl. unfold number_key, getitem. rewrite Hk, Hd.
      split; [reflexivity|]. split; [simpl; now rewrite Hm|now constructor]. }
  assert ((None, p) ∈ l) as Hnull.
  { rewrite <- Hm in Hin. apply list_elem_of_fmap in Hin as ([k q] & -> & Hq).
    rewrite Forall_forall in Hl. specialize (Hl _ Hq). simpl in *.
    rewrite Hp in Hl. injection Hl as <-. exact Hq. }
  rewrite (comparable_null l _ Hnull eq_refl).
  rewrite <- Hm, length_map in Hlen.
  destruct l as [|x [|y l]]; simpl in Hlen; [lia..|reflexivity].
Qed.

Lemma makeOpArray_null_number_witness :
  Forall (fun q => is_Some (p_number q)) [record_a; record_null] /\
  (2 <= length [record_a; record_null])%nat /\
  record_null ∈ [record_a; record_null] /\
  p_number record_null = Some None /\
  makeOpArray (fnmatch.glob_in plain_dir) [record_a; record_null] None false true =
    Raise TypeError.
Proof.
  assert (Forall (fun q => is_Some (p_number q)) [record_a; record_null]) as Hk
    by (repeat constructor; eexists; reflexivity).
  assert (2 <= length [record_a; record_null])%nat as Hlen by (simpl; lia).
  assert (record_null ∈ [record_a; record_null]) as Hin
    by (apply list_elem_of_further, list_elem_of_here).
  split; [exact Hk|]. split; [exact Hlen|]. split; [exact Hin|]. split; [reflexivity|].
  exact (makeOpArray_null_number _ None false true _ _ Hk Hlen Hin eq_refl).
Defined.

(** ** The permissions of the handin directories *)

Ltac run_admin :=
  unfold attempt, try_except_called, try_finally, bind, when, check_call,
    os.print, ret; cbn [negb fst snd].

Lemma openStudentPerms_spec (run_process : list string -> ProcResult)
    (failure_text : list string -> string)
    (studentID path : string) (dryrun verbose : bool) (w : World) :
  let run := openStudentPerms run_process failure_text studentID path dryrun verbose w in
  (forall s, run.2 = Ok (Some s) <->
             s = studentID /\ dryrun = false /\
             open_refused run_process studentID path = true) /\
  calls run.1 =
    calls w ++ (if dryrun then [] else open_cmds run_process studentID path) /\
  files run.1 = files w /\ dirs run.1 = dirs w /\ cwd run.1 = cwd w /\
  exists lines, stdout run.1 = stdout w ++ lines.
Proof.
  unfold openStudentPerms, open_refused, open_cmds.
  change (["fs"; "sa"; path; "-clear"; "-acl"] ++ defaultPerms) with (open_default path).
  change ["fs"; "sa"; path; studentID; "write"] with (open_id studentID path).
  change ["fs"; "sa"; path; studentID +:+ "@andrew.cmu.edu"; "write"]
    with (open_mail studentID path).
  run_admin.
  destruct dryrun, verbose;
    destruct (run_process (open_default path));
    destruct (run_process (open_id studentID path));
    destruct (run_process (open_mail studentID path));
    simpl; rewrite ?app_nil_r, <- ?app_assoc;
    (split; [intros s; split; [intros [= <-] || discriminate 1 | intros (-> & ? & ?)];
             try discriminate; auto|]);
    repeat (split; [reflexivity|]);
    eexists; first [reflexivity | symmetry; apply app_nil_r].
Qed.

(** The result and the lines of [openStudentPerms], in closed form. *)
Lemma openStudentPerms_outcome (run_process : list string -> ProcResult)
    (failure_text : list string -> string)
    (studentID path : string) (dryrun verbose : bool) (w : World) :
  let run := openStudentPerms run_process failure_text studentID path dryrun verbose w in
  run.2 = open_result run_process studentID path dryrun /\
  stdout run.1 =
    stdout w ++ open_lines run_process failure_text studentID path dryrun verbose.
Proof.
  unfold openStudentPerms, open_result, open_lines, unable_line.
  change (["fs"; "sa"; path; "-clear"; "-acl"] ++ defaultPerms) with (open_default path).
  change ["fs"; "sa"; path; studentID; "write"] with (open_id studentID path).
  change ["fs"; "sa"; path; studentID +:+ "@andrew.cmu.edu"; "write"]
    with (open_mail studentID path).
  run_admin.
  destruct dryrun, verbose;
    destruct (run_process (open_default path));
    destruct (run_process (open_id studentID path));
    destruct (run_process (open_mail studentID path));
    simpl; rewrite ?app_nil_r, <- ?app_assoc; split; reflexivity.
Qed.

(** X13.  [openStudentPerms] returns the student's ID exactly when it
    is not a dry run, the default permissions were set and both grants
    (to the ID, then to its mail form) were refused.  A failure to set
    the default permissions returns [None], after that one command and
    the line that reports it; a dry run returns [None]; the function
    raises only when a command is interrupted.  The grants are attempted
    only after the default permissions were set, a dry run runs no
    command, and the file system is not touched. *)
Theorem openStudentPerms_result (run_process : list string -> ProcResult)
    (failure_text : list string -> string)
    (studentID path : string) (dryrun verbose : bool) (w : World) :
  let run := openStudentPerms run_process failure_text studentID path dryrun verbose w in
  run.2 = open_result run_process studentID path dryrun /\
  (dryrun = false -> refused (run_process (open_default path)) = true ->
   run.2 = Ok None /\
   calls run.1 = calls w ++ [open_default path] /\
   stdout run.1 =
     stdout w ++ (if verbose then [Str.join " " (open_default path)] else []) ++
     [unable_line failure_text path]) /\
  (dryrun = true -> run.2 = Ok None) /\
  (forall s, run.2 = Ok (Some s) <->
             s = studentID /\ dryrun = false /\
             open_refused run_process studentID path = true) /\
  calls run.1 =
    calls w ++ (if dryrun then [] else open_cmds run_process studentID path) /\
  stdout run.1 =
    stdout w ++ open_lines run_process failure_text studentID path dryrun verbose /\
  files run.1 = files w /\ dirs run.1 = dirs w /\ cwd run.1 = cwd w.
Proof.
  destruct (openStudentPerms_spec run_process failure_text studentID path
              dryrun verbose w) as (H1 & H2 & H3 & H4 & H5 & _).
  destruct (openStudentPerms_outcome run_process failure_text studentID path
              dryrun verbose w) as (Hres & Hout).
  cbv zeta in *. split; [exact Hres|].
  split.
  { intros -> Hdef. rewrite Hres, H2, Hout.
    unfold open_result, open_cmds, open_lines.
    destruct (run_process (open_default path)); try discriminate Hdef.
    simpl. auto. }
  split; [intros ->; now rewrite Hres|].
  auto 10.
Qed.

Lemma openStudentPerms_result_witness :
  let run := openStudentPerms fs_no_defaults exit_status_1 "bob" "/course/handin/bob"
               false false course_world in
  refused (fs_no_defaults (open_default "/course/handin/bob")) = true /\
  run.2 = Ok None /\
  calls run.1 = calls course_world ++ [open_default "/course/handin/bob"] /\
  stdout run.1 =
    stdout course_world ++ [unable_line exit_status_1 "/course/handin/bob"].
Proof.
  assert (refused (fs_no_defaults (open_default "/course/handin/bob")) = true) as Hdef
    by reflexivity.
  destruct (openStudentPerms_result fs_no_defaults exit_status_1 "bob"
              "/course/handin/bob" false false course_world)
    as (_ & Hfail & _).
  destruct (Hfail eq_refl Hdef) as (Hres & Hcalls & Hout).
  cbv zeta. split; [exact Hdef|]. split; [exact Hres|]. split; [exact Hcalls|exact Hout].
Defined.

Lemma closeStudentPerms_spec (run_process : list string -> ProcResult)
    (studentID path : string) (dryrun : bool) (w : World) :
  let run := closeStudentPerms run_process studentID path dryrun w in
  let bad := negb dryrun && close_refused run_process studentID path in
  (forall s, run.2 = Ok (Some s) <-> s = studentID /\ bad = true) /\
  calls run.1 =
    calls w ++ (if dryrun then [] else close_cmds run_process studentID path) /\
  stdout run.1 =
    stdout w ++
    (if bad then ["Error with trying to remove permissions for " +:+ path] else []) /\
  files run.1 = files w /\ dirs run.1 = dirs w /\ cwd run.1 = cwd w.
Proof.
  unfold closeStudentPerms, close_refused, close_cmds.
  change ["fs"; "sa"; path; studentID; "read"] with (close_id studentID path).
  change ["fs"; "sa"; path; studentID +:+ "@andrew.cmu.edu"; "read"]
    with (close_mail studentID path).
  run_admin.
  destruct dryrun;
    destruct (run_process (close_id studentID path));
    destruct (run_process (close_mail studentID path));
    simpl; rewrite ?app_nil_r, <- ?app_assoc;
    (split; [intros s; split; [intros [= <-] || discriminate 1 | intros (-> & ?)];
             try discriminate; auto|]);
    auto.
Qed.

(** X14.  [closeStudentPerms] returns the ID exactly when it is not a
    dry run and both withdrawals (from the ID, then from its mail form)
    were refused, and then prints one line naming the path; the second
    command is run only when the first was refused, a dry run runs no
    command, and the file system is not touched. *)
Theorem closeStudentPerms_result (run_process : list string -> ProcResult)
    (studentID path : string) (dryrun : bool) (w : World) :
  let run := closeStudentPerms run_process studentID path dryrun w in
  let bad := negb dryrun && close_refused run_process studentID path in
  (forall s, run.2 = Ok (Some s) <-> s = studentID /\ bad = true) /\
  calls run.1 =
    calls w ++ (if dryrun then [] else close_cmds run_process studentID path) /\
  stdout run.1 =
    stdout w ++
    (if bad then ["Error with trying to remove permissions for " +:+ path] else []) /\
  files run.1 = files w /\ dirs run.1 = dirs w /\ cwd run.1 = cwd w.
Proof.
  unfold closeStudentPerms, close_refused, close_cmds.
  change ["fs"; "sa"; path; studentID; "read"] with (close_id studentID path).
  change ["fs"; "sa"; path; studentID +:+ "@andrew.cmu.edu"; "read"]
    with (close_mail studentID path).
  run_admin.
  destruct dryrun;
    destruct (run_process (close_id studentID path));
    destruct (run_process (close_mail studentID path));
    simpl; rewrite ?app_nil_r, <- ?app_assoc;
    (split; [intros s; split; [intros [= <-] || discriminate 1 | intros (-> & ?)];
             try discriminate; auto|]);
    auto.
Qed.

Lemma print_tabbed (l : list string) (w : World) :
  for_each l (fun (_ : unit) id => os.print (tab +:+ id)) tt w =
  (emit (map (fun id => tab +:+ id) l) w, Ok tt).
Proof.
  revert w. induction l as [|x l IH]; intros w; simpl.
  - now rewrite emit_nil.
  - unfold bind, os.print at 1. rewrite IH.
    change (set_stdout (stdout w ++ [tab +:+ x]) w) with (emit [tab +:+ x] w).
    now rewrite emit_emit.
Qed.

Lemma printBadIDs_spec (idList : list string) (w : World) :
  printBadIDs idList w = (emit (bad_lines idList) w, Ok tt).
Proof.
  unfold printBadIDs, bind, os.print at 1. rewrite print_tabbed.
  unfold os.print, bad_lines, emit. simpl. rewrite <- !app_assoc. reflexivity.
Qed.

Lemma report_spec (badIDs : list string) (w : World) :
  when (negb (length badIDs =? 0)%nat) (printBadIDs badIDs) w =
  (emit (bad_report badIDs) w, Ok tt).
Proof.
  destruct badIDs as [|b l]; simpl.
  - unfold ret. now rewrite emit_nil.
  - apply printBadIDs_spec.
Qed.

Lemma os_mkdir_Ok (p : string) (w w1 : World) :
  os_mkdir p w = (w1, Ok tt) ->
  w1 = set_dirs ({[ os.resolve (cwd w) p ]} ∪ dirs w) w.
Proof.
  unfold os_mkdir. destruct (os.exists_in w p); [discriminate|].
  destruct (_ || _); [|discriminate]. now intros [= <-].
Qed.

(** One turn of the loop of [createStudentDirs]. *)
Lemma createStudentDirs_step (run_process : list string -> ProcResult)
    (failure_text : list string -> string) (basePath : string) (dryrun verbose : bool)
    (badIDs badIDs' : list string) (student : string) (w w1 : World) :
  createStudentDirs_body run_process failure_text basePath dryrun verbose
    badIDs student w = (w1, Ok badIDs') ->
  let path := basePath +:+ "/" +:+ PyStr.lower student in
  cwd w1 = cwd w /\ files w1 = files w /\
  dirs w ⊆ dirs w1 /\ dirs w1 ⊆ dirs w ∪ {[ os.resolve (cwd w) path ]} /\
  (dryrun = false -> os.exists_in w1 path = true) /\
  badIDs' = badIDs ++
    (if negb dryrun && open_refused run_process student path then [student] else []) /\
  (dryrun = true -> calls w1 = calls w /\ dirs w1 = dirs w) /\
  exists lines, stdout w1 = stdout w ++ lines.
Proof.
  intros Hrun path. unfold createStudentDirs_body in Hrun. fold path in Hrun.
  unfold bind at 1, os.path_exists at 1 in Hrun. unfold bind at 1 in Hrun.
  assert (exists w0,
    cwd w0 = cwd w /\ files w0 = files w /\
    dirs w ⊆ dirs w0 /\ dirs w0 ⊆ dirs w ∪ {[ os.resolve (cwd w) path ]} /\
    (dryrun = false -> os.exists_in w0 path = true) /\
    (dryrun = true -> calls w0 = calls w /\ dirs w0 = dirs w) /\
    (exists lines, stdout w0 = stdout w ++ lines) /\
    (let* retVal := openStudentPerms run_process failure_text student path dryrun false in
     if not_None retVal then ret (badIDs ++ [student]) else ret badIDs) w0 =
      (w1, Ok badIDs')) as (w0 & Hc & Hf & Hd1 & Hd2 & Hex & Hdry & Hout & Hrest).
  { destruct (negb dryrun && negb (os.exists_in w path)) eqn:Hmk.
    - destruct (os_mkdir path w) as [wm [[]|e]] eqn:Hm; [|discriminate Hrun].
      apply os_mkdir_Ok in Hm. subst wm.
      exists (set_dirs ({[ os.resolve (cwd w) path ]} ∪ dirs w) w).
      split_and!; [..|exact Hrun]; simpl; try set_solver.
      + intros _. unfold os.exists_in. simpl.
        apply orb_true_iff. right. apply bool_decide_eq_true. set_solver.
      + exists []. now rewrite app_nil_r.
    - exists (if verbose
              then emit [tab +:+ "Handin dir already exists for " +:+
                         PyStr.lower student +:+ ", skipping"] w
              else w).
      assert (dryrun = false -> os.exists_in w path = true) as Hex.
      { intros ->. simpl in Hmk. now apply negb_false_iff in Hmk. }
      destruct verbose; simpl in Hrun |- *; (split_and!; [..|exact Hrun]);
        try set_solver; try exact Hex; try (intros _; split; reflexivity);
        first [eexists; reflexivity | exists []; now rewrite app_nil_r]. }
  unfold bind in Hrest.
  pose proof (openStudentPerms_spec run_process failure_text student path
                dryrun false w0) as Hopen.
  destruct (openStudentPerms run_process failure_text student path dryrun false w0)
    as [w2 [rv|e]] eqn:Hop; [|discriminate Hrest].
  cbv zeta in Hopen. cbn [fst snd] in Hopen.
  destruct Hopen as (Hres & Hcalls & Hf2 & Hd & Hc2 & lines2 & Hout2).
  destruct Hout as (lines1 & Hout1).
  assert (w2 = w1 /\
          badIDs' = badIDs ++
            (if negb dryrun && open_refused run_process student path
             then [student] else [])) as [<- ->].
  { destruct rv as [s|]; simpl in Hrest; unfold ret in Hrest; injection Hrest as <- <-.
    - destruct (proj1 (Hres s) eq_refl) as (-> & -> & ->). auto.
    - split; [reflexivity|].
      destruct (negb dryrun && open_refused run_process student path) eqn:E;
        [|now rewrite app_nil_r].
      apply andb_true_iff in E as [E1 E2]. apply negb_true_iff in E1.
      assert (Ok None = Ok (Some student)) as Habs; [|discriminate Habs].
      apply (Hres student). auto. }
  split; [congruence|]. split; [congruence|].
  split; [now rewrite Hd|]. split; [now rewrite Hd|].
  split.
  { intros Hn. specialize (Hex Hn). unfold os.exists_in in *.
    now rewrite Hc2, Hf2, Hd. }
  split; [reflexivity|].
  split.
  { intros ->. destruct (Hdry eq_refl) as [Hk Hdd].
    rewrite Hcalls, app_nil_r, Hd. auto. }
  exists (lines1 ++ lines2). now rewrite Hout2, Hout1, app_assoc.
Qed.

Lemma exists_in_mono (w w' : World) (p : string) :
  cwd w' = cwd w -> files w' = files w -> dirs w ⊆ dirs w' ->
  os.exists_in w p = true -> os.exists_in w' p = true.
Proof.
  unfold os.exists_in. intros -> -> Hd H.
  apply orb_true_iff in H as [H|H]; apply orb_true_iff; [left; exact H|right].
  apply bool_decide_eq_true in H. apply bool_decide_eq_true. set_solver.
Qed.

Lemma createStudentDirs_loop (run_process : list string -> ProcResult)
    (failure_text : list string -> string) (basePath : string) (dryrun verbose : bool)
    (ids : list string) :
  forall (acc bad : list string) (w w' : World),
    for_each ids
      (createStudentDirs_body run_process failure_text basePath dryrun verbose)
      acc w = (w', Ok bad) ->
    cwd w' = cwd w /\ files w' = files w /\ dirs w ⊆ dirs w' /\
    (forall d, d ∈ dirs w' ->
       d ∈ dirs w \/
       exists s, s ∈ ids /\ d = os.resolve (cwd w) (student_path basePath s)) /\
    (dryrun = false ->
     forall s, s ∈ ids -> os.exists_in w' (student_path basePath s) = true) /\
    bad = acc ++ open_bad run_process basePath dryrun ids /\
    exists lines, stdout w' = stdout w ++ lines.
Proof.
  induction ids as [|s ids IH]; intros acc bad w w' Hrun; simpl in Hrun.
  - unfold ret in Hrun. injection Hrun as <- <-.
    split_and!; try reflexivity.
    + intros d Hd. now left.
    + intros _ s Hs. inversion Hs.
    + unfold open_bad. simpl. now rewrite app_nil_r.
    + exists []. now rewrite app_nil_r.
  - unfold bind at 1 in Hrun.
    destruct (createStudentDirs_body _ _ _ _ _ acc s w) as [w1 [acc1|e]] eqn:Hstep;
      [|discriminate Hrun].
    apply createStudentDirs_step in Hstep.
    cbv zeta in Hstep. fold (student_path basePath s) in Hstep.
    destruct Hstep as (Hc & Hf & Hd1 & Hd2 & Hex & Hbad & _ & lines1 & Hout).
    apply IH in Hrun as (Hc' & Hf' & Hd' & Hnew & Hall & Hbad' & lines2 & Hout').
    split_and!.
    + congruence.
    + congruence.
    + set_solver.
    + intros d Hd. destruct (Hnew d Hd) as [Hold|(s' & Hs' & ->)].
      * apply Hd2 in Hold. apply elem_of_union in Hold as [Hold|Hold]; [now left|].
        right. exists s. split; [left|set_solver].
      * right. exists s'. split; [now right|now rewrite Hc].
    + intros Hn s' Hs'. apply elem_of_cons in Hs' as [->|Hs']; [|now apply Hall].
      eapply exists_in_mono; [exact Hc'|exact Hf'|exact Hd'|now apply Hex].
    + rewrite Hbad', Hbad, <- app_assoc. unfold open_bad. cbn [List.filter].
      fold (student_path basePath s).
      now destruct (negb dryrun && open_refused run_process s (student_path basePath s)).
    + exists (lines1 ++ lines2). now rewrite Hout', Hout, app_assoc.
Qed.

(** A run of [createStudentDirs] that returns, taken apart. *)
Lemma createStudentDirs_returns (run_process : list string -> ProcResult)
    (failure_text : list string -> string) (basePath : string) (ids : list string)
    (dryrun verbose : bool) (w w' : World) :
  createStudentDirs run_process failure_text basePath ids dryrun verbose w = (w', Ok tt) ->
  exists w1 bad,
    for_each ids
      (createStudentDirs_body run_process failure_text basePath dryrun verbose)
      [] w = (w1, Ok bad) /\
    w' = emit (bad_report bad) w1.
Proof.
  unfold createStudentDirs, bind. intros Hrun.
  destruct (for_each ids _ [] w) as [w1 [bad|e]]; [|discriminate Hrun].
  rewrite report_spec in Hrun. injection Hrun as <-. eauto.
Qed.

(** X15.  When [createStudentDirs] returns from a run that is not a dry
    run, the handin directory of every student exists; no file was
    changed, no directory removed, and the new directories are handin
    directories of the students given. *)
Theorem createStudentDirs_creates (run_process : list string -> ProcResult)
    (failure_text : list string -> string) (basePath : string) (ids : list string)
    (verbose : bool) (w w' : World) :
  createStudentDirs run_process failure_text basePath ids false verbose w = (w', Ok tt) ->
  (forall s, s ∈ ids -> os.exists_in w' (student_path basePath s) = true) /\
  files w' = files w /\ cwd w' = cwd w /\ dirs w ⊆ dirs w' /\
  forall d, d ∈ dirs w' ->
    d ∈ dirs w \/ exists s, s ∈ ids /\ d = os.resolve (cwd w) (student_path basePath s).
Proof.
  intros Hrun. apply createStudentDirs_returns in Hrun as (w1 & bad & Hloop & ->).
  apply createStudentDirs_loop in Hloop as (Hc & Hf & Hd & Hnew & Hall & _).
  split_and!; try assumption.
  intros s Hs. exact (Hall eq_refl s Hs).
Qed.

Lemma exists_in_same_fs (v w : World) (p : string) :
  cwd v = cwd w -> files v = files w -> dirs v = dirs w ->
  os.exists_in v p = os.exists_in w p.
Proof. unfold os.exists_in. now intros -> -> ->. Qed.

Lemma create_lines_same_fs (run_process : list string -> ProcResult)
    (failure_text : list string -> string) (basePath : string) (dryrun verbose : bool)
    (ids : list string) :
  forall v w : World,
    cwd v = cwd w -> files v = files w -> dirs v = dirs w ->
    create_lines run_process failure_text basePath dryrun verbose v ids =
    create_lines run_process failure_text basePath dryrun verbose w ids.
Proof.
  induction ids as [|s ids IH]; intros v w Hc Hf Hd; [reflexivity|].
  simpl. unfold student_lines, made_dir.
  rewrite (exists_in_same_fs v w _ Hc Hf Hd). f_equal.
  apply IH; destruct (negb dryrun && negb (os.exists_in w (student_path basePath s)));
    simpl; congruence.
Qed.

(** What one turn of the loop of [createStudentDirs] prints, and the
    file system it leaves. *)
Lemma createStudentDirs_step_lines (run_process : list string -> ProcResult)
    (failure_text : list string -> string) (basePath : string) (dryrun verbose : bool)
    (badIDs badIDs' : list string) (student : string) (w w1 : World) :
  createStudentDirs_body run_process failure_text basePath dryrun verbose
    badIDs student w = (w1, Ok badIDs') ->
  stdout w1 =
    stdout w ++ student_lines run_process failure_text basePath dryrun verbose w student /\
  cwd w1 = cwd (made_dir basePath dryrun w student) /\
  files w1 = files (made_dir basePath dryrun w student) /\
  dirs w1 = dirs (made_dir basePath dryrun w student).
Proof.
  intros Hrun. unfold createStudentDirs_body in Hrun.
  fold (student_path basePath student) in Hrun.
  unfold bind at 1, os.path_exists at 1 in Hrun. unfold bind at 1 in Hrun.
  unfold student_lines, made_dir.
  set (path := student_path basePath student) in *.
  assert (exists w0,
    stdout w0 =
      stdout w ++ (if negb dryrun && negb (os.exists_in w path) then []
                   else if verbose then [already_line student] else []) /\
    cwd w0 = cwd w /\ files w0 = files w /\
    dirs w0 = dirs (if negb dryrun && negb (os.exists_in w path)
                    then set_dirs ({[ os.resolve (cwd w) path ]} ∪ dirs w) w else w) /\
    (let* retVal := openStudentPerms run_process failure_text student path dryrun false in
     if not_None retVal then ret (badIDs ++ [student]) else ret badIDs) w0 =
      (w1, Ok badIDs')) as (w0 & Hout0 & Hc0 & Hf0 & Hd0 & Hrest).
  { destruct (negb dryrun && negb (os.exists_in w path)) eqn:Hmk.
    - destruct (os_mkdir path w) as [wm [[]|e]] eqn:Hm; [|discriminate Hrun].
      apply os_mkdir_Ok in Hm. subst wm.
      exists (set_dirs ({[ os.resolve (cwd w) path ]} ∪ dirs w) w).
      split_and!; [simpl; now rewrite app_nil_r|reflexivity..|exact Hrun].
    - destruct verbose; simpl in Hrun.
      + eexists. split_and!; [| | | |exact Hrun]; reflexivity.
      + exists w. split_and!; [now rewrite app_nil_r|reflexivity..|exact Hrun]. }
  unfold bind in Hrest.
  pose proof (openStudentPerms_spec run_process failure_text student path
                dryrun false w0) as Hspec.
  pose proof (openStudentPerms_outcome run_process failure_text student path
                dryrun false w0) as Hopen.
  destruct (openStudentPerms run_process failure_text student path dryrun false w0)
    as [w2 [rv|e]]; [|discriminate Hrest].
  cbv zeta in Hspec, Hopen. cbn [fst snd] in Hspec, Hopen.
  destruct Hspec as (_ & _ & Hf2 & Hd2 & Hc2 & _).
  destruct Hopen as (_ & Hout2).
  assert (w2 = w1) as <-
    by (destruct (not_None rv); unfold ret in Hrest; now injection Hrest as <- _).
  split; [now rewrite Hout2, Hout0, app_assoc|].
  split; [rewrite Hc2, Hc0; now destruct (negb dryrun && negb (os.exists_in w path))|].
  split; [rewrite Hf2, Hf0; now destruct (negb dryrun && negb (os.exists_in w path))|].
  now rewrite Hd2, Hd0.
Qed.

Lemma createStudentDirs_loop_lines (run_process : list string -> ProcResult)
    (failure_text : list string -> string) (basePath : string) (dryrun verbose : bool)
    (ids : list string) :
  forall (acc bad : list string) (w w' : World),
    for_each ids
      (createStudentDirs_body run_process failure_text basePath dryrun verbose)
      acc w = (w', Ok bad) ->
    stdout w' =
      stdout w ++ create_lines run_process failure_text basePath dryrun verbose w ids.
Proof.
  induction ids as [|s ids IH]; intros acc bad w w' Hrun; simpl in Hrun.
  - unfold ret in Hrun. injection Hrun as <- <-. simpl. now rewrite app_nil_r.
  - unfold bind at 1 in Hrun.
    destruct (createStudentDirs_body _ _ _ _ _ acc s w) as [w1 [acc1|e]] eqn:Hstep;
      [|discriminate Hrun].
    apply createStudentDirs_step_lines in Hstep as (Hout & Hc & Hf & Hd).
    apply IH in Hrun. rewrite Hrun, Hout, <- app_assoc. simpl.
    now rewrite (create_lines_same_fs _ _ _ _ _ ids _ _ Hc Hf Hd).
Qed.

(** X16.  When [createStudentDirs] returns, what it printed is the
    lines of the turns of the loop (a line for a directory that is not
    created, when [verbose]; a line for default permissions that cannot
    be set) followed by the report of the bad IDs: the students, in the
    order given, for whom the default permissions were set and both
    grants refused.  When there is no such student, no report is
    printed: the output ends with the lines of the loop. *)
Theorem createStudentDirs_report (run_process : list string -> ProcResult)
    (failure_text : list string -> string) (basePath : string) (ids : list string)
    (dryrun verbose : bool) (w w' : World) :
  createStudentDirs run_process failure_text basePath ids dryrun verbose w = (w', Ok tt) ->
  let lines := create_lines run_process failure_text basePath dryrun verbose w ids in
  let bad := open_bad run_process basePath dryrun ids in
  stdout w' = stdout w ++ lines ++ bad_report bad /\
  (bad = [] -> stdout w' = stdout w ++ lines) /\
  (bad <> [] -> stdout w' = stdout w ++ lines ++ bad_lines bad).
Proof.
  intros Hrun lines bad.
  apply createStudentDirs_returns in Hrun as (w1 & bad1 & Hloop & ->).
  pose proof (createStudentDirs_loop_lines _ _ _ _ _ _ _ _ _ _ Hloop) as Hout.
  apply createStudentDirs_loop in Hloop as (_ & _ & _ & _ & _ & -> & _).
  simpl in *. fold bad. fold lines in Hout.
  assert (stdout w1 ++ bad_report bad = stdout w ++ lines ++ bad_report bad) as Hall
    by now rewrite Hout, app_assoc.
  split; [exact Hall|]. split.
  - intros Hnil. rewrite Hnil in Hall. simpl in Hall.
    rewrite Hnil. simpl. now rewrite !app_nil_r in *.
  - intros Hne. rewrite Hall. destruct bad; [contradiction|reflexivity].
Qed.

Lemma closeStudentDirs_loop (run_process : list string -> ProcResult)
    (basePath : string) (dryrun : bool) (dirs0 : list string) :
  forall (acc bad : list string) (w w' : World),
    for_each dirs0 (closeStudentDirs_body run_process basePath dryrun) acc w =
      (w', Ok bad) ->
    cwd w' = cwd w /\ files w' = files w /\ dirs w' = dirs w /\
    bad = acc ++ close_bad run_process basePath dryrun dirs0 /\
    stdout w' =
      stdout w ++ map (close_line basePath) (close_bad run_process basePath dryrun dirs0).
Proof.
  induction dirs0 as [|d dirs0 IH]; intros acc bad w w' Hrun; simpl in Hrun.
  - unfold ret in Hrun. injection Hrun as <- <-.
    unfold close_bad. simpl. now rewrite !app_nil_r.
  - unfold bind at 1 in Hrun. unfold closeStudentDirs_body at 1 in Hrun.
    unfold bind at 1 in Hrun.
    pose proof (closeStudentPerms_spec run_process d (basePath +:+ "/" +:+ d) dryrun w)
      as Hclose.
    destruct (closeStudentPerms run_process d (basePath +:+ "/" +:+ d) dryrun w)
      as [w1 [rv|e]]; [|discriminate Hrun].
    cbv zeta in Hclose. cbn [fst snd] in Hclose.
    destruct Hclose as (Hres & _ & Hout & Hf & Hd & Hc).
    set (b := negb dryrun && close_refused run_process d (basePath +:+ "/" +:+ d)) in *.
    assert (not_None rv = b /\ (b = true -> rv = Some d)) as [Hb Hrv].
    { destruct rv as [s|]; simpl.
      - destruct (proj1 (Hres s) eq_refl) as [-> ->]. auto.
      - destruct b; [|split; [reflexivity|discriminate]].
        assert (Ok None = Ok (Some d)) as Habs by (apply (Hres d); auto).
        discriminate Habs. }
    rewrite Hb in Hrun.
    assert (for_each dirs0 (closeStudentDirs_body run_process basePath dryrun)
              (acc ++ (if b then [d] else [])) w1 = (w', Ok bad)) as Hrest
      by (destruct b; [exact Hrun|now rewrite app_nil_r]).
    apply IH in Hrest as (Hc' & Hf' & Hd' & Hbad & Hout').
    unfold close_bad in *. cbn [List.filter]. fold b.
    split_and!; try congruence.
    + rewrite Hbad, <- app_assoc. now destruct b.
    + rewrite Hout', Hout, <- app_assoc. now destruct b.
Qed.

(** X17.  When [closeStudentDirs] returns, it has printed one line for
    each directory whose two withdrawals were both refused, in the order
    given, and then the report of these directories (nothing when there
    is none); the file system is not touched. *)
Theorem closeStudentDirs_report (run_process : list string -> ProcResult)
    (basePath : string) (dirs0 : list string) (dryrun : bool) (w w' : World) :
  closeStudentDirs run_process basePath dirs0 dryrun w = (w', Ok tt) ->
  let bad := close_bad run_process basePath dryrun dirs0 in
  stdout w' = stdout w ++ map (close_line basePath) bad ++ bad_report bad /\
  files w' = files w /\ dirs w' = dirs w /\ cwd w' = cwd w.
Proof.
  unfold closeStudentDirs, bind. intros Hrun.
  destruct (for_each dirs0 _ [] w) as [w1 [bad|e]] eqn:Hloop; [|discriminate Hrun].
  rewrite report_spec in Hrun. injection Hrun as <-.
  apply closeStudentDirs_loop in Hloop as (Hc & Hf & Hd & -> & Hout).
  simpl. rewrite Hout, <- app_assoc. auto.
Qed.

Lemma createStudentDirs_creates_witness :
  exists w',
    createStudentDirs fs_refuses_bob no_text "handin" ["alice"; "bob"] false false
      course_world = (w', Ok tt) /\
    os.exists_in course_world (student_path "handin" "bob") = false /\
    (forall s, s ∈ ["alice"; "bob"] -> os.exists_in w' (student_path "handin" s) = true) /\
    files w' = files course_world.
Proof.
  assert (exists w',
    createStudentDirs fs_refuses_bob no_text "handin" ["alice"; "bob"] false false
      course_world = (w', Ok tt)) as (w' & Hrun)
    by (eexists; vm_compute; reflexivity).
  exists w'. split; [exact Hrun|]. split; [vm_compute; reflexivity|].
  destruct (createStudentDirs_creates _ _ _ _ _ _ _ Hrun) as (Hall & Hf & _).
  split; [exact Hall|exact Hf].
Defined.

Lemma createStudentDirs_report_witness :
  (exists w',
     createStudentDirs fs_refuses_bob no_text "handin" ["alice"; "bob"] false true
       course_world = (w', Ok tt) /\
     stdout w' = [already_line "alice"] ++ bad_lines ["bob"]) /\
  (exists w',
     createStudentDirs fs_no_defaults exit_status_1 "handin" ["alice"; "bob"] false true
       course_world = (w', Ok tt) /\
     open_bad fs_no_defaults "handin" false ["alice"; "bob"] = [] /\
     stdout w' = [already_line "alice";
                  unable_line exit_status_1 (student_path "handin" "alice");
                  unable_line exit_status_1 (student_path "handin" "bob")]).
Proof.
  split.
  - assert (exists w',
      createStudentDirs fs_refuses_bob no_text "handin" ["alice"; "bob"] false true
        course_world = (w', Ok tt)) as (w' & Hrun)
      by (eexists; vm_compute; reflexivity).
    exists w'. split; [exact Hrun|].
    destruct (createStudentDirs_report _ _ _ _ _ _ _ _ Hrun) as (Hout & _).
    rewrite Hout. vm_compute. reflexivity.
  - assert (exists w',
      createStudentDirs fs_no_defaults exit_status_1 "handin" ["alice"; "bob"] false true
        course_world = (w', Ok tt)) as (w' & Hrun)
      by (eexists; vm_compute; reflexivity).
    assert (open_bad fs_no_defaults "handin" false ["alice"; "bob"] = []) as Hbad
      by (vm_compute; reflexivity).
    exists w'. split; [exact Hrun|]. split; [exact Hbad|].
    destruct (createStudentDirs_report _ _ _ _ _ _ _ _ Hrun) as (_ & Hnone & _).
    rewrite (Hnone Hbad). vm_compute. reflexivity.
Defined.

Lemma closeStudentDirs_report_witness :
  exists w',
    closeStudentDirs fs_refuses_bob "handin" ["alice"; "bob"] false course_world =
      (w', Ok tt) /\
    close_bad fs_refuses_bob "handin" false ["alice"; "bob"] = ["bob"] /\
    stdout w' =
      stdout course_world ++ map (close_line "handin") ["bob"] ++ bad_report ["bob"].
Proof.
  assert (exists w',
    closeStudentDirs fs_refuses_bob "handin" ["alice"; "bob"] false course_world =
      (w', Ok tt)) as (w' & Hrun)
    by (eexists; vm_compute; reflexivity).
  assert (close_bad fs_refuses_bob "handin" false ["alice"; "bob"] = ["bob"]) as Hbad
    by (vm_compute; reflexivity).
  destruct (closeStudentDirs_report _ _ _ _ _ _ Hrun) as (Hout & _).
  exists w'. split; [exact Hrun|]. split; [exact Hbad|].
  rewrite Hbad in Hout. exact Hout.
Defined.

Lemma createStudentDirs_dry_loop (run_process : list string -> ProcResult)
    (failure_text : list string -> string) (basePath : string) (verbose : bool)
    (ids : list string) :
  forall (acc : list string) (w : World),
    for_each ids
      (createStudentDirs_body run_process failure_text basePath true verbose) acc w =
    (emit (if verbose then map already_line ids else []) w, Ok acc).
Proof.
  induction ids as [|s ids IH]; intros acc w; simpl.
  - unfold ret. destruct verbose; now rewrite emit_nil.
  - unfold bind at 1. unfold createStudentDirs_body at 1.
    unfold openStudentPerms. run_admin. unfold os.path_exists. simpl.
    destruct verbose; simpl; rewrite IH.
    + fold (already_line s).
      change (set_stdout (stdout w ++ [already_line s]) w) with (emit [already_line s] w).
      now rewrite emit_emit.
    + reflexivity.
Qed.

(** X18.  A dry run of [createStudentDirs] always returns, runs no
    command and leaves the file system as it is; with [verbose] it
    prints, for every student and whether or not the directory exists,
    that the handin directory already exists, and nothing else. *)
Theorem createStudentDirs_dryrun (run_process : list string -> ProcResult)
    (failure_text : list string -> string) (basePath : string) (ids : list string)
    (verbose : bool) (w : World) :
  createStudentDirs run_process failure_text basePath ids true verbose w =
  (emit (if verbose then map already_line ids else []) w, Ok tt).
Proof.
  unfold createStudentDirs, bind. rewrite createStudentDirs_dry_loop.
  simpl. reflexivity.
Qed.

(** ** The permissions of a student *)

Lemma selfPerm_of_first (studentID : string) (perms : list string) :
  (Forall (fun p => names_student studentID p = false) perms /\
   selfPerm_of studentID perms = "") \/
  exists pre perm post,
    perms = pre ++ perm :: post /\
    Forall (fun p => names_student studentID p = false) pre /\
    names_student studentID perm = true /\
    selfPerm_of studentID perms = Str.strip perm.
Proof.
  induction perms as [|p perms IH]; [left; split; [constructor|reflexivity]|].
  simpl. fold (names_student studentID p).
  destruct (names_student studentID p) eqn:Hp.
  - right. exists [], p, perms. repeat split; [constructor|exact Hp].
  - destruct IH as [[Hall Hnone]|(pre & perm & post & -> & Hpre & Hperm & Hsel)].
    + left. split; [now constructor|exact Hnone].
    + right. exists (p :: pre), perm, post. repeat split; [now constructor|assumption..].
Qed.

(** X19.  When the listing command succeeds, [checkFs] returns [True]
    exactly when the first line of the listing that, stripped, starts
    with the student's ID contains [rlidwk]; later lines are not looked
    at, and with no such line the answer is [False]. *)
Theorem checkFs_first_line (run_process : list string -> ProcResult)
    (studentID studentDir out : string) (w : World) :
  run_process ["fs"; "la"; studentDir] = Exited0 out ->
  exists answer,
    checkFs run_process studentID studentDir w =
      (logged [["fs"; "la"; studentDir]] w, Ok answer) /\
    (answer = true <->
     exists pre perm post,
       PyStr.split (ascii_of_nat 10) out = pre ++ perm :: post /\
       Forall (fun p => names_student studentID p = false) pre /\
       names_student studentID perm = true /\
       Str.contains "rlidwk" (Str.strip perm) = true).
Proof.
  intros Hrun. eexists. split.
  - unfold checkFs, bind, check_output. rewrite Hrun. reflexivity.
  - destruct (selfPerm_of_first studentID (PyStr.split (ascii_of_nat 10) out))
      as [[Hall Hnone]|(pre & perm & post & Hsplit & Hpre & Hperm & Hsel)].
    + rewrite Hnone. split; [discriminate|].
      intros (pre & perm & post & Hsplit & _ & Hperm & _).
      rewrite Hsplit in Hall. apply Forall_app in Hall as [_ Hall].
      inversion Hall; subst. congruence.
    + rewrite Hsel. split.
      * intros H. exists pre, perm, post. auto.
      * intros (pre' & perm' & post' & Hsplit' & Hpre' & Hperm' & Hc).
        assert (pre' = pre /\ perm' = perm) as [-> ->]; [|exact Hc].
        rewrite Hsplit in Hsplit'. clear Hsplit Hsel Hc.
        revert pre' Hsplit' Hpre'.
        induction pre as [|x pre IH]; intros [|y pre'] Heq Hpre'; simpl in Heq.
        -- now injection Heq as ->.
        -- injection Heq as -> _. inversion Hpre'; subst. congruence.
        -- injection Heq as -> _. inversion Hpre; subst. congruence.
        -- injection Heq as -> Heq. inversion Hpre; inversion Hpre'; subst.
           destruct (IH ltac:(assumption) pre' Heq ltac:(assumption)) as [-> ->].
           auto.
Qed.

Lemma checkFs_first_line_witness :
  fs_lists ["fs"; "la"; "/course/handin/bob"] =
    Exited0 ("Access list for . is" +:+ nl +:+ "Normal rights:" +:+ nl +:+
             "  bobby rl" +:+ nl +:+ "  bob rlidwk" +:+ nl) /\
  checkFs fs_lists "bob" "/course/handin/bob" course_world =
    (logged [["fs"; "la"; "/course/handin/bob"]] course_world, Ok false) /\
  checkFs fs_lists "bob " "/course/handin/bob" course_world =
    (logged [["fs"; "la"; "/course/handin/bob"]] course_world, Ok true).
Proof.
  assert (fs_lists ["fs"; "la"; "/course/handin/bob"] =
    Exited0 ("Access list for . is" +:+ nl +:+ "Normal rights:" +:+ nl +:+
             "  bobby rl" +:+ nl +:+ "  bob rlidwk" +:+ nl)) as Hrun by reflexivity.
  split; [exact Hrun|].
  destruct (checkFs_first_line fs_lists "bob" "/course/handin/bob" _ course_world Hrun)
    as (a1 & H1 & _).
  destruct (checkFs_first_line fs_lists "bob " "/course/handin/bob" _ course_world Hrun)
    as (a2 & H2 & _).
  split.
  - rewrite H1. f_equal. vm_compute in H1. now injection H1 as <-.
  - rewrite H2. f_equal. vm_compute in H2. now injection H2 as <-.
Defined.

(** X20.  When the listing command fails, [checkFs] does not return
    [False]: the [CalledProcessError] of the command leaves the function. *)
Theorem checkFs_command_fails (run_process : list string -> ProcResult)
    (studentID studentDir out : string) (w : World) :
  run_process ["fs"; "la"; studentDir] = ExitedNonZero out ->
  checkFs run_process studentID studentDir w =
    (logged [["fs"; "la"; studentDir]] w, Raise (CalledProcessError out)).
Proof.
  intros Hrun. unfold checkFs, bind, check_output. now rewrite Hrun.
Qed.

Lemma checkFs_command_fails_witness :
  fs_lists ["fs"; "la"; "/course/handin/carol"] =
    ExitedNonZero "fs: File does not exist" /\
  checkFs fs_lists "carol" "/course/handin/carol" course_world =
    (logged [["fs"; "la"; "/course/handin/carol"]] course_world,
     Raise (CalledProcessError "fs: File does not exist")).
Proof.
  assert (fs_lists ["fs"; "la"; "/course/handin/carol"] =
    ExitedNonZero "fs: File does not exist") as Hrun by reflexivity.
  split; [exact Hrun|].
  exact (checkFs_command_fails fs_lists "carol" _ _ course_world Hrun).
Defined.

(** ** The configuration search *)

Lemma searchCfg_loop_spec (cfgDir hwNum : string) (fileList : list string) :
  match searchCfg_loop cfgDir (hwNum +:+ "_cfg.json") fileList with
  | Some path =>
      exists pre f post,
        fileList = pre ++ f :: post /\ path = cfgDir +:+ "/" +:+ f /\
        is_cfg hwNum f = true /\ Forall (fun g => is_cfg hwNum g = false) pre
  | None => Forall (fun g => is_cfg hwNum g = false) fileList
  end.
Proof.
  induction fileList as [|f l IH]; simpl; [constructor|].
  fold (is_cfg hwNum f). destruct (is_cfg hwNum f) eqn:Hf.
  - exists [], f, l. repeat split; [exact Hf|constructor].
  - destruct (searchCfg_loop cfgDir (hwNum +:+ "_cfg.json") l) as [path|].
    + destruct IH as (pre & g & post & -> & -> & Hg & Hpre).
      exists (f :: pre), g, post. repeat split; [exact Hg|now constructor].
    + now constructor.
Qed.

Lemma searchCfg_spec (hwNum cfgDir : string) (w : World) :
  (searchCfg hwNum cfgDir w).1 = w /\
  match (searchCfg hwNum cfgDir w).2 with
  | Returned path =>
      exists pre f post,
        listing w cfgDir = pre ++ f :: post /\ path = cfgDir +:+ "/" +:+ f /\
        is_cfg hwNum f = true /\ Forall (fun g => is_cfg hwNum g = false) pre
  | Failed NoConfigError =>
      os.resolve (cwd w) cfgDir ∈ dirs w /\
      Forall (fun g => is_cfg hwNum g = false) (listing w cfgDir)
  | Failed (Builtin OSError) => os.resolve (cwd w) cfgDir ∉ dirs w
  | Failed _ => False
  end.
Proof.
  unfold searchCfg, pbind, lift, os_listdir.
  destruct (bool_decide (os.resolve (cwd w) cfgDir ∈ dirs w)) eqn:Hd.
  - apply bool_decide_eq_true in Hd. fold (listing w cfgDir).
    pose proof (searchCfg_loop_spec cfgDir hwNum (listing w cfgDir)) as H.
    destruct (searchCfg_loop cfgDir (hwNum +:+ "_cfg.json") (listing w cfgDir));
      simpl; auto.
  - apply bool_decide_eq_false in Hd. simpl. auto.
Qed.

(** X21.  [searchCfg] changes nothing.  It returns [cfgDir/f] for the
    first name [f] of the directory that equals [hwNum_cfg.json] but for
    the case of the letters, raises [NoConfigError] when the directory
    has no such name, and fails with the error of [os.listdir] when
    [cfgDir] is not a directory. *)
Theorem searchCfg_first_match (hwNum cfgDir : string) (w : World) :
  (searchCfg hwNum cfgDir w).1 = w /\
  match (searchCfg hwNum cfgDir w).2 with
  | Returned path =>
      exists pre f post,
        listing w cfgDir = pre ++ f :: post /\ path = cfgDir +:+ "/" +:+ f /\
        is_cfg hwNum f = true /\ Forall (fun g => is_cfg hwNum g = false) pre
  | Failed NoConfigError =>
      os.resolve (cwd w) cfgDir ∈ dirs w /\
      Forall (fun g => is_cfg hwNum g = false) (listing w cfgDir)
  | Failed (Builtin OSError) => os.resolve (cwd w) cfgDir ∉ dirs w
  | Failed _ => False
  end.
Proof.
  unfold searchCfg, pbind, lift, os_listdir.
  destruct (bool_decide (os.resolve (cwd w) cfgDir ∈ dirs w)) eqn:Hd.
  - apply bool_decide_eq_true in Hd. fold (listing w cfgDir).
    pose proof (searchCfg_loop_spec cfgDir hwNum (listing w cfgDir)) as H.
    destruct (searchCfg_loop cfgDir (hwNum +:+ "_cfg.json") (listing w cfgDir));
      simpl; auto.
  - apply bool_decide_eq_false in Hd. simpl. auto.
Qed.

Lemma lower_app (s t : string) :
  PyStr.lower (s +:+ t) = PyStr.lower s +:+ PyStr.lower t.
Proof.
  induction s as [|c s IH]; [reflexivity|].
  rewrite str_app_cons. simpl. now rewrite IH.
Qed.

(** X22.  The search does not depend on the case of the letters of
    [hwNum]: two numbers that differ in case only find the same file. *)
Theorem searchCfg_case_insensitive (hwNum hwNum' cfgDir : string) (w : World) :
  PyStr.lower hwNum = PyStr.lower hwNum' ->
  searchCfg hwNum cfgDir w = searchCfg hwNum' cfgDir w.
Proof.
  intros Heq. unfold searchCfg, pbind.
  destruct (lift (os_listdir cfgDir) w) as [w1 [l|e]]; [|reflexivity].
  assert (searchCfg_loop cfgDir (hwNum +:+ "_cfg.json") l =
          searchCfg_loop cfgDir (hwNum' +:+ "_cfg.json") l) as ->; [|reflexivity].
  induction l as [|f l IH]; [reflexivity|]. simpl.
  rewrite !lower_app, Heq, IH. reflexivity.
Qed.

Lemma searchCfg_case_insensitive_witness :
  PyStr.lower "HW1" = PyStr.lower "hw1" /\
  searchCfg "HW1" "cfg" config_world = searchCfg "hw1" "cfg" config_world /\
  searchCfg "hw1" "cfg" config_world = (config_world, Returned "cfg/Hw1_cfg.json").
Proof.
  assert (PyStr.lower "HW1" = PyStr.lower "hw1") as H by reflexivity.
  split; [exact H|]. split; [exact (searchCfg_case_insensitive _ _ _ _ H)|].
  vm_compute. reflexivity.
Defined.

Lemma rindex_char_app (c : ascii) (a b : string) :
  is_Some (rindex_char c (a +:+ String c b)).
Proof.
  induction a as [|d a IH].
  - change ("" +:+ String c b) with (String c b). simpl.
    destruct (rindex_char c b); [eauto|]. rewrite Ascii.eqb_refl. eauto.
  - rewrite str_app_cons. simpl. destruct IH as [i ->]. eauto.
Qed.

Lemma parseConfig_world (json_load : string -> string + option (list Problem))
    (configPath : string) (w : World) :
  (parseConfig json_load configPath w).1 = w.
Proof.
  unfold parseConfig, pbind, lift, os.path_exists, read_file, praise, pret.
  destruct (os.exists_in w configPath); simpl; [|reflexivity].
  destruct (files w !! os.resolve (cwd w) configPath) as [c|]; [|reflexivity].
  now destruct (json_load c).
Qed.

(** X23.  When the search for the configuration fails, [checkStudents]
    fails in the same way before it has changed anything: with
    [NoConfigError] when no name of the directory matches. *)
Theorem checkStudents_no_config
    (glob_glob : string -> list string)
    (json_load : string -> string + option (list Problem))
    (sv_checkInterface : string -> string -> option (list string) -> string)
    (run_process : list string -> ProcResult) (with_suffix_empty : string -> string)
    (cfgDir handinDir hwNum : string) (studentList : list string) (w : World) :
  os.resolve (cwd w) cfgDir ∈ dirs w ->
  Forall (fun g => is_cfg hwNum g = false) (listing w cfgDir) ->
  checkStudents glob_glob json_load sv_checkInterface run_process with_suffix_empty
    cfgDir handinDir studentList hwNum w = (w, Failed NoConfigError).
Proof.
  intros Hdir Hnone. unfold checkStudents. unfold pbind at 1.
  destruct (searchCfg_spec hwNum cfgDir w) as [Hw Hres].
  destruct (searchCfg hwNum cfgDir w) as [w1 [path|e]]; simpl in Hw, Hres; subst w1.
  - destruct Hres as (pre & f & post & Hl & _ & Hf & _).
    rewrite Hl in Hnone. apply Forall_app in Hnone as [_ Hnone].
    inversion Hnone; subst. congruence.
  - destruct e as [[]| | | |]; try contradiction. reflexivity.
Qed.

Lemma checkStudents_no_config_witness :
  os.resolve (cwd config_world) "cfg" ∈ dirs config_world /\
  Forall (fun g => is_cfg "hw2" g = false) (listing config_world "cfg") /\
  checkStudents (fnmatch.glob_in plain_dir) example_json lenient_compare tools_ok stem
    "cfg" "handin" ["s"; "t"] "hw2" config_world = (config_world, Failed NoConfigError).
Proof.
  assert (os.resolve (cwd config_world) "cfg" ∈ dirs config_world) as Hd
    by (vm_compute; set_solver).
  assert (Forall (fun g => is_cfg "hw2" g = false) (listing config_world "cfg")) as Hn
    by (vm_compute; repeat constructor).
  split; [exact Hd|]. split; [exact Hn|].
  exact (checkStudents_no_config _ _ _ _ _ _ _ _ _ _ Hd Hn).
Defined.

(** X24.  The file is found whatever the case of its letters, but the
    number is then cut out of its path at the exact text [_cfg.json]:
    when the path found does not hold that text, [checkStudents] fails
    with [ValueError] before it has changed anything. *)
Theorem checkStudents_wrong_case
    (glob_glob : string -> list string)
    (json_load : string -> string + option (list Problem))
    (sv_checkInterface : string -> string -> option (list string) -> string)
    (run_process : list string -> ProcResult) (with_suffix_empty : string -> string)
    (cfgDir handinDir hwNum cfgPath : string) (studentList : list string) (w : World) :
  (searchCfg hwNum cfgDir w).2 = Returned cfgPath ->
  String.index 0 "_cfg.json" cfgPath = None ->
  checkStudents glob_glob json_load sv_checkInterface run_process with_suffix_empty
    cfgDir handinDir studentList hwNum w = (w, Failed ValueError).
Proof.
  intros Hfound Hindex. unfold checkStudents. unfold pbind at 1.
  destruct (searchCfg_spec hwNum cfgDir w) as [Hw Hres].
  destruct (searchCfg hwNum cfgDir w) as [w1 [path|e]]; simpl in Hw, Hres, Hfound;
    subst w1; [|discriminate Hfound].
  injection Hfound as ->.
  destruct Hres as (pre & f & post & _ & -> & _ & _).
  unfold pbind at 1, str_rindex.
  destruct (rindex_char_app "/" cfgDir f) as [i Hi].
  change (cfgDir +:+ "/" +:+ f) with (cfgDir +:+ String "/" f) in *.
  rewrite Hi. unfold pret at 1. unfold pbind at 1, str_index. rewrite Hindex.
  reflexivity.
Qed.

Lemma checkStudents_wrong_case_witness :
  (searchCfg "hw1" "cfg" capitals_world).2 = Returned "cfg/HW1_CFG.JSON" /\
  String.index 0 "_cfg.json" "cfg/HW1_CFG.JSON" = None /\
  checkStudents (fnmatch.glob_in plain_dir) example_json lenient_compare tools_ok stem
    "cfg" "handin" ["s"; "t"] "hw1" capitals_world = (capitals_world, Failed ValueError).
Proof.
  assert ((searchCfg "hw1" "cfg" capitals_world).2 = Returned "cfg/HW1_CFG.JSON") as Hf
    by (vm_compute; reflexivity).
  assert (String.index 0 "_cfg.json" "cfg/HW1_CFG.JSON" = None) as Hi
    by (vm_compute; reflexivity).
  split; [exact Hf|]. split; [exact Hi|].
  exact (checkStudents_wrong_case _ _ _ _ _ _ _ _ _ _ _ Hf Hi).
Defined.

Lemma checkStudents_loop
    (sv_checkInterface : string -> string -> option (list string) -> string)
    (run_process : list string -> ProcResult) (with_suffix_empty : string -> string)
    (hwNum : string) (opArray : list Operation) (studentList : list string) :
  forall (ops : list Operation) (errs : list string) (w w' : World)
         (res : list Operation * list string),
    map clearErrors ops = map clearErrors opArray ->
    pfor_each studentList
      (checkStudents_body sv_checkInterface run_process with_suffix_empty hwNum)
      (ops, errs) w = (w', Returned res) ->
    exists outs,
      checked sv_checkInterface run_process with_suffix_empty hwNum studentList ops w
        outs w' /\
      Forall2 (student_outcome hwNum opArray) studentList outs /\
      res.2 = errs ++ map snd (List.filter fst outs).
Proof.
  induction studentList as [|student l IH]; intros ops errs w w' res Hops Hrun;
    simpl in Hrun.
  - unfold pret in Hrun. injection Hrun as <- <-. exists [].
    split; [constructor|]. split; [constructor|]. simpl. now rewrite app_nil_r.
  - unfold pbind at 1 in Hrun. unfold checkStudents_body at 1 in Hrun.
    unfold pbind at 1, lift at 1 in Hrun.
    destruct (checkStudent sv_checkInterface run_process with_suffix_empty
                student ops hwNum w) as [w1 [[ops1 [any out]]|e]] eqn:Hcs;
      [|discriminate Hrun].
    pose proof Hcs as Hstudent.
    apply checkStudent_returns in Hcs as (w0 & w2 & Hloop).
    apply checkStudent_report_loop in Hloop as (ops' & H1 & H2 & H3 & H4).
    cbn [fst snd] in H1, H2, H3, H4. simpl in H1. subst ops'.
    assert (student_outcome hwNum opArray student (any, out)) as Hout.
    { exists ops1. split; [congruence|]. split; assumption. }
    assert (exists errs1,
      pfor_each l (checkStudents_body sv_checkInterface run_process with_suffix_empty
                     hwNum) (ops1, errs1) w1 = (w', Returned res) /\
      errs1 = errs ++ map snd (List.filter fst [(any, out)])) as (errs1 & Hrest & ->).
    { destruct any; unfold pret in Hrun; eexists; (split; [exact Hrun|]); simpl;
        [reflexivity|now rewrite app_nil_r]. }
    apply IH in Hrest as (outs & Hchain & Houts & Hres); [|congruence].
    exists ((any, out) :: outs).
    split; [econstructor; eassumption|]. split; [now constructor|].
    rewrite Hres, <- app_assoc. f_equal.
    cbn [List.filter fst]. now destruct any.
Qed.

(** The chain of runs fixes what the students returned. *)
Lemma checked_functional
    (sv_checkInterface : string -> string -> option (list string) -> string)
    (run_process : list string -> ProcResult) (with_suffix_empty : string -> string)
    (hwNum : string) (students : list string) (ops : list Operation) (w w1 w2 : World)
    (outs1 outs2 : list (bool * string)) :
  checked sv_checkInterface run_process with_suffix_empty hwNum students ops w outs1 w1 ->
  checked sv_checkInterface run_process with_suffix_empty hwNum students ops w outs2 w2 ->
  outs1 = outs2 /\ w1 = w2.
Proof.
  intros H1. revert outs2 w2.
  induction H1 as [ops w|student students ops ops' w wa w' out outs Hrun Hrest IH];
    intros outs2 w2 H2; inversion H2; subst.
  - split; reflexivity.
  - match goal with
    | Hrun2 : checkStudent _ _ _ student ops hwNum w = _ |- _ =>
        rewrite Hrun in Hrun2; injection Hrun2 as <- <- <-
    end.
    match goal with
    | Hrest2 : checked _ _ _ _ students ops' wa _ _ |- _ =>
        destruct (IH _ _ Hrest2) as [-> ->]
    end.
    split; reflexivity.
Qed.

(** X25.  When [checkStudents] returns, the configuration was found,
    parsed and turned into an array of operations; from the handin
    directory, [checkStudent] was run on every student of the list, in
    order, each run starting in the world and with the operations the
    previous one left, always with the configuration of that array; the
    list returned holds the reports of exactly the runs that returned
    [True], in the order of the list; the world left is the one the last
    run left, back in the directory of the call. *)
Theorem checkStudents_report
    (glob_glob : string -> list string)
    (json_load : string -> string + option (list Problem))
    (sv_checkInterface : string -> string -> option (list string) -> string)
    (run_process : list string -> ProcResult) (with_suffix_empty : string -> string)
    (cfgDir handinDir hwNum : string) (studentList errorStudents : list string)
    (w w' : World) :
  checkStudents glob_glob json_load sv_checkInterface run_process with_suffix_empty
    cfgDir handinDir studentList hwNum w = (w', Returned errorStudents) ->
  exists cfgPath hwNum' config opArray outs w1,
    searchCfg hwNum cfgDir w = (w, Returned cfgPath) /\
    parseConfig json_load (cfgDir +:+ "/" +:+ hwNum' +:+ "_cfg.json") w =
      (w, Returned (Some config)) /\
    makeOpArray glob_glob config None false true = Ok opArray /\
    checked sv_checkInterface run_process with_suffix_empty hwNum' studentList opArray
      (set_cwd (os.resolve (cwd w) handinDir) w) outs w1 /\
    (forall outs2 w2,
       checked sv_checkInterface run_process with_suffix_empty hwNum' studentList
         opArray (set_cwd (os.resolve (cwd w) handinDir) w) outs2 w2 ->
       outs2 = outs /\ w2 = w1) /\
    length outs = length studentList /\
    Forall2 (student_outcome hwNum' opArray) studentList outs /\
    errorStudents = map snd (List.filter fst outs) /\
    w' = set_cwd (os.resolve (cwd w1) (cwd w)) w1 /\
    (os.isabs (cwd w) = true -> cwd w' = cwd w).
Proof.
  intros Hrun. unfold checkStudents in Hrun. unfold pbind at 1 in Hrun.
  pose proof (searchCfg_spec hwNum cfgDir w) as [Hw _].
  destruct (searchCfg hwNum cfgDir w) as [w1 [cfgPath|e]] eqn:Hsearch;
    [|discriminate Hrun].
  simpl in Hw. subst w1. exists cfgPath.
  unfold pbind at 1, str_rindex in Hrun.
  destruct (rindex_char "/" cfgPath) as [slash|]; [|discriminate Hrun].
  unfold pret at 1 in Hrun. unfold pbind at 1, str_index in Hrun.
  destruct (String.index 0 "_cfg.json" cfgPath) as [suffix|]; [|discriminate Hrun].
  unfold pret at 1 in Hrun. cbv zeta in Hrun.
  set (hwNum' := slice (slash + 1) suffix cfgPath) in *. exists hwNum'.
  unfold pbind at 1 in Hrun.
  pose proof (parseConfig_world json_load (cfgDir +:+ "/" +:+ hwNum' +:+ "_cfg.json") w)
    as Hpw.
  destruct (parseConfig json_load (cfgDir +:+ "/" +:+ hwNum' +:+ "_cfg.json") w)
    as [w1 [[config|]|e]] eqn:Hparse; try discriminate Hrun.
  simpl in Hpw. subst w1. exists config.
  unfold pbind at 1, lift_result in Hrun.
  destruct (makeOpArray glob_glob config None false true) as [opArray|e] eqn:Hmake;
    [|discriminate Hrun].
  exists opArray.
  unfold pbind at 1, lift at 1, os.getcwd in Hrun.
  unfold pbind at 1, lift at 1, os.chdir at 1 in Hrun.
  unfold pbind at 1 in Hrun.
  match type of Hrun with
  | context [pfor_each studentList ?body ?acc ?w0] =>
      destruct (pfor_each studentList body acc w0) as [w1 [res|e]] eqn:Hloop;
      [|discriminate Hrun]
  end.
  apply checkStudents_loop with (opArray := opArray) in Hloop
    as (outs & Hchain & Houts & Hres); [|reflexivity].
  unfold pbind, lift, os.chdir, pret in Hrun. injection Hrun as <- <-.
  exists outs, w1. split_and!; try reflexivity; try assumption.
  - intros outs2 w2 H2.
    destruct (checked_functional _ _ _ _ _ _ _ _ _ _ _ Hchain H2) as [-> ->]. auto.
  - symmetry. exact (Forall2_length _ _ _ Houts).
  - intros Habs. simpl. now apply resolve_abs.
Qed.

Lemma checkStudents_report_witness :
  exists w' errorStudents cfgPath hwNum' config opArray outs w1,
    checkStudents (fnmatch.glob_in plain_dir) example_json lenient_compare tools_ok stem
      "cfg" "handin" ["s"; "t"] "HW1" config_world = (w', Returned errorStudents) /\
    length errorStudents = 1%nat /\
    searchCfg "HW1" "cfg" config_world = (config_world, Returned cfgPath) /\
    parseConfig example_json ("cfg" +:+ "/" +:+ hwNum' +:+ "_cfg.json") config_world =
      (config_world, Returned (Some config)) /\
    makeOpArray (fnmatch.glob_in plain_dir) config None false true = Ok opArray /\
    checked lenient_compare tools_ok stem hwNum' ["s"; "t"] opArray
      (set_cwd (os.resolve (cwd config_world) "handin") config_world) outs w1 /\
    errorStudents = map snd (List.filter fst outs) /\
    w' = set_cwd (os.resolve (cwd w1) (cwd config_world)) w1 /\
    cwd w' = cwd config_world.
Proof.
  assert (exists w' errorStudents,
    checkStudents (fnmatch.glob_in plain_dir) example_json lenient_compare tools_ok stem
      "cfg" "handin" ["s"; "t"] "HW1" config_world = (w', Returned errorStudents) /\
    length errorStudents = 1%nat) as (w' & errs & Hrun & Hlen)
    by (eexists _, _; split; [vm_compute; reflexivity|reflexivity]).
  destruct (checkStudents_report _ _ _ _ _ _ _ _ _ _ _ _ Hrun)
    as (cfgPath & hwNum' & config & opArray & outs & w1 &
        H1 & H2 & H3 & H4 & _ & _ & _ & H5 & H6 & H7).
  exists w', errs, cfgPath, hwNum', config, opArray, outs, w1.
  split; [exact Hrun|]. split; [exact Hlen|].
  split; [exact H1|]. split; [exact H2|]. split; [exact H3|].
  split; [exact H4|]. split; [exact H5|]. split; [exact H6|]. exact (H7 eq_refl).
Defined.
